(** * duplo: duplicate-file detection, directory matching, selection and deletion

    A shallow embedding of [main.py] and the properties of its
    duplicate-detection and selection-planning engine.

    Conventions of the embedding.
    - Python [str] values are [string]s of code points below 256.
    - Python [int]s are [Z]; the modification time (a float that is only
      ever compared for equality) is a [Z] as well.
    - Insertion-ordered [dict]s that the program iterates over are association
      lists in insertion order; the cache dictionary, which is only looked up
      and assigned, is a [gmap].
    - Exceptions are a [result] type; [input()] reads from an explicit list of
      pending lines.
    - The file system is a parameter: what reading a file gives during a
      detection pass, [os.path.getsize] for the prompts, and a class of
      operations for the deletion.  It does not change during a detection
      pass.
    - [print] calls are output only and are left out, except in
      [execute_deletion], whose printed lines are its report, and in the
      summary of [main], where formatting a size can raise.  The sizes the
      other calls format are file sizes, far below the integers
      [format_size] cannot convert, so a left-out [print] never raises.
    - Loading the cache file is outside the model: the loaded dictionary is
      an argument.  The dictionary to be written is a result of the detection
      pass; [main] writes it through a parameter for [save_cache]. *)

From Stdlib Require Import ZArith QArith Qabs Qround String Ascii List Lia Lqa.
From stdpp Require Import base decidable option list gmap strings pretty sorting.

Local Open Scope Z_scope.

(** ** Exceptions *)

Inductive exn : Type :=
  | OSError
  | EOFError
  | ValueError
  | IndexError
  | OverflowError
  | TypeError.

Inductive result (A : Type) : Type :=
  | Ret (a : A)
  | Raise (e : exn).
Arguments Ret {A} a.
Arguments Raise {A} e.

(** ** Insertion-ordered dictionaries of lists ([defaultdict(list)]) *)

Module ODict.
Section odict.
Context {K V : Type} `{EqDecision K}.

(** [d[k].append(v)] on a [defaultdict(list)]: an existing key keeps its
    position and grows at the end; a new key goes last. *)
Fixpoint append (k : K) (v : V) (d : list (K * list V)) : list (K * list V) :=
  match d with
  | [] => [(k, [v])]
  | (k', vs) :: d' =>
      if decide (k' = k) then (k', vs ++ [v]) :: d'
      else (k', vs) :: append k v d'
  end.

(** [d[k] = x] on a plain [dict]. *)
Fixpoint assign {W : Type} (k : K) (x : W) (d : list (K * W)) : list (K * W) :=
  match d with
  | [] => [(k, x)]
  | (k', y) :: d' =>
      if decide (k' = k) then (k', x) :: d'
      else (k', y) :: assign k x d'
  end.

(** [{k: vs for k, vs in d.items() if len(vs) > 1}] *)
Definition more_than_one {W : Type} (d : list (K * list W)) : list (K * list W) :=
  filter (fun kv => bool_decide (1 < length kv.2)%nat) d.

(** [v] is stored under key [k]. *)
Definition mem (k : K) (v : V) (d : list (K * list V)) : Prop :=
  exists vs, (k, vs) ∈ d /\ v ∈ vs.
End odict.
End ODict.

(** ** The content digester *)

(** What reading a file gives: it cannot be opened, a read fails after some
    blocks, or all blocks are read (the [iter(lambda: f.read(block_size), b'')]
    sequence). *)
Inductive read_outcome : Type :=
  | OpenFails
  | ReadFails (blocks_before : list (list Byte.byte))
  | ReadOk (blocks : list (list Byte.byte)).

(** [hashlib.md5]: a running digest state. *)
Class Hashlib (D : Type) : Type := {
  md5_new : D;
  md5_update : D -> list Byte.byte -> D;
  md5_hexdigest : D -> string;
}.

Section Digest.
Context {D : Type} `{Hashlib D}.
(** The file contents seen by [open(filepath, 'rb')] during one pass. *)
Variable read_blocks : string -> read_outcome.

Definition get_file_hash (filepath : string) : option string :=
  match read_blocks filepath with
  | ReadOk blocks => Some (md5_hexdigest (fold_left md5_update blocks md5_new))
  | ReadFails _ => None
  | OpenFails => None
  end.
End Digest.

(** ** HashCache *)

Record CacheEntry : Type := mkEntry {
  ce_size : Z;
  ce_mtime : Z;
  ce_hash : string;
}.

Module HashCache.
Definition get (cache : gmap string CacheEntry)
    (file_path : string) (file_size mtime : Z) : option string :=
  match cache !! file_path with
  | Some cached_data =>
      if bool_decide (ce_size cached_data = file_size)
         && bool_decide (ce_mtime cached_data = mtime)
      then Some (ce_hash cached_data)
      else None
  | None => None
  end.

Definition set (cache : gmap string CacheEntry)
    (file_path : string) (file_size mtime : Z) (file_hash : string)
    : gmap string CacheEntry :=
  <[file_path := mkEntry file_size mtime file_hash]> cache.
End HashCache.

(** Truth value of a Python string. *)
Definition truthy (s : string) : bool := negb (bool_decide (s = EmptyString)).

(** ** find_duplicates_parallel *)

(** The loop state of [find_duplicates_parallel].  [digest_calls] and
    [digest_failures] are ghost counters: the number of calls of
    [get_file_hash] made so far and how many of them returned [None]. *)
Record DetectState : Type := mkDetect {
  hashes_map : list (string * list string);
  cache : option (gmap string CacheEntry);
  processed : nat;
  from_cache : nat;
  digest_calls : nat;
  digest_failures : nat;
}.

Section Detection.
Context {D : Type} `{Hashlib D}.
Variable read_blocks : string -> read_outcome.

(** [size_groups[file_size].append((file_path, mtime))] over the file list. *)
Definition size_groups (file_list : list (string * Z * Z))
    : list (Z * list (string * Z)) :=
  fold_left
    (fun sg '(file_path, file_size, mtime) =>
       ODict.append file_size (file_path, mtime) sg)
    file_list [].

Definition candidate_groups (file_list : list (string * Z * Z))
    : list (Z * list (string * Z)) :=
  ODict.more_than_one (size_groups file_list).

(** The body of the inner loop, for one [(file_path, mtime)] of the bucket
    of [size]. *)
Definition process_file (size : Z) (st : DetectState) (entry : string * Z)
    : DetectState :=
  let '(file_path, mtime) := entry in
  let file_size := size in
  (* file_hash = cache.get(...) when there is a cache, else None *)
  let file_hash :=
    match cache st with
    | Some c => HashCache.get c file_path file_size mtime
    | None => None
    end in
  match cache st, file_hash with
  | Some _, Some h =>
      if truthy h then
        (* cache hit: count it, group it, continue *)
        mkDetect (ODict.append h file_path (hashes_map st)) (cache st)
                 (S (processed st)) (S (from_cache st))
                 (digest_calls st) (digest_failures st)
      else
        (* a falsy cached value is neither a hit nor None *)
        mkDetect (hashes_map st) (cache st) (S (processed st)) (from_cache st)
                 (digest_calls st) (digest_failures st)
  | _, _ =>
      match get_file_hash read_blocks file_path with
      | Some h =>
          mkDetect (ODict.append h file_path (hashes_map st))
                   (match cache st with
                    | Some c => Some (HashCache.set c file_path file_size mtime h)
                    | None => None
                    end)
                   (S (processed st)) (from_cache st)
                   (S (digest_calls st)) (digest_failures st)
      | None =>
          mkDetect (hashes_map st) (cache st) (S (processed st)) (from_cache st)
                   (S (digest_calls st)) (S (digest_failures st))
      end
  end.

(** The two nested loops over [candidate_groups.items()]. *)
Definition process_groups (st : DetectState)
    (groups : list (Z * list (string * Z))) : DetectState :=
  fold_left
    (fun st '(size, file_list) => fold_left (process_file size) file_list st)
    groups st.

Definition initial_state (cache0 : option (gmap string CacheEntry)) : DetectState :=
  mkDetect [] cache0 0 0 0 0.

(** The state when the loops end; its [cache] is what [save_cache] writes. *)
Definition detect_run (file_list : list (string * Z * Z))
    (cache0 : option (gmap string CacheEntry)) : DetectState :=
  process_groups (initial_state cache0) (candidate_groups file_list).

(** [cache0] is the [HashCache] built from [cache_file] ([None] when no cache
    file is given); [max_workers] is accepted and never used. *)
Definition find_duplicates_parallel (file_list : list (string * Z * Z))
    (max_workers : Z) (cache0 : option (gmap string CacheEntry))
    : list (string * list string) :=
  ODict.more_than_one (hashes_map (detect_run file_list cache0)).

End Detection.

(** ** find_identical_directories *)

(** [sorted(hashes)]: strings are compared code point by code point. *)
Definition sorted (hashes : list string) : list string :=
  merge_sort String.le hashes.

Section Directories.
(** [os.path.dirname] of the platform. *)
Variable dirname : string -> string.

(** [dir_hashes[os.path.dirname(file_path)].append(file_hash)], for every path
    of every duplicate group. *)
Definition dir_hashes (duplicates : list (string * list string))
    : list (string * list string) :=
  fold_left
    (fun dh '(file_hash, file_paths) =>
       fold_left
         (fun dh file_path => ODict.append (dirname file_path) file_hash dh)
         file_paths dh)
    duplicates [].

(** [dir_signatures[dir_path] = tuple(sorted(hashes))] *)
Definition dir_signatures (duplicates : list (string * list string))
    : list (string * list string) :=
  fold_left
    (fun ds '(dir_path, hashes) => ODict.assign dir_path (sorted hashes) ds)
    (dir_hashes duplicates) [].

(** [signature_groups[signature].append(dir_path)] *)
Definition signature_groups (duplicates : list (string * list string))
    : list (list string * list string) :=
  fold_left
    (fun sg '(dir_path, signature) => ODict.append signature dir_path sg)
    (dir_signatures duplicates) [].

(** [statistics] is accepted and never used. *)
Definition find_identical_directories {Stats : Type} (statistics : Stats)
    (duplicates : list (string * list string)) : list (list string) :=
  (ODict.more_than_one (signature_groups duplicates)).*2.

End Directories.

(** [posixpath.dirname]. *)
Definition is_slash (c : ascii) : bool := bool_decide (c = "/"%char).

Fixpoint drop_while {A : Type} (f : A -> bool) (l : list A) : list A :=
  match l with
  | [] => []
  | x :: l' => if f x then drop_while f l' else l
  end.

Definition posix_dirname (p : string) : string :=
  (* head = p[:p.rfind('/') + 1], kept reversed *)
  let rhead :=
    drop_while (fun c => negb (is_slash c)) (reverse (list_ascii_of_string p)) in
  if forallb is_slash rhead then string_of_list_ascii (reverse rhead)
  else string_of_list_ascii (reverse (drop_while is_slash rhead)).

(** ** Python string methods used by the prompts *)

Definition code (c : ascii) : N := N_of_ascii c.

(** [str.isspace] on one character. *)
Definition py_isspace (c : ascii) : bool :=
  let n := code c in
  ((9 <=? n) && (n <=? 13) || (28 <=? n) && (n <=? 32)
   || (n =? 133) || (n =? 160))%N.

(** [str.strip()] *)
Definition py_strip (s : string) : string :=
  string_of_list_ascii
    (reverse (drop_while py_isspace
       (reverse (drop_while py_isspace (list_ascii_of_string s))))).

(** [str.lower()]: the upper-case letters below 256 are A-Z and the
    Latin-1 letters 192-222 except the multiplication sign 215. *)
Definition py_lower_char (c : ascii) : ascii :=
  let n := code c in
  if ((65 <=? n) && (n <=? 90)
      || (192 <=? n) && (n <=? 222) && negb (n =? 215))%N
  then ascii_of_N (n + 32) else c.

Definition py_lower (s : string) : string :=
  string_of_list_ascii (py_lower_char <$> list_ascii_of_string s).

(** [str.split()]: the maximal runs of non-space characters. *)
Fixpoint split_go (cur : list ascii) (l : list ascii) : list string :=
  match l with
  | [] => if cur is [] then [] else [string_of_list_ascii (reverse cur)]
  | c :: l' =>
      if py_isspace c
      then (if cur is [] then [] else [string_of_list_ascii (reverse cur)])
             ++ split_go [] l'
      else split_go (c :: cur) l'
  end.

Definition py_split (s : string) : list string :=
  split_go [] (list_ascii_of_string s).

(** [str.isdigit()]: non-empty and every character a digit; below 256 the
    digits are 0-9 and the superscripts 178, 179 and 185. *)
Definition ascii_digit (c : ascii) : bool :=
  ((48 <=? code c) && (code c <=? 57))%N.

Definition py_isdigit_char (c : ascii) : bool :=
  ascii_digit c || (code c =? 178)%N || (code c =? 179)%N || (code c =? 185)%N.

Definition py_isdigit (s : string) : bool :=
  negb (bool_decide (s = EmptyString))
  && forallb py_isdigit_char (list_ascii_of_string s).

(** [int(s)] for a string that passed [isdigit]: the decimal value, and
    [ValueError] when a character is a superscript digit. *)
Definition py_int (s : string) : result Z :=
  fold_left
    (fun acc c =>
       match acc with
       | Ret n =>
           if ascii_digit c then Ret (10 * n + (Z.of_N (code c) - 48))
           else Raise ValueError
       | Raise e => Raise e
       end)
    (list_ascii_of_string s) (Ret 0).

(** ** Console interaction: a state-and-error monad over the pending input *)

Definition Console (A : Type) : Type := list string -> result (A * list string).

Definition ret {A : Type} (a : A) : Console A := fun pending => Ret (a, pending).

Definition raise {A : Type} (e : exn) : Console A := fun _ => Raise e.

Definition bind {A B : Type} (m : Console A) (k : A -> Console B) : Console B :=
  fun pending =>
    match m pending with
    | Ret (a, pending') => k a pending'
    | Raise e => Raise e
    end.

Notation "x <- m ;; k" := (bind m (fun x => k))
  (at level 100, m at next level, right associativity).

(** [input()]: the next pending line, [EOFError] when there is none. *)
Definition input : Console string :=
  fun pending =>
    match pending with
    | [] => Raise EOFError
    | line :: rest => Ret (line, rest)
    end.

Definition lift {A : Type} (r : result A) : Console A :=
  match r with
  | Ret a => ret a
  | Raise e => raise e
  end.

Fixpoint for_each {A S : Type} (body : S -> A -> Console S) (l : list A) (s : S)
    : Console S :=
  match l with
  | [] => ret s
  | x :: l' => s' <- body s x ;; for_each body l' s'
  end.

Fixpoint map_result {A B : Type} (f : A -> result B) (l : list A) : result (list B) :=
  match l with
  | [] => Ret []
  | x :: l' =>
      match f x with
      | Raise e => Raise e
      | Ret y =>
          match map_result f l' with
          | Raise e => Raise e
          | Ret ys => Ret (y :: ys)
          end
      end
  end.

(** ** interactive_selection and auto_select_first_copy *)

(** [l[0]] *)
Definition first_item {A : Type} (l : list A) : result A :=
  match l with
  | [] => Raise IndexError
  | x :: _ => Ret x
  end.

(** [l[1:]] and [l[:-1]] *)
Definition all_but_first {A : Type} (l : list A) : list A := drop 1 l.
Definition all_but_last {A : Type} (l : list A) : list A := take (length l - 1) l.

(** [[int(idx) - 1 for idx in keep if idx.isdigit()]] *)
Definition keep_indices_of (keep : list string) : result (list Z) :=
  map_result
    (fun idx => match py_int idx with Ret n => Ret (n - 1) | Raise e => Raise e end)
    (filter (fun idx => Is_true (py_isdigit idx)) keep).

(** [for idx, x in enumerate(items): if idx not in keep_indices: ...append(x)]:
    the items whose position is not among [keep_indices], in order. *)
Fixpoint not_kept_from {A : Type} (idx : nat) (keep_indices : list Z) (items : list A)
    : list A :=
  match items with
  | [] => []
  | x :: rest =>
      if decide (Z.of_nat idx ∈ keep_indices)
      then not_kept_from (S idx) keep_indices rest
      else x :: not_kept_from (S idx) keep_indices rest
  end.

Definition not_kept {A : Type} (keep_indices : list Z) (items : list A) : list A :=
  not_kept_from 0 keep_indices items.

Section Selection.
(** [os.path.getsize]; [Raise OSError] when the path cannot be examined. *)
Variable getsize : string -> result Z.

(** One round of the loop over [duplicates.items()]; the loop carries
    [files_to_delete] and the flag [auto_select_first]. *)
Definition file_group_body (acc : list string * bool) (group : string * list string)
    : Console (list string * bool) :=
  let '(files_to_delete, auto_select_first) := acc in
  let '(file_hash, file_paths) := group in
  first <- lift (first_item file_paths) ;;
  size <- lift (getsize first) ;;
  if auto_select_first then
    ret (files_to_delete ++ all_but_first file_paths, auto_select_first)
  else
    line <- input ;;
    let choice := py_lower (py_strip line) in
    if bool_decide (choice = "s") then
      ret (files_to_delete, auto_select_first)
    else if bool_decide (choice = "a") then
      ret (files_to_delete ++ all_but_first file_paths, auto_select_first)
    else if bool_decide (choice = "b") then
      ret (files_to_delete ++ all_but_last file_paths, auto_select_first)
    else if bool_decide (choice = "m") then
      line' <- input ;;
      let keep := py_split line' in
      keep_indices <- lift (keep_indices_of keep) ;;
      ret (files_to_delete ++ not_kept keep_indices file_paths, auto_select_first)
    else if bool_decide (choice = "a") then
      ret (files_to_delete ++ all_but_first file_paths, true)
    else
      ret (files_to_delete, auto_select_first).

(** One round of the loop over [identical_dirs]. *)
Definition dir_group_body (dirs_to_delete : list string) (dir_group : list string)
    : Console (list string) :=
  line <- input ;;
  let choice := py_lower (py_strip line) in
  if bool_decide (choice = "s") then
    ret dirs_to_delete
  else if bool_decide (choice = "a") then
    ret (dirs_to_delete ++ all_but_first dir_group)
  else if bool_decide (choice = "b") then
    ret (dirs_to_delete ++ all_but_last dir_group)
  else if bool_decide (choice = "m") then
    line' <- input ;;
    let keep := py_split line' in
    keep_indices <- lift (keep_indices_of keep) ;;
    ret (dirs_to_delete ++ not_kept keep_indices dir_group)
  else
    ret dirs_to_delete.

Definition interactive_selection {Stats : Type}
    (duplicates : list (string * list string)) (identical_dirs : list (list string))
    (statistics : Stats) (auto_select_first : bool)
    : Console (list string * list string) :=
  files <- for_each file_group_body duplicates ([], auto_select_first) ;;
  dirs_to_delete <- for_each dir_group_body identical_dirs [] ;;
  ret (files.1, dirs_to_delete).

End Selection.

Definition auto_select_first_copy
    (duplicates : list (string * list string)) (identical_dirs : list (list string))
    : list string * list string :=
  let files_to_delete :=
    fold_left (fun acc '(file_hash, file_paths) => acc ++ all_but_first file_paths)
              duplicates [] in
  let dirs_to_delete :=
    fold_left (fun acc dir_group => acc ++ all_but_first dir_group)
              identical_dirs [] in
  (files_to_delete, dirs_to_delete).

(** ** format_size *)

(** The value of [size_bytes]: the [int] it starts as, or the [float] it
    becomes after the first division.  A float is held as the rational it
    denotes. *)
Inductive pynum : Type :=
  | PyInt (n : Z)
  | PyFloat (x : Q).

(** Conversion of an [int] to a binary64 float: round to nearest, ties to
    even, on 53 bits; [None] is [OverflowError]. *)
Definition float_of_int (n : Z) : option Q :=
  let a := Z.abs n in
  let e := Z.log2 a - 52 in
  if e <=? 0 then Some (inject_Z n)
  else
    let q := a / 2 ^ e in
    let r := a mod 2 ^ e in
    let half := 2 ^ (e - 1) in
    let q' := if r <? half then q
              else if half <? r then q + 1
              else if Z.even q then q else q + 1 in
    let m := q' * 2 ^ e in
    if 2 ^ 1024 <=? m then None else Some (inject_Z (Z.sgn n * m)).

(** [size_bytes < 1024.0]; comparing an [int] with a float is exact. *)
Definition lt_1024 (v : pynum) : bool :=
  match v with
  | PyInt n => n <? 1024
  | PyFloat x => negb (Qle_bool (1024 # 1) x)
  end.

(** [size_bytes /= 1024.0].  The operand is at least 1024 whenever the loop
    divides, so the binary64 quotient by this power of two is exact. *)
Definition div_1024 (v : pynum) : result pynum :=
  match v with
  | PyInt n =>
      match float_of_int n with
      | Some x => Ret (PyFloat (x / (1024 # 1))%Q)
      | None => Raise OverflowError
      end
  | PyFloat x => Ret (PyFloat (x / (1024 # 1))%Q)
  end.

Definition two_digits (n : Z) : string :=
  if n <? 10 then "0" +:+ pretty n else pretty n.

(** [f"{x:.2f}"]: the decimal expansion correctly rounded to two places,
    ties to even. *)
Definition format_2f_Q (x : Q) : string :=
  let scaled := (Qabs x * (100 # 1))%Q in
  let fl := Qfloor scaled in
  let frac := (scaled - inject_Z fl)%Q in
  let r := if negb (Qle_bool (1 # 2) frac) then fl
           else if negb (Qle_bool frac (1 # 2)) then fl + 1
           else if Z.even fl then fl else fl + 1 in
  (if negb (Qle_bool (0 # 1) x) then "-" else EmptyString)
    +:+ pretty (r / 100) +:+ "." +:+ two_digits (r mod 100).

(** [f"{size_bytes:.2f}"]: an [int] is converted to a float before it is
    formatted, which rounds it beyond 53 bits and raises [OverflowError] when
    no float can hold it. *)
Definition format_2f (v : pynum) : result string :=
  match v with
  | PyInt n =>
      match float_of_int n with
      | Some x => Ret (format_2f_Q x)
      | None => Raise OverflowError
      end
  | PyFloat x => Ret (format_2f_Q x)
  end.

(** The [for unit in [...]] loop; falling off its end returns [None]. *)
Fixpoint format_size_loop (units : list string) (size_bytes : pynum)
    : result (option string) :=
  match units with
  | [] => Ret None
  | unit :: rest =>
      if lt_1024 size_bytes then
        match format_2f size_bytes with
        | Ret digits => Ret (Some (digits +:+ " " +:+ unit))
        | Raise e => Raise e
        end
      else
        match div_1024 size_bytes with
        | Ret size_bytes' => format_size_loop rest size_bytes'
        | Raise e => Raise e
        end
  end.

Definition format_size (size_bytes : Z) : result (option string) :=
  format_size_loop ["B"; "KB"; "MB"; "GB"; "TB"] (PyInt size_bytes).

(** ** execute_deletion *)

(** The file-system calls of [execute_deletion]. *)
Class FileSystem (FS : Type) : Type := {
  (** [os.path.getsize(path)] *)
  fs_getsize : FS -> string -> result Z;
  (** [os.remove(path)]; a failed removal changes nothing *)
  fs_remove : FS -> string -> result FS;
  (** full paths of the files [os.walk(dir_path)] visits; none for a missing
      directory *)
  fs_walk_files : FS -> string -> list string;
  (** [shutil.rmtree(dir_path)]: the file system it leaves and the exception
      it ends with, if any *)
  fs_rmtree : FS -> string -> FS * option exn;
}.

(** The lines [execute_deletion] prints for the items of the plan. *)
Inductive report_line : Type :=
  | FileDeleted (file_path : string) (file_size : Z)
  | FileWouldBeDeleted (file_path : string) (file_size : Z)
  | FileError (file_path : string) (e : exn)
  | DirDeleted (dir_path : string) (dir_size : Z)
  | DirWouldBeDeleted (dir_path : string) (dir_size : Z)
  | DirError (dir_path : string) (e : exn).

Record ExecState (FS : Type) : Type := mkExec {
  deleted_files : nat;
  deleted_dirs : nat;
  freed_space : Z;
  printed : list report_line;
  disk : FS;
}.
Arguments mkExec {FS}.
Arguments deleted_files {FS}.
Arguments deleted_dirs {FS}.
Arguments freed_space {FS}.
Arguments printed {FS}.
Arguments disk {FS}.

Section Execution.
Context {FS : Type} `{FileSystem FS}.
Variable dry_run : bool.

(** The body of [for file_path in files_to_delete]. *)
Definition delete_file (st : ExecState FS) (file_path : string) : ExecState FS :=
  match fs_getsize (disk st) file_path with
  | Raise e =>
      mkExec (deleted_files st) (deleted_dirs st) (freed_space st)
             (printed st ++ [FileError file_path e]) (disk st)
  | Ret file_size =>
      if dry_run then
        mkExec (S (deleted_files st)) (deleted_dirs st) (freed_space st + file_size)
               (printed st ++ [FileWouldBeDeleted file_path file_size]) (disk st)
      else
        match fs_remove (disk st) file_path with
        | Raise e =>
            mkExec (deleted_files st) (deleted_dirs st) (freed_space st)
                   (printed st ++ [FileError file_path e]) (disk st)
        | Ret disk' =>
            mkExec (S (deleted_files st)) (deleted_dirs st) (freed_space st + file_size)
                   (printed st ++ [FileDeleted file_path file_size]) disk'
        end
  end.

(** [dir_size]: the sizes of the walked files, skipping those whose size
    cannot be read. *)
Definition walk_size (d : FS) (dir_path : string) : Z :=
  fold_left
    (fun dir_size file =>
       match fs_getsize d file with
       | Ret n => dir_size + n
       | Raise _ => dir_size
       end)
    (fs_walk_files d dir_path) 0.

(** The body of [for dir_path in dirs_to_delete]. *)
Definition delete_dir (st : ExecState FS) (dir_path : string) : ExecState FS :=
  let dir_size := walk_size (disk st) dir_path in
  if dry_run then
    mkExec (deleted_files st) (S (deleted_dirs st)) (freed_space st + dir_size)
           (printed st ++ [DirWouldBeDeleted dir_path dir_size]) (disk st)
  else
    match fs_rmtree (disk st) dir_path with
    | (disk', Some e) =>
        mkExec (deleted_files st) (deleted_dirs st) (freed_space st)
               (printed st ++ [DirError dir_path e]) disk'
    | (disk', None) =>
        mkExec (deleted_files st) (S (deleted_dirs st)) (freed_space st + dir_size)
               (printed st ++ [DirDeleted dir_path dir_size]) disk'
    end.

(** The final state carries the totals of the last two printed lines. *)
Definition execute_deletion (d : FS) (files_to_delete dirs_to_delete : list string)
    : ExecState FS :=
  fold_left delete_dir dirs_to_delete
    (fold_left delete_file files_to_delete (mkExec 0%nat 0%nat 0 [] d)).

End Execution.

(** ** Concrete instances used in the examples *)

(** A toy running digest: the bytes seen so far, rendered one character per
    byte after a marker. *)
#[local] Instance toy_hashlib : Hashlib (list Byte.byte) := {|
  md5_new := [];
  md5_update := fun seen block => seen ++ block;
  md5_hexdigest := fun seen => String "#" (String.string_of_list_byte seen);
|}.

(** A flat disk: regular files with their sizes; every directory removal
    fails. *)
#[local] Instance flat_disk : FileSystem (gmap string Z) := {|
  fs_getsize := fun d p => match d !! p with Some n => Ret n | None => Raise OSError end;
  fs_remove := fun d p => match d !! p with Some _ => Ret (delete p d) | None => Raise OSError end;
  fs_walk_files := fun d p => [];
  fs_rmtree := fun d p => (d, Some OSError);
|}.

Definition sample_getsize (p : string) : result Z := Ret 4.

(** ** Notions used to state the properties of detection *)

Definition path_of (r : string * Z * Z) : string := r.1.1.
Definition size_of (r : string * Z * Z) : Z := r.1.2.
Definition mtime_of (r : string * Z * Z) : Z := r.2.

(** The candidate records in the order the nested loops visit them. *)
Definition flatten_groups (groups : list (Z * list (string * Z)))
    : list (string * Z * Z) :=
  flat_map (fun g => (fun e : string * Z => (e.1, g.1, e.2)) <$> g.2) groups.

(** What happens to one record, given the cache it is looked up in. *)
Inductive outcome : Type :=
  | CacheHit (h : string)       (* a valid, truthy cache entry *)
  | FalsyEntry                (* a valid cache entry holding a falsy value *)
  | Digested (h : string)     (* no valid entry, the digest succeeds *)
  | DigestFailed.                (* no valid entry, the digest fails *)

Definition fingerprint_of (o : outcome) : option string :=
  match o with
  | CacheHit h | Digested h => Some h
  | FalsyEntry | DigestFailed => None
  end.


Definition grouped (groups : list (string * list string)) (p : string) : Prop :=
  exists g, g ∈ groups /\ p ∈ g.2.

(** Counting, and the ghost counters as counts of outcomes. *)
Definition count {A : Type} (f : A -> bool) (l : list A) : nat :=
  length (filter (fun x => Is_true (f x)) l).

Definition attempts (o : outcome) : bool :=
  match o with Digested _ | DigestFailed => true | CacheHit _ | FalsyEntry => false end.

Definition fails (o : outcome) : bool :=
  match o with DigestFailed => true | _ => false end.

(** [hashes_map[h].append(p)] when the outcome carries a fingerprint [h]. *)
Definition add_fingerprint (o : outcome) (p : string)
    (hm : list (string * list string)) : list (string * list string) :=
  match fingerprint_of o with
  | Some h => ODict.append h p hm
  | None => hm
  end.

Section DetectionNotions.
Context {D : Type} `{Hashlib D}.
Variable read_blocks : string -> read_outcome.

Definition candidate_records (file_list : list (string * Z * Z))
    : list (string * Z * Z) :=
  flatten_groups (candidate_groups file_list).

Definition process_record (st : DetectState) (r : string * Z * Z) : DetectState :=
  process_file read_blocks (size_of r) st (path_of r, mtime_of r).

Definition process_records (st : DetectState) (l : list (string * Z * Z))
    : DetectState :=
  fold_left process_record l st.

Definition classify (c : option (gmap string CacheEntry)) (r : string * Z * Z)
    : outcome :=
  match c with
  | Some c' =>
      match HashCache.get c' (path_of r) (size_of r) (mtime_of r) with
      | Some h => if truthy h then CacheHit h else FalsyEntry
      | None =>
          match get_file_hash read_blocks (path_of r) with
          | Some h => Digested h
          | None => DigestFailed
          end
      end
  | None =>
      match get_file_hash read_blocks (path_of r) with
      | Some h => Digested h
      | None => DigestFailed
      end
  end.

(** The effect of one record whose outcome is known. *)
Definition apply_outcome (o : outcome) (st : DetectState) (r : string * Z * Z)
    : DetectState :=
  match o with
  | CacheHit h =>
      mkDetect (ODict.append h (path_of r) (hashes_map st)) (cache st)
               (S (processed st)) (S (from_cache st))
               (digest_calls st) (digest_failures st)
  | FalsyEntry =>
      mkDetect (hashes_map st) (cache st) (S (processed st)) (from_cache st)
               (digest_calls st) (digest_failures st)
  | Digested h =>
      mkDetect (ODict.append h (path_of r) (hashes_map st))
               ((fun c => HashCache.set c (path_of r) (size_of r) (mtime_of r) h) <$> cache st)
               (S (processed st)) (from_cache st)
               (S (digest_calls st)) (digest_failures st)
  | DigestFailed =>
      mkDetect (hashes_map st) (cache st) (S (processed st)) (from_cache st)
               (S (digest_calls st)) (S (digest_failures st))
  end.

(** Processing with every outcome decided against one fixed cache [c]. *)
Definition replay (c : option (gmap string CacheEntry)) (st : DetectState)
    (l : list (string * Z * Z)) : DetectState :=
  fold_left (fun st r => apply_outcome (classify c r) st r) l st.

(** The fingerprint detection uses for a record: the cached one or the
    fresh digest; [None] when the record gets none. *)
Definition resolve (c : option (gmap string CacheEntry)) (r : string * Z * Z)
    : option string :=
  fingerprint_of (classify c r).

(** The second run of detection, on the cache the first run saved. *)
Definition second_run (file_list : list (string * Z * Z))
    (cache0 : option (gmap string CacheEntry)) : DetectState :=
  detect_run read_blocks file_list (cache (detect_run read_blocks file_list cache0)).

End DetectionNotions.

(** ** Sample inputs *)

Definition bytes_of (s : string) : list Byte.byte := String.list_byte_of_string s.

(** Three readable files, one whose read fails partway, the rest missing. *)
Definition sample_disk (p : string) : read_outcome :=
  if bool_decide (p = "/x/1.bin") then ReadOk [bytes_of "AAAA"]
  else if bool_decide (p = "/y/1.bin") then ReadOk [bytes_of "AA"; bytes_of "AA"]
  else if bool_decide (p = "/z/1.bin") then ReadOk [bytes_of "BBBB"]
  else if bool_decide (p = "/u/5.bin") then ReadOk [bytes_of "CCCCC"]
  else if bool_decide (p = "/v/6.bin") then ReadOk [bytes_of "DDDDD"]
  else if bool_decide (p = "/w/2.bin") then ReadFails [bytes_of "AA"]
  else OpenFails.

Definition sample_files : list (string * Z * Z) :=
  [("/x/1.bin", 4, 100); ("/y/1.bin", 4, 101); ("/u/5.bin", 5, 102);
   ("/z/1.bin", 4, 103); ("/w/2.bin", 4, 104); ("/v/6.bin", 5, 105)].

(** A cache holding one fingerprint under two paths with different sizes. *)
Definition shared_fingerprint_cache : gmap string CacheEntry :=
  <["/a/1.bin" := mkEntry 4 100 "900150983cd24fb0d6963f7d28e17f72"]>
    (<["/b/2.bin" := mkEntry 5 100 "900150983cd24fb0d6963f7d28e17f72"]> ∅).

Definition two_sizes_files : list (string * Z * Z) :=
  [("/a/1.bin", 4, 100); ("/c/3.bin", 4, 100); ("/b/2.bin", 5, 100); ("/d/4.bin", 5, 100)].


(** Files scanned with 4 and 5 bytes; by the time they are read, the second
    of each size holds the bytes AAAA. *)
Definition rewritten_disk (p : string) : read_outcome :=
  if bool_decide (p = "/a/1.bin") then ReadOk [bytes_of "AAAA"]
  else if bool_decide (p = "/b/2.bin") then ReadOk [bytes_of "AAAA"]
  else if bool_decide (p = "/c/3.bin") then ReadOk [bytes_of "BBBB"]
  else if bool_decide (p = "/d/4.bin") then ReadOk [bytes_of "CCCCC"]
  else OpenFails.


(** The claim of idempotence, for one file list and initial cache. *)
Definition second_run_is_free {D : Type} `{Hashlib D}
    (read_blocks : string -> read_outcome) (file_list : list (string * Z * Z))
    (cache0 : option (gmap string CacheEntry)) : Prop :=
  find_duplicates_parallel read_blocks file_list 8
    (cache (detect_run read_blocks file_list cache0))
  = find_duplicates_parallel read_blocks file_list 8 cache0
  /\ digest_calls (second_run read_blocks file_list cache0) = 0%nat.

(** The claim of the refresh, for one record looked up in the cache [c]:
    when the lookup returns [None], the entry of the path is overwritten with
    the size and modification time of the record and a fresh fingerprint. *)
Definition mismatch_is_refreshed {D : Type} `{Hashlib D}
    (read_blocks : string -> read_outcome) (c : gmap string CacheEntry)
    (file_path : string) (file_size mtime : Z) : Prop :=
  HashCache.get c file_path file_size mtime = None ->
  exists h c',
    cache (process_file read_blocks file_size (initial_state (Some c))
             (file_path, mtime)) = Some c'
    /\ c' !! file_path = Some (mkEntry file_size mtime h).

(** A cache whose entries are older than the files: one for a readable file,
    one for the file whose read fails. *)
Definition stale_cache : gmap string CacheEntry :=
  <["/x/1.bin" := mkEntry 4 99 "#OLD"]> (<["/w/2.bin" := mkEntry 4 99 "#OLD"]> ∅).


(** The conditions under which fingerprints tell sizes apart. *)
Section SizeConditions.
Context {D : Type} `{Hashlib D}.
Variable read_blocks : string -> read_outcome.

(** [hashlib.md5] fed the blocks of a file. *)
Definition digest_of (blocks : list (list Byte.byte)) : string :=
  md5_hexdigest (fold_left md5_update blocks md5_new).



End SizeConditions.

(** ** Notions used to state the properties of directory matching *)

(** Two directories are members of one emitted group. *)
Definition together (groups : list (list string)) (d1 d2 : string) : Prop :=
  exists g, g ∈ groups /\ d1 ∈ g /\ d2 ∈ g.

Definition sample_duplicates : list (string * list string) :=
  [("X", ["/a/1"; "/a/2"; "/b/1"; "/b/2"; "/d/1"; "/e/1"; "/e/2"]);
   ("Y", ["/a/3"; "/b/3"; "/d/2"])].

(** ** Notions used to state the properties of selection *)

(** The claim that an empty keep-set is rejected, for one run of the prompt:
    the run ends with an exception and plans no member of the group. *)
Definition keep_set_rejected (members : list string)
    (run : result (list string * list string * list string)) : Prop :=
  match run with
  | Raise _ => True
  | Ret (files_to_delete, dirs_to_delete, _) =>
      forall m, m ∈ members -> (m ∉ files_to_delete) /\ (m ∉ dirs_to_delete)
  end.

(** ** Sample disk for the execution examples *)

Definition sample_flat_disk : gmap string Z :=
  <["/x/1.bin" := 4]> (<["/z/9.bin" := 7]> ∅).

(** ** Further notions: reading an ordered dictionary *)

(** [d[k]] on a [defaultdict(list)], without inserting: the list stored
    under [k], empty when the key is absent. *)
Fixpoint values_of {K V : Type} `{EqDecision K} (k : K) (d : list (K * list V))
    : list V :=
  match d with
  | [] => []
  | (k', vs) :: d' => if decide (k' = k) then vs else values_of k d'
  end.

(** The records of the list that have the size of [r]. *)
Definition same_size_records (file_list : list (string * Z * Z))
    (r : string * Z * Z) : list (string * Z * Z) :=
  filter (fun r' => size_of r' = size_of r) file_list.

(** Two files of different sizes. *)
Definition distinct_size_files : list (string * Z * Z) :=
  [("/x/1.bin", 4, 100); ("/u/5.bin", 5, 102)].

(** [os.path.getsize] on a disk where the file [/gone] is missing. *)
Definition getsize_but_gone (p : string) : result Z :=
  if bool_decide (p = "/gone") then Raise OSError else Ret 4.

(** ** Notions used to state the properties of the execution report *)

Definition sum_Z (l : list Z) : Z := foldr Z.add 0 l.

(** The item a printed line is about. *)
Definition line_item (l : report_line) : string :=
  match l with
  | FileDeleted p _ | FileWouldBeDeleted p _ | FileError p _
  | DirDeleted p _ | DirWouldBeDeleted p _ | DirError p _ => p
  end.

(** The bytes a printed line reports as freed. *)
Definition line_freed (l : report_line) : Z :=
  match l with
  | FileDeleted _ n | FileWouldBeDeleted _ n
  | DirDeleted _ n | DirWouldBeDeleted _ n => n
  | FileError _ _ | DirError _ _ => 0
  end.

Definition file_success (l : report_line) : bool :=
  match l with FileDeleted _ _ | FileWouldBeDeleted _ _ => true | _ => false end.

Definition dir_success (l : report_line) : bool :=
  match l with DirDeleted _ _ | DirWouldBeDeleted _ _ => true | _ => false end.

(** The size of a file when it can be read. *)
Definition readable_size {FS : Type} `{FileSystem FS} (d : FS) (p : string)
    : option Z :=
  match fs_getsize d p with
  | Ret n => Some n
  | Raise _ => None
  end.

(** Every item so far has its one line, in order, and the totals are those
    of the lines. *)
Definition report_invariant {FS : Type} (st : ExecState FS) (items : list string)
    : Prop :=
  line_item <$> printed st = items
  /\ freed_space st = sum_Z (line_freed <$> printed st)
  /\ deleted_files st = count file_success (printed st)
  /\ deleted_dirs st = count dir_success (printed st).

(** ** get_file_category *)

(** The dictionary [FILE_CATEGORIES], in its order; a set of extensions is
    the list of its elements. *)
Definition FILE_CATEGORIES : list (string * list string) :=
  [("images", [".jpg"; ".jpeg"; ".png"; ".gif"; ".bmp"; ".tiff"; ".webp"; ".raw";
               ".heic"; ".svg"; ".ico"; ".jpe"; ".tif"]);
   ("videos", [".mp4"; ".avi"; ".mov"; ".wmv"; ".flv"; ".mkv"; ".webm"; ".m4v";
               ".mpg"; ".mpeg"; ".3gp"; ".3gpp"; ".m2ts"; ".mts"; ".ts"; ".vob"]);
   ("audio", [".mp3"; ".wav"; ".flac"; ".aac"; ".ogg"; ".wma"; ".m4a"; ".amr";
              ".mka"; ".opus"]);
   ("documents", [".pdf"; ".doc"; ".docx"; ".txt"; ".rtf"; ".xls"; ".xlsx"; ".ppt";
                  ".pptx"; ".odt"; ".ods"; ".odp"; ".md"; ".tex"]);
   ("archives", [".zip"; ".rar"; ".7z"; ".tar"; ".gz"; ".bz2"; ".xz"; ".tgz";
                 ".tbz2"]);
   ("executables", [".exe"; ".msi"; ".bat"; ".cmd"; ".sh"; ".bin"; ".app"; ".apk";
                    ".deb"; ".rpm"]);
   ("scripts", [".py"; ".js"; ".java"; ".c"; ".cpp"; ".html"; ".css"; ".php"; ".rb";
                ".pl"; ".sh"; ".bash"; ".ps1"; ".vbs"]);
   ("data", [".db"; ".csv"; ".json"; ".xml"; ".sql"; ".sqlite"; ".sqlite3"; ".mdb";
             ".accdb"; ".ini"; ".cfg"]);
   ("system", [".dll"; ".sys"; ".inf"; ".cat"; ".drv"; ".ocx"; ".cpl"]);
   ("fonts", [".ttf"; ".otf"; ".woff"; ".woff2"; ".eot"; ".fon"]);
   ("design", [".psd"; ".ai"; ".sketch"; ".fig"; ".xd"; ".indd"]);
   ("other", [])].

(** The loop over [FILE_CATEGORIES.items()], on the lower-cased extension. *)
Fixpoint first_category (table : list (string * list string)) (lowered : string)
    : string :=
  match table with
  | [] => "other"
  | (category, extensions) :: rest =>
      if bool_decide (lowered ∈ extensions) then category
      else first_category rest lowered
  end.

Definition get_file_category (extension : string) : string :=
  first_category FILE_CATEGORIES (py_lower extension).

(** ** scan_directory *)

(** A [{'count': ..., 'size': ...}] dictionary. *)
Record Tally : Type := mkTally {
  tally_count : nat;
  tally_size : Z;
}.

(** [d[k]['count'] += 1; d[k]['size'] += file_size] on a
    [defaultdict(lambda: {'count': 0, 'size': 0})]. *)
Fixpoint bump {K : Type} `{EqDecision K} (k : K) (file_size : Z)
    (d : list (K * Tally)) : list (K * Tally) :=
  match d with
  | [] => [(k, mkTally 1 file_size)]
  | (k', t) :: d' =>
      if decide (k' = k)
      then (k', mkTally (S (tally_count t)) (tally_size t + file_size)) :: d'
      else (k', t) :: bump k file_size d'
  end.

Record Statistics : Type := mkStatistics {
  total_files : nat;
  total_size : Z;
  by_extension : list (string * Tally);
  by_directory : list (string * Tally);
  by_category : list (string * Tally);
}.

Section Scan.
(** [os.path.join] and the extension part of [os.path.splitext]. *)
Variable path_join : string -> string -> string.
Variable splitext_ext : string -> string.
(** [os.path.getsize] and [os.path.getmtime]; [None] when they raise
    [OSError]. *)
Variable getsize_opt : string -> option Z.
Variable getmtime_opt : string -> option Z.

(** The body of [for file in files], for one entry of the directory [root]. *)
Definition scan_file (root : string)
    (acc : list (string * Z * Z) * Statistics) (file : string)
    : list (string * Z * Z) * Statistics :=
  let '(all_files, stats) := acc in
  let full_path := path_join root file in
  match getsize_opt full_path with
  | None => acc
  | Some file_size =>
      match getmtime_opt full_path with
      | None => acc
      | Some mtime =>
          let ext := py_lower (splitext_ext file) in
          let category := get_file_category ext in
          (all_files ++ [(full_path, file_size, mtime)],
           mkStatistics (S (total_files stats)) (total_size stats + file_size)
             (bump ext file_size (by_extension stats))
             (bump root file_size (by_directory stats))
             (bump category file_size (by_category stats)))
      end
  end.

(** [walk] is what [os.walk(directory)] yields: each directory with the
    names of its files. *)
Definition scan_directory (walk : list (string * list string))
    : list (string * Z * Z) * Statistics :=
  fold_left
    (fun acc '(root, files) => fold_left (scan_file root) files acc)
    walk ([], mkStatistics 0 0 [] [] []).

(** The walked entries whose size and modification time can both be read,
    in the order of the walk: directory, name, size and time. *)
Definition stat_entry (entry : string * string) : option (string * string * Z * Z) :=
  match getsize_opt (path_join entry.1 entry.2),
        getmtime_opt (path_join entry.1 entry.2) with
  | Some file_size, Some mtime => Some (entry.1, entry.2, file_size, mtime)
  | _, _ => None
  end.

Definition scanned (walk : list (string * list string))
    : list (string * string * Z * Z) :=
  omap stat_entry (flat_map (fun rf => (fun file => (rf.1, file)) <$> rf.2) walk).

(** What a readable entry adds to the result of the scan. *)
Definition entry_record (e : string * string * Z * Z) : string * Z * Z :=
  let '(root, file, file_size, mtime) := e in (path_join root file, file_size, mtime).

Definition entry_extension (e : string * string * Z * Z) : string :=
  py_lower (splitext_ext e.1.1.2).

Definition entry_category (e : string * string * Z * Z) : string :=
  get_file_category (entry_extension e).

End Scan.

Definition entry_root (e : string * string * Z * Z) : string := e.1.1.1.
Definition entry_size (e : string * string * Z * Z) : Z := e.1.2.

(** The tally stored under a key, zero when the key is absent. *)
Fixpoint tally_of {K : Type} `{EqDecision K} (k : K) (d : list (K * Tally)) : Tally :=
  match d with
  | [] => mkTally 0 0
  | (k', t) :: d' => if decide (k' = k) then t else tally_of k d'
  end.

(** The sums of the counts and of the sizes held by a dictionary. *)
Definition files_counted {K : Type} (d : list (K * Tally)) : nat :=
  foldr (fun kt n => (tally_count kt.2 + n)%nat) 0%nat d.

Definition bytes_counted {K : Type} (d : list (K * Tally)) : Z :=
  foldr (fun kt z => tally_size kt.2 + z) 0 d.

(** The tally of the sizes in a list. *)
Definition tally_sizes (sizes : list Z) : Tally :=
  mkTally (length sizes) (sum_Z sizes).

(** The state of the scan after the readable entries [es]. *)
Definition scan_invariant (path_join : string -> string -> string)
    (splitext_ext : string -> string) (es : list (string * string * Z * Z))
    (acc : list (string * Z * Z) * Statistics) : Prop :=
  acc.1 = entry_record path_join <$> es
  /\ total_files acc.2 = length es
  /\ total_size acc.2 = sum_Z (entry_size <$> es)
  /\ (forall k, tally_of k (by_extension acc.2)
                = tally_sizes (entry_size <$>
                                 filter (fun e => entry_extension splitext_ext e = k) es))
  /\ (forall k, tally_of k (by_directory acc.2)
                = tally_sizes (entry_size <$> filter (fun e => entry_root e = k) es))
  /\ (forall k, tally_of k (by_category acc.2)
                = tally_sizes (entry_size <$>
                                 filter (fun e => entry_category splitext_ext e = k) es))
  /\ (NoDup (by_extension acc.2).*1 /\ NoDup (by_directory acc.2).*1
      /\ NoDup (by_category acc.2).*1)
  /\ (files_counted (by_extension acc.2) = length es
      /\ files_counted (by_directory acc.2) = length es
      /\ files_counted (by_category acc.2) = length es)
  /\ (bytes_counted (by_extension acc.2) = sum_Z (entry_size <$> es)
      /\ bytes_counted (by_directory acc.2) = sum_Z (entry_size <$> es)
      /\ bytes_counted (by_category acc.2) = sum_Z (entry_size <$> es)).

(** ** preview_deletion *)

Section Preview.
Context {FS : Type} `{FileSystem FS}.

(** [sum(os.path.getsize(f) for f in files_to_delete)]: the first size that
    cannot be read ends the sum with its exception. *)
Fixpoint sum_sizes (d : FS) (files : list string) : result Z :=
  match files with
  | [] => Ret 0
  | f :: rest =>
      match fs_getsize d f with
      | Raise e => Raise e
      | Ret n =>
          match sum_sizes d rest with
          | Raise e => Raise e
          | Ret total => Ret (n + total)
          end
      end
  end.

(** [total_dir_size]: the recorded sizes of the directories that are keys
    of [statistics['by_directory']]. *)
Definition recorded_dir_sizes (statistics : Statistics) (dirs_to_delete : list string)
    : Z :=
  fold_left
    (fun total_dir_size dir_path =>
       if bool_decide (dir_path ∈ (by_directory statistics).*1)
       then total_dir_size + tally_size (tally_of dir_path (by_directory statistics))
       else total_dir_size)
    dirs_to_delete 0.

(** [total_size_saved], the last figure the preview prints. *)
Definition preview_total (d : FS) (files_to_delete dirs_to_delete : list string)
    (statistics : Statistics) : result Z :=
  match (if bool_decide (files_to_delete = []) then Ret 0
         else sum_sizes d files_to_delete) with
  | Raise e => Raise e
  | Ret total_file_size =>
      Ret (total_file_size
           + (if bool_decide (dirs_to_delete = []) then 0
              else recorded_dir_sizes statistics dirs_to_delete))
  end.

Definition preview_deletion (d : FS) (files_to_delete dirs_to_delete : list string)
    (statistics : Statistics) : result bool :=
  match preview_total d files_to_delete dirs_to_delete statistics with
  | Raise e => Raise e
  | Ret _ =>
      if bool_decide (files_to_delete = []) && bool_decide (dirs_to_delete = [])
      then Ret false
      else Ret true
  end.

End Preview.

(** ** main *)

(** The parsed command line, apart from the directory and the cache file. *)
Record Args : Type := mkArgs {
  arg_workers : Z;
  arg_group_by_category : bool;
  arg_find_identical_dirs : bool;
  arg_interactive : bool;
  arg_dry_run : bool;
  arg_auto_first : bool;
}.

(** Truth value of a Python list or dictionary. *)
Definition nonempty {A : Type} (l : list A) : bool :=
  match l with [] => false | _ :: _ => true end.

(** [f"{format_size(size)}"]: evaluating [format_size] may raise, printing
    its result does not. *)
Definition print_plain (size : Z) : result unit :=
  match format_size size with
  | Raise e => Raise e
  | Ret _ => Ret tt
  end.

(** [f"{format_size(size):>10}"]: the [None] that [format_size] returns from
    1024 terabytes on accepts no format specification. *)
Definition print_aligned (size : Z) : result unit :=
  match format_size size with
  | Raise e => Raise e
  | Ret None => Raise TypeError
  | Ret (Some _) => Ret tt
  end.

(** A [for] loop whose body only prints. *)
Fixpoint for_each_print {A : Type} (body : A -> result unit) (l : list A)
    : result unit :=
  match l with
  | [] => Ret tt
  | x :: l' =>
      match body x with
      | Raise e => Raise e
      | Ret _ => for_each_print body l'
      end
  end.

(** [sorted(d.items())]: the keys of a dictionary are distinct, so the items
    are ordered by their keys. *)
Definition sorted_items (d : list (string * Tally)) : list (string * Tally) :=
  merge_sort (fun a b => String.le a.1 b.1) d.

(** [sorted(d.items(), key=lambda x: x[1]['size'], reverse=True)]: by
    decreasing size, items of equal size in their original order. *)
Fixpoint insert_by_size (x : string * Tally) (l : list (string * Tally))
    : list (string * Tally) :=
  match l with
  | [] => [x]
  | y :: l' =>
      if tally_size y.2 <? tally_size x.2 then x :: y :: l'
      else y :: insert_by_size x l'
  end.

Definition sorted_by_size (d : list (string * Tally)) : list (string * Tally) :=
  fold_left (fun acc x => insert_by_size x acc) d [].

(** Step 2 of [main], the summary: the total, the categories, the 15 largest
    extensions and the 10 largest directories. *)
Definition print_summary (statistics : Statistics) : result unit :=
  match print_plain (total_size statistics) with
  | Raise e => Raise e
  | Ret _ =>
      match for_each_print (fun item => print_aligned (tally_size item.2))
              (sorted_items (by_category statistics)) with
      | Raise e => Raise e
      | Ret _ =>
          match for_each_print (fun item => print_aligned (tally_size item.2))
                  (take 15 (sorted_by_size (by_extension statistics))) with
          | Raise e => Raise e
          | Ret _ =>
              for_each_print (fun item => print_plain (tally_size item.2))
                (take 10 (sorted_by_size (by_directory statistics)))
          end
      end
  end.

Section Main.
Context {D : Type} `{Hashlib D} {FS : Type} `{FileSystem FS}.
Variable path_join : string -> string -> string.
Variable splitext_ext : string -> string.
Variable dirname : string -> string.
Variable getmtime_opt : string -> option Z.
Variable read_blocks : string -> read_outcome.
(** [cache.save_cache()]: the disk once [pickle.dump] has written the
    dictionary to [args.cache_file], or the exception of [open] or of
    [pickle.dump]. *)
Variable save_cache : gmap string CacheEntry -> FS -> result FS.

(** [size = os.path.getsize(file_paths[0])] for every group, as the loops
    that print the duplicates do. *)
Fixpoint first_sizes (d : FS) (duplicates : list (string * list string)) : result unit :=
  match duplicates with
  | [] => Ret tt
  | (file_hash, file_paths) :: rest =>
      match first_item file_paths with
      | Raise e => Raise e
      | Ret first =>
          match fs_getsize d first with
          | Raise e => Raise e
          | Ret _ => first_sizes d rest
          end
      end
  end.

(** [main], between the parsing of the command line and the closing line.
    [source_is_dir] is [os.path.isdir(args.source_dir)], [walk] what
    [os.walk] yields there, [cache0] the cache loaded from
    [args.cache_file] ([None] when the option is empty), [d] the disk.  The
    scan reads sizes with [readable_size d]: a size that cannot be read is
    an [OSError] there.  [find_duplicates_parallel] ends by saving the cache
    when there is one, on every run; everything after it sees the disk
    [after_detection] this leaves.  The listings of the duplicates, with or
    without [--group-by-category], read the size of the first member of
    every group again and print; [first_sizes] stands for all of these
    reads.  The result is the disk after detection and the report of
    [execute_deletion] when it is called. *)
Definition main (args : Args) (source_is_dir : bool)
    (walk : list (string * list string)) (cache0 : option (gmap string CacheEntry))
    (d : FS) : Console (FS * option (ExecState FS)) :=
  if negb source_is_dir then ret (d, None)
  else
    let '(all_files, statistics) :=
      scan_directory path_join splitext_ext (readable_size d) getmtime_opt walk in
    _ <- lift (print_summary statistics) ;;
    let duplicates :=
      find_duplicates_parallel read_blocks all_files (arg_workers args) cache0 in
    (* if cache: cache.save_cache() *)
    after_detection <-
      lift (match cache (detect_run read_blocks all_files cache0) with
            | Some c => save_cache c d
            | None => Ret d
            end) ;;
    let identical_dirs :=
      if arg_find_identical_dirs args && nonempty duplicates
      then find_identical_directories dirname statistics duplicates
      else [] in
    _ <- lift (if nonempty duplicates then first_sizes after_detection duplicates
               else Ret tt) ;;
    if (arg_interactive args || arg_auto_first args)
       && (nonempty duplicates || nonempty identical_dirs)
    then
      plan <- (if arg_auto_first args
               then ret (auto_select_first_copy duplicates identical_dirs)
               else interactive_selection (fs_getsize after_detection) duplicates
                      identical_dirs statistics false) ;;
      go <- lift (preview_deletion after_detection plan.1 plan.2 statistics) ;;
      if go then
        if arg_dry_run args then
          ret (after_detection,
               Some (execute_deletion true after_detection plan.1 plan.2))
        else
          confirm <- input ;;
          if bool_decide (py_lower (py_strip confirm) = "y")
          then ret (after_detection,
                    Some (execute_deletion false after_detection plan.1 plan.2))
          else ret (after_detection, None)
      else ret (after_detection, None)
    else ret (after_detection, None).

End Main.

(** The disk when [main] ends. *)
Definition disk_after {FS : Type} (run : FS * option (ExecState FS)) : FS :=
  match run.2 with
  | Some report => disk report
  | None => run.1
  end.

(** ** Sample tree for the scan and [main] examples *)

Definition sample_join (root file : string) : string := root +:+ "/" +:+ file.

(** The extension of the sample names, which all end in [.bin] or [.TXT]. *)
Definition sample_ext (file : string) : string :=
  if bool_decide (file = "notes.TXT") then ".TXT" else ".bin".

Definition sample_walk : list (string * list string) :=
  [("/x", ["1.bin"; "notes.TXT"]); ("/y", ["1.bin"; "lost.bin"]); ("/z", ["1.bin"])].

Definition sample_tree : gmap string Z :=
  <["/x/1.bin" := 4]> (<["/x/notes.TXT" := 9]> (<["/y/1.bin" := 4]>
    (<["/z/1.bin" := 4]> ∅))).

Definition sample_mtime (p : string) : option Z := Some 100.

Definition sample_args (dry_run auto_first : bool) : Args :=
  mkArgs 8 false true (negb auto_first) dry_run auto_first.

(** Saving the cache on the sample disk: the file [hash_cache.pkl] is
    written, with a size that grows with the number of entries. *)
Definition sample_save (c : gmap string CacheEntry) (d : gmap string Z)
    : result (gmap string Z) :=
  Ret (<["hash_cache.pkl" := 64 + 80 * Z.of_nat (size c)]> d).

(** Statistics with one category holding 1024 terabytes. *)
Definition huge_statistics : Statistics :=
  mkStatistics 2 (1024 ^ 5 + 4)
    [(".bin", mkTally 2 (1024 ^ 5 + 4))]
    [("/x", mkTally 2 (1024 ^ 5 + 4))]
    [("executables", mkTally 2 (1024 ^ 5 + 4))].

(** * Properties *)

(** ** Ordered dictionaries *)

Section odict_facts.
Context {K V : Type} `{EqDecision K}.
Implicit Types (d : list (K * list V)) (k : K) (v : V).

Lemma mem_nil k v : ~ ODict.mem k v ([] : list (K * list V)).
Proof. intros (vs & Hin & _). by apply elem_of_nil in Hin. Qed.

Lemma mem_append k v k' v' d :
  ODict.mem k' v' (ODict.append k v d) <-> ODict.mem k' v' d \/ (k' = k /\ v' = v).
Proof.
  unfold ODict.mem. induction d as [|[k0 vs0] d IH]; simpl.
  - split.
    + intros (vs & Hin & Hv). apply list_elem_of_singleton in Hin.
      inversion Hin; subst. apply list_elem_of_singleton in Hv. by right.
    + intros [(vs & Hin & _)|[-> ->]]; [by apply elem_of_nil in Hin|].
      exists [v]. split; apply list_elem_of_singleton; done.
  - destruct (decide (k0 = k)) as [->|Hne].
    + split.
      * intros (vs & Hin & Hv). apply elem_of_cons in Hin as [Heq|Hin].
        -- inversion Heq; subst. apply elem_of_app in Hv as [Hv|Hv].
           ++ left. exists vs0. split; [left|done].
           ++ apply list_elem_of_singleton in Hv. by right.
        -- left. exists vs. split; [by right|done].
      * intros [(vs & Hin & Hv)|[-> ->]].
        -- apply elem_of_cons in Hin as [Heq|Hin].
           ++ inversion Heq; subst. exists (vs0 ++ [v]).
              split; [left|apply elem_of_app; by left].
           ++ exists vs. split; [by right|done].
        -- exists (vs0 ++ [v]). split; [left|].
           apply elem_of_app. right. by apply list_elem_of_singleton.
    + split.
      * intros (vs & Hin & Hv). apply elem_of_cons in Hin as [Heq|Hin].
        -- inversion Heq; subst. left. exists vs0. split; [left|done].
        -- destruct (proj1 IH) as [(vs1 & Hin1 & Hv1)|Heq]; [by eauto| |by right].
           left. exists vs1. split; [by right|done].
      * intros [(vs & Hin & Hv)|Heq].
        -- apply elem_of_cons in Hin as [Heq|Hin].
           ++ inversion Heq; subst. exists vs0. split; [left|done].
           ++ destruct (proj2 IH) as (vs1 & Hin1 & Hv1); [left; by eauto|].
              exists vs1. split; [by right|done].
        -- destruct (proj2 IH) as (vs1 & Hin1 & Hv1); [by right|].
           exists vs1. split; [by right|done].
Qed.

Lemma elem_of_more_than_one {W : Type} (d : list (K * list W)) (g : K * list W) :
  g ∈ ODict.more_than_one d <-> g ∈ d /\ (1 < length g.2)%nat.
Proof.
  unfold ODict.more_than_one. rewrite list_elem_of_filter, bool_decide_spec. tauto.
Qed.

End odict_facts.

Lemma count_cons {A : Type} (f : A -> bool) (x : A) (xs : list A) :
  count f (x :: xs) = ((if f x then 1 else 0) + count f xs)%nat.
Proof. unfold count. rewrite filter_cons. by destruct (f x). Qed.

Lemma count_ext {A : Type} (f g : A -> bool) (xs : list A) :
  (forall x, x ∈ xs -> f x = g x) -> count f xs = count g xs.
Proof.
  induction xs as [|x xs IH]; intros Hfg; [done|].
  rewrite !count_cons, IH, (Hfg x); [done|by left|].
  intros y Hy. apply Hfg. by right.
Qed.

(** ** Detection: the loop against a fixed cache *)

Section detection_facts.
Context {D : Type} `{Hashlib D}.
Variable read_blocks : string -> read_outcome.
Implicit Types (st : DetectState) (r : string * Z * Z) (l : list (string * Z * Z)).
Implicit Types (c : gmap string CacheEntry).

Lemma process_groups_flatten st groups :
  process_groups read_blocks st groups
  = process_records read_blocks st (flatten_groups groups).
Proof.
  unfold process_groups, process_records, flatten_groups.
  revert st. induction groups as [|[size fl] groups IH]; intros st; simpl; [done|].
  rewrite fold_left_app, IH. f_equal.
  clear. revert st. induction fl as [|[p m] fl IH]; intros st; simpl; [done|].
  by rewrite IH.
Qed.

Lemma process_record_classify st r :
  process_record read_blocks st r
  = apply_outcome (classify read_blocks (cache st) r) st r.
Proof.
  unfold process_record, process_file, classify, apply_outcome.
  destruct (cache st) as [c|] eqn:Hc; simpl.
  - destruct (HashCache.get c (path_of r) (size_of r) (mtime_of r)) as [h|].
    + destruct (truthy h); by rewrite ?Hc.
    + destruct (get_file_hash read_blocks (path_of r)); by rewrite ?Hc.
  - destruct (get_file_hash read_blocks (path_of r)); by rewrite ?Hc.
Qed.

Lemma get_set_ne c p s m h q s' m' :
  q <> p -> HashCache.get (HashCache.set c p s m h) q s' m' = HashCache.get c q s' m'.
Proof.
  intros Hne. unfold HashCache.get, HashCache.set.
  by rewrite lookup_insert_ne.
Qed.

Lemma classify_set_ne c p s m h r :
  path_of r <> p ->
  classify read_blocks (Some (HashCache.set c p s m h)) r
  = classify read_blocks (Some c) r.
Proof. intros Hne. unfold classify. by rewrite get_set_ne. Qed.

Lemma classify_apply_ne o st r r' :
  path_of r' <> path_of r ->
  classify read_blocks (cache (apply_outcome o st r)) r'
  = classify read_blocks (cache st) r'.
Proof.
  intros Hne. destruct o; simpl; try done.
  destruct (cache st) as [c|]; simpl; [|done].
  by apply classify_set_ne.
Qed.

Lemma process_records_replay (oc : option (gmap string CacheEntry)) l : forall st,
  NoDup (path_of <$> l) ->
  (forall r, r ∈ l -> classify read_blocks (cache st) r = classify read_blocks oc r) ->
  process_records read_blocks st l = replay read_blocks oc st l.
Proof.
  unfold process_records, replay.
  induction l as [|r l IH]; intros st Hnd Hcl; simpl; [done|].
  apply NoDup_cons in Hnd as [Hnotin Hnd].
  rewrite process_record_classify, (Hcl r) by left.
  apply IH; [done|]. intros r' Hr'.
  rewrite classify_apply_ne; [apply Hcl; by right|].
  intros Heq. apply Hnotin. rewrite <- Heq. by apply list_elem_of_fmap_2.
Qed.

Lemma hashes_map_replay oc l : forall st,
  hashes_map (replay read_blocks oc st l)
  = fold_left (fun hm r => add_fingerprint (classify read_blocks oc r) (path_of r) hm)
      l (hashes_map st).
Proof.
  unfold replay. induction l as [|r l IH]; intros st; simpl; [done|].
  rewrite IH. f_equal. by destruct (classify read_blocks oc r).
Qed.

Lemma digest_calls_replay oc l : forall st,
  digest_calls (replay read_blocks oc st l)
  = (digest_calls st + count (fun r => attempts (classify read_blocks oc r)) l)%nat.
Proof.
  unfold replay. induction l as [|r l IH]; intros st; simpl.
  - unfold count. simpl. lia.
  - rewrite IH, count_cons. destruct (classify read_blocks oc r); simpl; lia.
Qed.

Lemma digest_failures_replay oc l : forall st,
  digest_failures (replay read_blocks oc st l)
  = (digest_failures st + count (fun r => fails (classify read_blocks oc r)) l)%nat.
Proof.
  unfold replay. induction l as [|r l IH]; intros st; simpl.
  - unfold count. simpl. lia.
  - rewrite IH, count_cons. destruct (classify read_blocks oc r); simpl; lia.
Qed.

Lemma mem_fold_fingerprints (f : string * Z * Z -> outcome) l : forall hm h p,
  ODict.mem h p (fold_left (fun hm r => add_fingerprint (f r) (path_of r) hm) l hm)
  <-> ODict.mem h p hm
      \/ exists r, r ∈ l /\ path_of r = p /\ fingerprint_of (f r) = Some h.
Proof.
  induction l as [|r l IH]; intros hm h p; simpl.
  - split; [by left|]. intros [?|(r & Hr & _)]; [done|]. by apply elem_of_nil in Hr.
  - rewrite IH. unfold add_fingerprint at 1.
    destruct (fingerprint_of (f r)) as [h'|] eqn:Hf.
    + rewrite mem_append. split.
      * intros [[Hm|[-> ->]]|(r' & Hr' & Hp & Hh)]; [by left| |].
        -- right. exists r. split; [left|done].
        -- right. exists r'. split; [by right|done].
      * intros [Hm|(r' & Hr' & Hp & Hh)]; [by left; left|].
        apply elem_of_cons in Hr' as [->|Hr'].
        -- left. right. split; congruence.
        -- right. by exists r'.
    + split.
      * intros [Hm|(r' & Hr' & Hp & Hh)]; [by left|].
        right. exists r'. split; [by right|done].
      * intros [Hm|(r' & Hr' & Hp & Hh)]; [by left|].
        apply elem_of_cons in Hr' as [->|Hr']; [congruence|].
        right. by exists r'.
Qed.

Lemma cache_replay_None oc l : forall st,
  cache st = None -> cache (replay read_blocks oc st l) = None.
Proof.
  unfold replay. induction l as [|r l IH]; intros st Hc; simpl; [done|].
  apply IH. destruct (classify read_blocks oc r); simpl; by rewrite ?Hc.
Qed.

Lemma cache_replay_Some oc l : forall st c,
  cache st = Some c ->
  exists c', cache (replay read_blocks oc st l) = Some c'
    /\ (forall p, p ∉ path_of <$> l -> c' !! p = c !! p)
    /\ (NoDup (path_of <$> l) -> forall r, r ∈ l ->
         c' !! path_of r
         = match classify read_blocks oc r with
           | Digested h => Some (mkEntry (size_of r) (mtime_of r) h)
           | _ => c !! path_of r
           end).
Proof.
  unfold replay. induction l as [|r l IH]; intros st c Hc; simpl.
  - exists c. split; [done|]. split; [done|]. intros _ r Hr. by apply elem_of_nil in Hr.
  - set (st' := apply_outcome (classify read_blocks oc r) st r).
    assert (exists c1, cache st' = Some c1
              /\ (forall p, p <> path_of r -> c1 !! p = c !! p)
              /\ c1 !! path_of r
                 = match classify read_blocks oc r with
                   | Digested h => Some (mkEntry (size_of r) (mtime_of r) h)
                   | _ => c !! path_of r
                   end) as (c1 & Hc1 & Hother & Hself).
    { unfold st'. destruct (classify read_blocks oc r); simpl; rewrite Hc; simpl;
        eexists; (split; [done|]); try (split; done).
      unfold HashCache.set. split.
      - intros p Hp. by rewrite lookup_insert_ne.
      - by rewrite lookup_insert_eq. }
    destruct (IH st' c1 Hc1) as (c' & Hc' & Hout & Hin).
    exists c'. split; [done|]. split.
    + intros p Hp. change (p ∉ path_of r :: (path_of <$> l)) in Hp. apply not_elem_of_cons in Hp as [Hp1 Hp2].
      rewrite Hout by done. by apply Hother.
    + intros Hnd r' Hr'. change (NoDup (path_of r :: (path_of <$> l))) in Hnd. apply NoDup_cons in Hnd as [Hnotin Hnd].
      apply elem_of_cons in Hr' as [->|Hr'].
      * rewrite Hout by done. done.
      * rewrite (Hin Hnd r' Hr'). rewrite Hother; [done|].
        intros Heq. apply Hnotin. rewrite <- Heq. by apply list_elem_of_fmap_2.
Qed.

End detection_facts.

(** ** The candidate records are records of the input *)

Lemma flatten_groups_cons g gs :
  flatten_groups (g :: gs)
  = ((fun e : string * Z => (e.1, g.1, e.2)) <$> g.2) ++ flatten_groups gs.
Proof. done. Qed.

Lemma flatten_groups_append s p m sg :
  flatten_groups (ODict.append s (p, m) sg) ≡ₚ flatten_groups sg ++ [(p, s, m)].
Proof.
  induction sg as [|[s' es] sg IH]; simpl; [done|].
  destruct (decide (s' = s)) as [->|Hne].
  - unfold flatten_groups. simpl. rewrite fmap_app. simpl.
    rewrite <- !app_assoc. apply Permutation_app_head, Permutation_app_comm.
  - change (flatten_groups ((s', es) :: ODict.append s (p, m) sg))
      with (((fun e : string * Z => (e.1, s', e.2)) <$> es)
              ++ flatten_groups (ODict.append s (p, m) sg)).
    rewrite IH. unfold flatten_groups. simpl. by rewrite app_assoc.
Qed.

Lemma flatten_size_groups_aux fl : forall sg,
  flatten_groups
    (fold_left (fun sg '(file_path, file_size, mtime) =>
                  ODict.append file_size (file_path, mtime) sg) fl sg)
  ≡ₚ flatten_groups sg ++ fl.
Proof.
  induction fl as [|[[p s] m] fl IH]; intros sg; simpl.
  - by rewrite app_nil_r.
  - rewrite IH, flatten_groups_append, <- app_assoc. done.
Qed.

Lemma flatten_size_groups fl : flatten_groups (size_groups fl) ≡ₚ fl.
Proof. unfold size_groups. by rewrite flatten_size_groups_aux. Qed.

Lemma flatten_more_than_one groups :
  flatten_groups (ODict.more_than_one groups) ⊆+ flatten_groups groups.
Proof.
  unfold ODict.more_than_one.
  induction groups as [|g groups IH]; [done|].
  rewrite filter_cons. destruct (decide _); rewrite !flatten_groups_cons.
  - by apply submseteq_skips_l.
  - by apply submseteq_inserts_l.
Qed.

Lemma submseteq_NoDup {A : Type} (l k : list A) : l ⊆+ k -> NoDup k -> NoDup l.
Proof.
  intros Hsub Hnd. apply submseteq_Permutation in Hsub as [k' Hk'].
  rewrite Hk' in Hnd. by apply NoDup_app in Hnd as [? _].
Qed.

Section candidates.
Context {D : Type} `{Hashlib D}.
Variable read_blocks : string -> read_outcome.

Lemma candidate_records_submseteq fl : candidate_records fl ⊆+ fl.
Proof.
  unfold candidate_records, candidate_groups.
  rewrite <- (flatten_size_groups fl) at 2. apply flatten_more_than_one.
Qed.

Lemma candidate_records_elem fl r : r ∈ candidate_records fl -> r ∈ fl.
Proof. intros Hr. by eapply elem_of_submseteq, candidate_records_submseteq. Qed.

Lemma candidate_records_NoDup fl :
  NoDup (path_of <$> fl) -> NoDup (path_of <$> candidate_records fl).
Proof.
  intros Hnd. eapply submseteq_NoDup; [|done].
  apply fmap_submseteq, candidate_records_submseteq.
Qed.

Lemma detect_run_replay fl oc :
  NoDup (path_of <$> fl) ->
  detect_run read_blocks fl oc
  = replay read_blocks oc (initial_state oc) (candidate_records fl).
Proof.
  intros Hnd. unfold detect_run. rewrite process_groups_flatten.
  apply process_records_replay; [by apply candidate_records_NoDup|done].
Qed.
End candidates.

Lemma NoDup_fmap_eq {A B : Type} (f : A -> B) (l : list A) x y :
  NoDup (f <$> l) -> x ∈ l -> y ∈ l -> f x = f y -> x = y.
Proof.
  induction l as [|a l IH]; intros Hnd Hx Hy Hf; [by apply elem_of_nil in Hx|].
  change (NoDup (f a :: (f <$> l))) in Hnd. apply NoDup_cons in Hnd as [Hnotin Hnd].
  apply elem_of_cons in Hx as [->|Hx]; apply elem_of_cons in Hy as [->|Hy].
  - done.
  - exfalso. apply Hnotin. rewrite Hf. by apply list_elem_of_fmap_2.
  - exfalso. apply Hnotin. rewrite <- Hf. by apply list_elem_of_fmap_2.
  - by apply IH.
Qed.

(** ** Detection: the claims *)

Section detection_claims.
Context {D : Type} `{Hashlib D}.
Variable read_blocks : string -> read_outcome.
Implicit Types (fl : list (string * Z * Z)) (r : string * Z * Z).
Implicit Types (oc : option (gmap string CacheEntry)) (c : gmap string CacheEntry).

(** Every member of an emitted group is the path of a candidate record that
    resolved to the fingerprint of the group. *)
Lemma grouped_resolves fl w oc g p :
  NoDup (path_of <$> fl) ->
  g ∈ find_duplicates_parallel read_blocks fl w oc -> p ∈ g.2 ->
  exists r, r ∈ candidate_records fl /\ path_of r = p
            /\ resolve read_blocks oc r = Some g.1.
Proof.
  intros Hnd Hg Hp. unfold find_duplicates_parallel in Hg.
  apply elem_of_more_than_one in Hg as [Hg _].
  rewrite detect_run_replay, hashes_map_replay in Hg by done.
  assert (ODict.mem g.1 p
            (fold_left (fun hm r => add_fingerprint (classify read_blocks oc r) (path_of r) hm)
               (candidate_records fl) (hashes_map (initial_state oc)))) as Hmem.
  { exists g.2. split; [|done]. by destruct g. }
  apply mem_fold_fingerprints in Hmem as [Hmem|(r & Hr & Hpath & Hfp)].
  - by apply mem_nil in Hmem.
  - by exists r.
Qed.

Lemma get_lookup_eq c c' p s m :
  c' !! p = c !! p -> HashCache.get c' p s m = HashCache.get c p s m.
Proof. intros Heq. unfold HashCache.get. by rewrite Heq. Qed.

Lemma get_Some_iff c p s m h :
  HashCache.get c p s m = Some h
  <-> exists e, c !! p = Some e /\ ce_size e = s /\ ce_mtime e = m /\ ce_hash e = h.
Proof.
  unfold HashCache.get. destruct (c !! p) as [e|]; simpl.
  - destruct (bool_decide (ce_size e = s)) eqn:Hs;
      destruct (bool_decide (ce_mtime e = m)) eqn:Hm; simpl;
      try apply bool_decide_eq_true in Hs; try apply bool_decide_eq_true in Hm;
      try apply bool_decide_eq_false in Hs; try apply bool_decide_eq_false in Hm.
    + split; [intros [= <-]; by exists e|]. by intros (e' & [= <-] & _ & _ & ->).
    + split; [done|]. intros (e' & [= <-] & _ & ? & _). done.
    + split; [done|]. intros (e' & [= <-] & ? & _ & _). done.
    + split; [done|]. intros (e' & [= <-] & ? & _ & _). done.
  - split; [done|]. by intros (e & ? & _).
Qed.

Lemma get_None_iff c p s m :
  HashCache.get c p s m = None
  <-> forall e, c !! p = Some e -> ~ (ce_size e = s /\ ce_mtime e = m).
Proof.
  split.
  - intros Hget e He [Hs Hm].
    assert (HashCache.get c p s m = Some (ce_hash e)) as Hsome.
    { apply get_Some_iff. by exists e. }
    congruence.
  - intros Hno. destruct (HashCache.get c p s m) as [h|] eqn:Hget; [|done].
    apply get_Some_iff in Hget as (e & He & Hs & Hm & _). by destruct (Hno e He).
Qed.

(** C3, as amended.  [HashCache.get] returns the stored fingerprint exactly
    when the path has an entry whose size and modification time both equal
    the ones asked for, and returns [None] exactly when there is no such
    entry.  In that case the loop body calls the digester once.  When the
    file can be read, the entry of the path is overwritten with the size and
    modification time of the record and the digest of the blocks read, the
    other entries staying as they were; when it cannot, the cache is left as
    it was, stale entry included, and the failure is counted. *)
Theorem cache_lookup_and_refresh c file_path file_size mtime :
  (forall h,
     HashCache.get c file_path file_size mtime = Some h
     <-> exists e, c !! file_path = Some e
                   /\ ce_size e = file_size /\ ce_mtime e = mtime /\ ce_hash e = h)
  /\ (HashCache.get c file_path file_size mtime = None
      <-> forall e, c !! file_path = Some e ->
                    ~ (ce_size e = file_size /\ ce_mtime e = mtime))
  /\ (forall st,
        cache st = Some c ->
        HashCache.get c file_path file_size mtime = None ->
        let st' := process_file read_blocks file_size st (file_path, mtime) in
        digest_calls st' = S (digest_calls st)
        /\ (forall blocks,
              read_blocks file_path = ReadOk blocks ->
              cache st'
              = Some (<[file_path := mkEntry file_size mtime (digest_of blocks)]> c)
              /\ (forall c', cache st' = Some c' ->
                    c' !! file_path = Some (mkEntry file_size mtime (digest_of blocks))
                    /\ forall q, q <> file_path -> c' !! q = c !! q)
              /\ digest_failures st' = digest_failures st)
        /\ ((forall blocks, read_blocks file_path <> ReadOk blocks) ->
            cache st' = Some c
            /\ digest_failures st' = S (digest_failures st)
            /\ hashes_map st' = hashes_map st)).
Proof.
  split; [intros h; apply get_Some_iff|]. split; [apply get_None_iff|].
  intros st Hc Hget. unfold process_file, get_file_hash. rewrite Hc, Hget.
  destruct (read_blocks file_path) as [|before|blocks] eqn:Hread; simpl.
  - split; [done|]. split; [by intros blocks [=]|]. done.
  - split; [done|]. split; [by intros blocks [=]|]. done.
  - split; [done|]. split.
    + intros blocks' [= <-]. split; [done|]. split; [|done].
      intros c' [= <-]. unfold HashCache.set. split.
      * by rewrite lookup_insert_eq.
      * intros q Hq. by rewrite lookup_insert_ne.
    + intros Hno. by destruct (Hno blocks).
Qed.



(** C9. The duplicate groups, with the membership and member order of
    every group, are the same for any two worker counts. *)
Theorem worker_count_is_irrelevant fl (w1 w2 : Z) oc :
  find_duplicates_parallel read_blocks fl w1 oc
  = find_duplicates_parallel read_blocks fl w2 oc.
Proof. reflexivity. Qed.

Lemma replay_app oc st l1 l2 :
  replay read_blocks oc st (l1 ++ l2)
  = replay read_blocks oc (replay read_blocks oc st l1) l2.
Proof. unfold replay. by rewrite fold_left_app. Qed.

Lemma replay_frame oc l : forall st st',
  hashes_map st = hashes_map st' -> cache st = cache st' ->
  from_cache st = from_cache st' ->
  hashes_map (replay read_blocks oc st l) = hashes_map (replay read_blocks oc st' l)
  /\ cache (replay read_blocks oc st l) = cache (replay read_blocks oc st' l)
  /\ from_cache (replay read_blocks oc st l) = from_cache (replay read_blocks oc st' l).
Proof.
  unfold replay. induction l as [|r l IH]; intros st st' Hh Hc Hf; simpl; [done|].
  apply IH; destruct (classify read_blocks oc r); simpl; congruence.
Qed.

Lemma processed_replay oc l : forall st,
  processed (replay read_blocks oc st l) = (processed st + length l)%nat.
Proof.
  unfold replay. induction l as [|r l IH]; intros st; simpl; [lia|].
  rewrite IH. destruct (classify read_blocks oc r); simpl; lia.
Qed.

Lemma classify_DigestFailed oc r :
  get_file_hash read_blocks (path_of r) = None ->
  (forall c, oc = Some c ->
     HashCache.get c (path_of r) (size_of r) (mtime_of r) = None) ->
  classify read_blocks oc r = DigestFailed.
Proof.
  intros Hd Hg. unfold classify. destruct oc as [c|].
  - by rewrite (Hg c eq_refl), Hd.
  - by rewrite Hd.
Qed.

(** C7. A record whose digest is attempted (no cache, or no valid entry for
    it) and fails gets no fingerprint, is in no duplicate group, and leaves
    its cache entry as it was; the pass goes on, and ends with the groups,
    the cache and the hit count it would end with had the record not been
    among the candidates. *)
Theorem failed_digest_is_skipped fl w oc r :
  NoDup (path_of <$> fl) ->
  r ∈ fl ->
  get_file_hash read_blocks (path_of r) = None ->
  (forall c, oc = Some c ->
     HashCache.get c (path_of r) (size_of r) (mtime_of r) = None) ->
  resolve read_blocks oc r = None
  /\ ~ grouped (find_duplicates_parallel read_blocks fl w oc) (path_of r)
  /\ (forall c, oc = Some c ->
        exists c', cache (detect_run read_blocks fl oc) = Some c'
                   /\ c' !! path_of r = c !! path_of r)
  /\ (forall pre post,
        candidate_records fl = pre ++ r :: post ->
        let st := detect_run read_blocks fl oc in
        let st' := process_records read_blocks (initial_state oc) (pre ++ post) in
        hashes_map st = hashes_map st'
        /\ cache st = cache st'
        /\ from_cache st = from_cache st'
        /\ processed st = S (processed st')
        /\ find_duplicates_parallel read_blocks fl w oc
           = ODict.more_than_one (hashes_map st')).
Proof.
  intros Hnd Hr Hdigest Hmiss.
  pose proof (classify_DigestFailed oc r Hdigest Hmiss) as Hcl.
  pose proof (candidate_records_NoDup fl Hnd) as Hndc.
  split; [unfold resolve; by rewrite Hcl|]. split; [|split].
  - intros (g & Hg & Hp).
    destruct (grouped_resolves fl w oc g _ Hnd Hg Hp) as (r' & Hr' & Hpath & Hres).
    apply candidate_records_elem in Hr'.
    assert (r' = r) as -> by (by eapply (NoDup_fmap_eq path_of fl)).
    unfold resolve in Hres. by rewrite Hcl in Hres.
  - intros c ->. rewrite detect_run_replay by done.
    destruct (cache_replay_Some read_blocks (Some c) (candidate_records fl)
                (initial_state (Some c)) c eq_refl) as (c' & Hc' & Hout & Hin).
    exists c'. split; [done|].
    destruct (decide (path_of r ∈ path_of <$> candidate_records fl)) as [Hel|Hnel].
    + apply list_elem_of_fmap in Hel as (r' & Hpath & Hr').
      assert (r' = r) as ->.
      { eapply (NoDup_fmap_eq path_of fl); eauto using candidate_records_elem. }
      rewrite (Hin Hndc r Hr'). by rewrite Hcl.
    + by apply Hout.
  - intros pre post Hsplit st st'.
    assert (NoDup (path_of <$> pre ++ post)) as Hndpp.
    { rewrite Hsplit in Hndc. rewrite fmap_app in *. simpl in Hndc.
      apply NoDup_app in Hndc as (Hpre & Hdisj & Hpost).
      apply NoDup_cons in Hpost as [_ Hpost]. apply NoDup_app. split; [done|].
      split; [|done]. intros x Hx Hx'. apply (Hdisj x Hx). by right. }
    assert (st = replay read_blocks oc (initial_state oc) (pre ++ r :: post)) as Hst.
    { unfold st. rewrite detect_run_replay by done. by rewrite Hsplit. }
    assert (st' = replay read_blocks oc (initial_state oc) (pre ++ post)) as Hst'.
    { unfold st'. by apply process_records_replay. }
    assert (hashes_map st = hashes_map st' /\ cache st = cache st'
            /\ from_cache st = from_cache st') as (Hh & Hc & Hf).
    { rewrite Hst, Hst', !replay_app.
      change (replay read_blocks oc ?s (r :: post))
        with (replay read_blocks oc (apply_outcome (classify read_blocks oc r) s r) post).
      rewrite Hcl. by apply replay_frame. }
    split; [done|]. split; [done|]. split; [done|]. split.
    + rewrite Hst, Hst', !processed_replay, !length_app. simpl. lia.
    + unfold find_duplicates_parallel. fold st. by rewrite Hh.
Qed.

Lemma fold_left_ext_in {A B : Type} (f g : A -> B -> A) (xs : list B) : forall a,
  (forall a x, x ∈ xs -> f a x = g a x) -> fold_left f xs a = fold_left g xs a.
Proof.
  induction xs as [|x xs IH]; intros a Hfg; simpl; [done|].
  rewrite (Hfg a x) by left. apply IH. intros a' y Hy. apply Hfg. by right.
Qed.

Lemma get_file_hash_truthy p h :
  (forall d : D, md5_hexdigest d <> EmptyString) ->
  get_file_hash read_blocks p = Some h -> truthy h = true.
Proof.
  intros Hne. unfold get_file_hash, truthy.
  destruct (read_blocks p); intros [= <-].
  rewrite bool_decide_eq_false_2; [done|apply Hne].
Qed.

(** How a record fares in the second run, from how it fared in the first. *)
Lemma classify_second_run fl c c1 r :
  (forall d : D, md5_hexdigest d <> EmptyString) ->
  NoDup (path_of <$> fl) ->
  cache (detect_run read_blocks fl (Some c)) = Some c1 ->
  r ∈ candidate_records fl ->
  classify read_blocks (Some c1) r
  = match classify read_blocks (Some c) r with
    | Digested h => CacheHit h
    | o => o
    end.
Proof.
  intros Hhex Hnd Hc1 Hr.
  rewrite detect_run_replay in Hc1 by done.
  destruct (cache_replay_Some read_blocks (Some c) (candidate_records fl)
              (initial_state (Some c)) c eq_refl) as (c' & Hc' & _ & Hin).
  rewrite Hc1 in Hc'. injection Hc' as <-.
  specialize (Hin (candidate_records_NoDup fl Hnd) r Hr).
  unfold classify in *.
  destruct (HashCache.get c (path_of r) (size_of r) (mtime_of r)) as [h|] eqn:Hget.
  - assert (c1 !! path_of r = c !! path_of r) as Heq by (by destruct (truthy h)).
    rewrite (get_lookup_eq _ _ _ _ _ Heq), Hget. by destruct (truthy h).
  - destruct (get_file_hash read_blocks (path_of r)) as [h|] eqn:Hd.
    + assert (HashCache.get c1 (path_of r) (size_of r) (mtime_of r) = Some h) as ->.
      { apply get_Some_iff. eexists. split; [done|]. done. }
      by rewrite (get_file_hash_truthy _ _ Hhex Hd).
    + by rewrite (get_lookup_eq _ _ _ _ _ Hin), Hget.
Qed.

(** C4, as amended.  On an unchanged file set, with real (non-empty)
    digests, the second run over the cache left by the first yields the same
    duplicate groups, and calls the digester exactly for the records whose
    digest failed in the first run; it makes no call when every candidate
    file can be read. *)
Theorem second_run_repeats_only_failed_digests fl w c :
  NoDup (path_of <$> fl) ->
  (forall d : D, md5_hexdigest d <> EmptyString) ->
  let first := detect_run read_blocks fl (Some c) in
  find_duplicates_parallel read_blocks fl w (cache first)
  = find_duplicates_parallel read_blocks fl w (Some c)
  /\ digest_calls (second_run read_blocks fl (Some c)) = digest_failures first
  /\ ((forall r, r ∈ candidate_records fl ->
         get_file_hash read_blocks (path_of r) <> None) ->
      digest_calls (second_run read_blocks fl (Some c)) = 0%nat).
Proof.
  intros Hnd Hhex first.
  destruct (cache_replay_Some read_blocks (Some c) (candidate_records fl)
              (initial_state (Some c)) c eq_refl) as (c1 & Hc1 & _).
  rewrite <- detect_run_replay in Hc1 by done.
  pose proof (fun r => classify_second_run fl c c1 r Hhex Hnd Hc1) as Hcl.
  assert (digest_calls (second_run read_blocks fl (Some c)) = digest_failures first)
    as Hcalls.
  { unfold second_run, first. rewrite Hc1.
    rewrite !detect_run_replay, digest_calls_replay, digest_failures_replay by done.
    unfold initial_state. cbn [digest_calls digest_failures Nat.add]. apply count_ext. intros r Hr. rewrite (Hcl r Hr).
    by destruct (classify read_blocks (Some c) r). }
  split; [|split; [done|]].
  - unfold find_duplicates_parallel, first. rewrite Hc1.
    rewrite !detect_run_replay, !hashes_map_replay by done. f_equal.
    apply fold_left_ext_in. intros hm r Hr. rewrite (Hcl r Hr).
    by destruct (classify read_blocks (Some c) r).
  - intros Hread. rewrite Hcalls. unfold first.
    rewrite detect_run_replay, digest_failures_replay by done.
    unfold initial_state. cbn [digest_failures Nat.add].
    rewrite (count_ext _ (fun _ => false)).
    { unfold count. clear. by induction (candidate_records fl). }
    intros r Hr. specialize (Hread r Hr). unfold classify.
    destruct (HashCache.get c (path_of r) (size_of r) (mtime_of r)) as [h|];
      [by destruct (truthy h)|].
    by destruct (get_file_hash read_blocks (path_of r)).
Qed.

End detection_claims.

(** ** Detection: examples *)

(** The scenario of the specification: two files with the content AAAA form
    the one group; the file with BBBB and the unreadable one are in none. *)
Example detection_scenario :
  find_duplicates_parallel sample_disk
    [("/x/1.bin", 4, 100); ("/y/1.bin", 4, 101); ("/z/1.bin", 4, 103);
     ("/w/2.bin", 4, 104)] 8 None
  = [("#AAAA", ["/x/1.bin"; "/y/1.bin"])].
Proof. vm_compute. reflexivity. Qed.


(** The same without a cache, when a file scanned with 5 bytes has been
    rewritten before it is read. *)
Example size_invariant_stale_record :
  find_duplicates_parallel rewritten_disk two_sizes_files 8 None
  = [("#AAAA", ["/a/1.bin"; "/b/2.bin"])].
Proof. vm_compute. reflexivity. Qed.


(** C3, counterexample: the cache holds an older entry for a file whose read
    fails; the lookup misses, the digest is attempted, and the entry is not
    overwritten. *)
Lemma refresh_counterexample :
  HashCache.get stale_cache "/w/2.bin" 4 104 = None
  /\ cache (process_file sample_disk 4 (initial_state (Some stale_cache))
             ("/w/2.bin", 104)) = Some stale_cache
  /\ stale_cache !! "/w/2.bin" = Some (mkEntry 4 99 "#OLD")
  /\ ~ mismatch_is_refreshed sample_disk stale_cache "/w/2.bin" 4 104.
Proof.
  assert (cache (process_file sample_disk 4 (initial_state (Some stale_cache))
                   ("/w/2.bin", 104)) = Some stale_cache) as Hsame
    by (vm_compute; reflexivity).
  split; [vm_compute; reflexivity|]. split; [exact Hsame|].
  split; [vm_compute; reflexivity|].
  intros Hclaim. destruct Hclaim as (h & c' & Hc' & Hentry); [vm_compute; reflexivity|].
  rewrite Hsame in Hc'. injection Hc' as <-.
  vm_compute in Hentry. discriminate Hentry.
Qed.

Lemma cache_lookup_and_refresh_witness :
  HashCache.get shared_fingerprint_cache "/a/1.bin" 4 100
    = Some "900150983cd24fb0d6963f7d28e17f72"
  /\ HashCache.get shared_fingerprint_cache "/a/1.bin" 4 101 = None
  /\ cache (process_file sample_disk 4 (initial_state (Some stale_cache))
             ("/x/1.bin", 100))
     = Some (<["/x/1.bin" := mkEntry 4 100 "#AAAA"]> stale_cache)
  /\ cache (process_file sample_disk 4 (initial_state (Some stale_cache))
             ("/w/2.bin", 104))
     = Some stale_cache.
Proof.
  destruct (cache_lookup_and_refresh sample_disk shared_fingerprint_cache
              "/a/1.bin" 4 100) as (Hhit & _ & _).
  destruct (cache_lookup_and_refresh sample_disk shared_fingerprint_cache
              "/a/1.bin" 4 101) as (_ & Hmiss & _).
  destruct (cache_lookup_and_refresh sample_disk stale_cache
              "/x/1.bin" 4 100) as (_ & _ & Hfresh).
  destruct (cache_lookup_and_refresh sample_disk stale_cache
              "/w/2.bin" 4 104) as (_ & _ & Hfailed).
  split; [|split; [|split]].
  - apply Hhit. eexists. split; [vm_compute; reflexivity|]. done.
  - apply Hmiss. intros e He. vm_compute in He. injection He as <-.
    simpl. intros [_ Hm]. discriminate Hm.
  - destruct (Hfresh (initial_state (Some stale_cache))) as (_ & Hread & _);
      [reflexivity|vm_compute; reflexivity|].
    destruct (Hread [bytes_of "AAAA"]) as (Hcache & _); [vm_compute; reflexivity|].
    exact Hcache.
  - destruct (Hfailed (initial_state (Some stale_cache))) as (_ & _ & Hunread);
      [reflexivity|vm_compute; reflexivity|].
    destruct Hunread as (Hcache & _); [|exact Hcache].
    intros blocks. vm_compute. discriminate.
Defined.

(** C4, counterexample: a candidate file that cannot be read is digested
    again by the second run. *)
Lemma idempotence_counterexample :
  digest_calls (second_run sample_disk sample_files (Some ∅)) = 1%nat
  /\ ~ second_run_is_free sample_disk sample_files (Some ∅).
Proof.
  assert (digest_calls (second_run sample_disk sample_files (Some ∅)) = 1%nat) as Heq
    by (vm_compute; reflexivity).
  split; [exact Heq|]. intros [_ Hzero]. rewrite Heq in Hzero. discriminate Hzero.
Qed.

Lemma second_run_repeats_only_failed_digests_witness :
  find_duplicates_parallel sample_disk sample_files 8
    (cache (detect_run sample_disk sample_files (Some ∅)))
  = find_duplicates_parallel sample_disk sample_files 8 (Some ∅)
  /\ digest_calls (second_run sample_disk sample_files (Some ∅))
     = digest_failures (detect_run sample_disk sample_files (Some ∅)).
Proof.
  destruct (second_run_repeats_only_failed_digests sample_disk sample_files 8 ∅)
    as (Hsame & Hcalls & _).
  - by apply (bool_decide_unpack _).
  - intros d. simpl. discriminate.
  - split; [exact Hsame|exact Hcalls].
Defined.

Lemma failed_digest_is_skipped_witness :
  resolve sample_disk (Some ∅) ("/w/2.bin", 4, 104) = None
  /\ ~ grouped (find_duplicates_parallel sample_disk sample_files 8 (Some ∅))
         "/w/2.bin".
Proof.
  destruct (failed_digest_is_skipped sample_disk sample_files 8 (Some ∅)
              ("/w/2.bin", 4, 104)) as (Hres & Hgroup & _).
  - by apply (bool_decide_unpack _).
  - by apply (bool_decide_unpack _).
  - vm_compute. reflexivity.
  - intros c [= <-]. vm_compute. reflexivity.
  - split; [exact Hres|exact Hgroup].
Defined.

(** ** Ordered dictionaries: keys *)

Section odict_keys.
Context {K V : Type} `{EqDecision K}.

Lemma append_keys (k : K) (v : V) (d : list (K * list V)) :
  (ODict.append k v d).*1 = if decide (k ∈ d.*1) then d.*1 else d.*1 ++ [k].
Proof.
  induction d as [|[k' vs] d IH].
  - change (([] : list (K * list V)).*1) with (@nil K).
    destruct (decide (k ∈ [])) as [Hin|_]; [by apply elem_of_nil in Hin|done].
  - change (((k', vs) :: d).*1) with (k' :: d.*1). simpl ODict.append.
    destruct (decide (k' = k)) as [->|Hne].
    + destruct (decide (k ∈ k :: d.*1)) as [_|Hnin]; [done|].
      exfalso. apply Hnin. left.
    + change (((k', vs) :: ODict.append k v d).*1)
        with (k' :: (ODict.append k v d).*1).
      rewrite IH. destruct (decide (k ∈ d.*1)) as [Hin|Hnin].
      * destruct (decide (k ∈ k' :: d.*1)) as [_|Hnin']; [done|].
        exfalso. apply Hnin'. by right.
      * destruct (decide (k ∈ k' :: d.*1)) as [Hin'|_]; [|done].
        apply elem_of_cons in Hin' as [->|Hin']; done.
Qed.

Lemma append_keys_NoDup (k : K) (v : V) (d : list (K * list V)) :
  NoDup d.*1 -> NoDup (ODict.append k v d).*1.
Proof.
  intros Hnd. rewrite append_keys. destruct (decide (k ∈ d.*1)); [done|].
  apply NoDup_app. split; [done|]. split; [|apply NoDup_singleton].
  intros x Hx Hx'. apply list_elem_of_singleton in Hx' as ->. done.
Qed.

Lemma assign_fresh {W : Type} (k : K) (x : W) (d : list (K * W)) :
  k ∉ d.*1 -> ODict.assign k x d = d ++ [(k, x)].
Proof.
  induction d as [|[k' y] d IH]; intros Hk; simpl; [done|].
  apply not_elem_of_cons in Hk as [Hne Hk].
  rewrite decide_False by done. by rewrite IH.
Qed.

Lemma unique_value {W : Type} (d : list (K * W)) k (x y : W) :
  NoDup d.*1 -> (k, x) ∈ d -> (k, y) ∈ d -> x = y.
Proof.
  intros Hnd Hx Hy.
  assert ((k, x) = (k, y)) as Heq by (by eapply (NoDup_fmap_eq fst d)).
  by injection Heq.
Qed.

End odict_keys.

(** ** find_identical_directories *)

Lemma sorted_eq_iff (l1 l2 : list string) : sorted l1 = sorted l2 <-> l1 ≡ₚ l2.
Proof.
  unfold sorted. split.
  - intros Heq. rewrite <- (merge_sort_Permutation String.le l1), Heq.
    apply merge_sort_Permutation.
  - intros Hperm. apply (Sorted_unique String.le).
    + apply Sorted_merge_sort, _.
    + apply Sorted_merge_sort, _.
    + by rewrite !merge_sort_Permutation.
Qed.

Lemma two_members {A : Type} (x y : A) (l : list A) :
  x <> y -> x ∈ l -> y ∈ l -> (1 < length l)%nat.
Proof.
  intros Hne Hx Hy. destruct l as [|a [|b l]]; simpl; [|exfalso|lia].
  - by apply elem_of_nil in Hx.
  - apply list_elem_of_singleton in Hx, Hy. congruence.
Qed.

Section directory_facts.
Variable dirname : string -> string.
Implicit Types (duplicates : list (string * list string)).

Lemma dir_hashes_keys_NoDup duplicates : NoDup (dir_hashes dirname duplicates).*1.
Proof.
  unfold dir_hashes.
  assert (forall dups (acc : list (string * list string)), NoDup acc.*1 ->
            NoDup (fold_left
                     (fun dh '(file_hash, file_paths) =>
                        fold_left
                          (fun dh file_path =>
                             ODict.append (dirname file_path) file_hash dh)
                          file_paths dh) dups acc).*1) as Hgen.
  { induction dups as [|[h ps] dups IH]; intros acc Hacc; simpl; [done|].
    apply IH. clear IH. revert acc Hacc.
    induction ps as [|p ps IHp]; intros acc Hacc; simpl; [done|].
    apply IHp. by apply append_keys_NoDup. }
  apply Hgen. constructor.
Qed.

Lemma dir_signatures_eq duplicates :
  dir_signatures dirname duplicates
  = (fun dh : string * list string => (dh.1, sorted dh.2))
      <$> dir_hashes dirname duplicates.
Proof.
  unfold dir_signatures.
  pose proof (dir_hashes_keys_NoDup duplicates) as Hnd.
  assert (forall (l acc : list (string * list string)),
            NoDup (acc.*1 ++ l.*1) ->
            fold_left (fun ds '(dir_path, hashes) =>
                         ODict.assign dir_path (sorted hashes) ds) l acc
            = acc ++ ((fun dh : string * list string => (dh.1, sorted dh.2)) <$> l))
    as Hgen.
  { induction l as [|[d hs] l IH]; intros acc Hacc; simpl.
    - by rewrite app_nil_r.
    - apply NoDup_app in Hacc as (Hacc & Hdisj & Hl).
      apply NoDup_cons in Hl as [Hd Hl].
      rewrite assign_fresh.
      + rewrite IH; [by rewrite <- app_assoc|].
        rewrite fmap_app. simpl. rewrite <- app_assoc. simpl.
        apply NoDup_app. split; [done|]. split; [|by constructor].
        intros x Hx Hx'. by apply (Hdisj x Hx).
      + intros Hin. apply (Hdisj d Hin). left. }
  rewrite Hgen; [done|]. simpl. done.
Qed.

Lemma signature_groups_keys_NoDup duplicates :
  NoDup (signature_groups dirname duplicates).*1.
Proof.
  unfold signature_groups.
  assert (forall (l : list (string * list string))
                 (acc : list (list string * list string)),
            NoDup acc.*1 ->
            NoDup (fold_left (fun sg '(dir_path, signature) =>
                                ODict.append signature dir_path sg) l acc).*1) as Hgen.
  { induction l as [|[d s] l IH]; intros acc Hacc; simpl; [done|].
    apply IH. by apply append_keys_NoDup. }
  apply Hgen. constructor.
Qed.

Lemma mem_signature_groups duplicates sig d :
  ODict.mem sig d (signature_groups dirname duplicates)
  <-> (d, sig) ∈ dir_signatures dirname duplicates.
Proof.
  unfold signature_groups.
  assert (forall (l : list (string * list string))
                 (acc : list (list string * list string)),
            ODict.mem sig d
              (fold_left (fun sg '(dir_path, signature) =>
                            ODict.append signature dir_path sg) l acc)
            <-> ODict.mem sig d acc \/ (d, sig) ∈ l) as Hgen.
  { induction l as [|[d' s'] l IH]; intros acc; simpl.
    - split; [by left|]. intros [?|Hin]; [done|]. by apply elem_of_nil in Hin.
    - rewrite IH, mem_append. split.
      + intros [[?|[-> ->]]|?]; [by left|right; left|right; by right].
      + intros [?|Hin]; [by left; left|].
        apply elem_of_cons in Hin as [[= -> ->]|Hin]; [left; by right|by right]. }
  rewrite Hgen. split; [|by right].
  intros [Hnil|?]; [|done]. by apply mem_nil in Hnil.
Qed.

Lemma signature_of_directory duplicates d l sig :
  (d, l) ∈ dir_hashes dirname duplicates ->
  (d, sig) ∈ dir_signatures dirname duplicates <-> sig = sorted l.
Proof.
  intros Hd. rewrite dir_signatures_eq. split.
  - intros Hin. apply list_elem_of_fmap in Hin as ([d' l'] & [= -> ->] & Hin).
    f_equal. by eapply unique_value; [apply dir_hashes_keys_NoDup|..].
  - intros ->. apply list_elem_of_fmap. by exists (d, l).
Qed.

(** C5. Two distinct directories holding duplicate files are members of the
    same emitted group exactly when the fingerprints they contribute are
    equal as multisets, whatever the order: [X,X,Y] and [Y,X,X] are grouped,
    [X,Y] and [X,X] with different X and Y are not; and every emitted group
    has at least two directories. *)
Theorem identical_directories_by_multiset {Stats : Type} (statistics : Stats)
    duplicates (d1 d2 : string) (l1 l2 : list string) :
  d1 <> d2 ->
  (d1, l1) ∈ dir_hashes dirname duplicates ->
  (d2, l2) ∈ dir_hashes dirname duplicates ->
  (l1 ≡ₚ l2
   <-> together (find_identical_directories dirname statistics duplicates) d1 d2)
  /\ (forall X Y, l1 = [X; X; Y] -> l2 = [Y; X; X] ->
        together (find_identical_directories dirname statistics duplicates) d1 d2)
  /\ (forall X Y, X <> Y -> l1 = [X; Y] -> l2 = [X; X] ->
        ~ together (find_identical_directories dirname statistics duplicates) d1 d2)
  /\ Forall (fun g => (2 <= length g)%nat)
       (find_identical_directories dirname statistics duplicates).
Proof.
  intros Hne H1 H2.
  assert (l1 ≡ₚ l2
          <-> together (find_identical_directories dirname statistics duplicates) d1 d2)
    as Hiff.
  { unfold together, find_identical_directories. split.
    - intros Hperm. apply sorted_eq_iff in Hperm.
      assert (ODict.mem (sorted l1) d1 (signature_groups dirname duplicates)) as Hm1.
      { apply mem_signature_groups. by eapply signature_of_directory. }
      assert (ODict.mem (sorted l1) d2 (signature_groups dirname duplicates)) as Hm2.
      { apply mem_signature_groups. eapply signature_of_directory; [done|]. done. }
      destruct Hm1 as (ds1 & Hds1 & Hd1). destruct Hm2 as (ds2 & Hds2 & Hd2).
      assert (ds2 = ds1) as ->.
      { by eapply unique_value; [apply signature_groups_keys_NoDup|..]. }
      exists ds1. split; [|done]. apply list_elem_of_fmap.
      exists (sorted l1, ds1). split; [done|].
      apply elem_of_more_than_one. split; [done|]. by eapply two_members.
    - intros (g & Hg & Hd1 & Hd2).
      apply list_elem_of_fmap in Hg as ([sig ds] & -> & Hg).
      apply elem_of_more_than_one in Hg as [Hg _]. simpl in *.
      assert ((d1, sig) ∈ dir_signatures dirname duplicates) as Hs1.
      { apply mem_signature_groups. by exists ds. }
      assert ((d2, sig) ∈ dir_signatures dirname duplicates) as Hs2.
      { apply mem_signature_groups. by exists ds. }
      apply (signature_of_directory _ _ l1) in Hs1; [|done].
      apply (signature_of_directory _ _ l2) in Hs2; [|done].
      apply sorted_eq_iff. congruence. }
  split; [done|]. split; [|split].
  - intros X Y -> ->. apply Hiff.
    change [Y; X; X] with ([Y] ++ [X; X]). change [X; X; Y] with ([X; X] ++ [Y]).
    apply Permutation_app_comm.
  - intros X Y HXY -> -> Htog. apply Hiff in Htog.
    assert (Y ∈ [X; X]) as HY.
    { rewrite <- Htog. apply elem_of_cons. right. apply list_elem_of_singleton. done. }
    apply elem_of_cons in HY as [->|HY]; [done|].
    apply list_elem_of_singleton in HY. congruence.
  - apply Forall_forall. intros g Hg. unfold find_identical_directories in Hg.
    apply list_elem_of_fmap in Hg as ([sig ds] & -> & Hg).
    apply elem_of_more_than_one in Hg as [_ Hlen]. simpl in *. lia.
Qed.

End directory_facts.

(** Directories of the sample: [/a] and [/b] both hold X, X, Y; [/d] holds
    X, Y and [/e] holds X, X. *)
Example identical_directories_sample :
  dir_hashes posix_dirname sample_duplicates
  = [("/a", ["X"; "X"; "Y"]); ("/b", ["X"; "X"; "Y"]); ("/d", ["X"; "Y"]);
     ("/e", ["X"; "X"])]
  /\ find_identical_directories posix_dirname tt sample_duplicates = [["/a"; "/b"]].
Proof. split; vm_compute; reflexivity. Qed.

Lemma identical_directories_by_multiset_witness :
  together (find_identical_directories posix_dirname tt sample_duplicates) "/a" "/b"
  /\ ~ together (find_identical_directories posix_dirname tt sample_duplicates)
         "/d" "/e".
Proof.
  destruct (identical_directories_by_multiset posix_dirname tt sample_duplicates
              "/a" "/b" ["X"; "X"; "Y"] ["X"; "X"; "Y"]) as (Hiff & _).
  - done.
  - by apply (bool_decide_unpack _).
  - by apply (bool_decide_unpack _).
  - destruct (identical_directories_by_multiset posix_dirname tt sample_duplicates
                "/d" "/e" ["X"; "Y"] ["X"; "X"]) as (_ & _ & Hno & _).
    + done.
    + by apply (bool_decide_unpack _).
    + by apply (bool_decide_unpack _).
    + split; [by apply Hiff|]. by apply (Hno "X" "Y").
Defined.

(** ** Selection policies *)

Lemma all_but_last_snoc {A : Type} (l : list A) (x : A) : all_but_last (l ++ [x]) = l.
Proof.
  unfold all_but_last. rewrite length_app. simpl.
  replace (length l + 1 - 1)%nat with (length l) by lia.
  by rewrite take_app_length.
Qed.

Lemma not_kept_from_none {A : Type} (keep_indices : list Z) (items : list A) :
  forall idx,
    (forall i, (i < length items)%nat -> Z.of_nat (idx + i) ∉ keep_indices) ->
    not_kept_from idx keep_indices items = items.
Proof.
  induction items as [|x items IH]; intros idx Hnone; simpl; [done|].
  rewrite decide_False.
  - f_equal. apply IH. intros i Hi.
    replace (S idx + i)%nat with (idx + S i)%nat by lia. apply Hnone. simpl. lia.
  - replace idx with (idx + 0)%nat by lia. apply Hnone. simpl. lia.
Qed.

Section selection_facts.
Variable getsize : string -> result Z.

Lemma interactive_selection_one_group {Stats : Type} (statistics : Stats)
    (group : string * list string) (identical_dirs : list (list string))
    (auto_select_first : bool) (pending : list string) :
  interactive_selection getsize [group] identical_dirs statistics auto_select_first
    pending
  = match file_group_body getsize ([], auto_select_first) group pending with
    | Ret (files, pending') =>
        match for_each dir_group_body identical_dirs [] pending' with
        | Ret (dirs_to_delete, pending'') => Ret (files.1, dirs_to_delete, pending'')
        | Raise e => Raise e
        end
    | Raise e => Raise e
    end.
Proof.
  unfold interactive_selection. cbn [for_each]. unfold bind.
  destruct (file_group_body getsize ([], auto_select_first) group pending)
    as [[files pending']|e]; [|done].
  unfold ret at 1.
  by destruct (for_each dir_group_body identical_dirs [] pending') as [[ds pending'']|e].
Qed.

Lemma for_each_one {A S : Type} (body : S -> A -> Console S) (x : A) (s : S)
    (pending : list string) :
  for_each body [x] s pending
  = match body s x pending with
    | Ret (s', pending') => Ret (s', pending')
    | Raise e => Raise e
    end.
Proof. simpl. unfold bind. by destruct (body s x pending) as [[s' p']|e]. Qed.

Lemma auto_select_first_copy_eq (duplicates : list (string * list string))
    (identical_dirs : list (list string)) :
  auto_select_first_copy duplicates identical_dirs
  = (flat_map (fun g => all_but_first g.2) duplicates,
     flat_map all_but_first identical_dirs).
Proof.
  unfold auto_select_first_copy. f_equal.
  - assert (forall acc,
              fold_left (fun acc '(file_hash, file_paths) =>
                           acc ++ all_but_first file_paths) duplicates acc
              = acc ++ flat_map (fun g => all_but_first g.2) duplicates) as Hgen.
    { induction duplicates as [|[h ps] dups IH]; intros acc; simpl.
      - by rewrite app_nil_r.
      - by rewrite IH, <- app_assoc. }
    apply Hgen.
  - assert (forall acc,
              fold_left (fun acc dir_group => acc ++ all_but_first dir_group)
                identical_dirs acc
              = acc ++ flat_map all_but_first identical_dirs) as Hgen.
    { induction identical_dirs as [|g gs IH]; intros acc; simpl.
      - by rewrite app_nil_r.
      - by rewrite IH, <- app_assoc. }
    apply Hgen.
Qed.

(** C6. For a group with members m0, ..., mk in scan order, keeping the
    first copy (the automatic rule, the flag of the prompt, or the answer a)
    plans exactly m1, ..., mk, and keeping the last copy (the answer b) plans
    exactly m0, ..., m(k-1), wherever the group stands among the groups;
    likewise for a group of directories. *)
Theorem keep_first_and_keep_last (file_hash m0 mk : string) (mid : list string)
    (size : Z) :
  let members := m0 :: mid ++ [mk] in
  getsize m0 = Ret size ->
  auto_select_first_copy [(file_hash, members)] [members] = (mid ++ [mk], mid ++ [mk])
  /\ (forall before after dirs_before dirs_after,
        auto_select_first_copy (before ++ (file_hash, members) :: after)
          (dirs_before ++ members :: dirs_after)
        = ((auto_select_first_copy before dirs_before).1 ++ (mid ++ [mk])
             ++ (auto_select_first_copy after dirs_after).1,
           (auto_select_first_copy before dirs_before).2 ++ (mid ++ [mk])
             ++ (auto_select_first_copy after dirs_after).2))
  /\ (forall acc pending,
        file_group_body getsize (acc, true) (file_hash, members) pending
        = Ret (acc ++ mid ++ [mk], true, pending))
  /\ (forall acc line pending,
        py_lower (py_strip line) = "a" ->
        file_group_body getsize (acc, false) (file_hash, members) (line :: pending)
        = Ret (acc ++ mid ++ [mk], false, pending)
        /\ dir_group_body acc members (line :: pending)
           = Ret (acc ++ mid ++ [mk], pending))
  /\ (forall acc line pending,
        py_lower (py_strip line) = "b" ->
        file_group_body getsize (acc, false) (file_hash, members) (line :: pending)
        = Ret (acc ++ m0 :: mid, false, pending)
        /\ dir_group_body acc members (line :: pending)
           = Ret (acc ++ m0 :: mid, pending))
  /\ interactive_selection getsize [(file_hash, members)] [members] tt false ["a"; "a"]
     = Ret (mid ++ [mk], mid ++ [mk], [])
  /\ interactive_selection getsize [(file_hash, members)] [members] tt false ["b"; "b"]
     = Ret (m0 :: mid, m0 :: mid, []).
Proof.
  intros members Hsize.
  assert (all_but_last members = m0 :: mid) as Hlast.
  { unfold members. change (m0 :: mid ++ [mk]) with ((m0 :: mid) ++ [mk]).
    apply all_but_last_snoc. }
  assert (all_but_first members = mid ++ [mk]) as Hfirst by done.
  assert (forall acc line pending,
            py_lower (py_strip line) = "a" ->
            file_group_body getsize (acc, false) (file_hash, members) (line :: pending)
            = Ret (acc ++ mid ++ [mk], false, pending)
            /\ dir_group_body acc members (line :: pending)
               = Ret (acc ++ mid ++ [mk], pending)) as Ha.
  { intros acc line pending Hline.
    unfold file_group_body, dir_group_body, bind, lift, input, ret. simpl.
    rewrite Hsize, Hline. simpl. by rewrite Hfirst. }
  assert (forall acc line pending,
            py_lower (py_strip line) = "b" ->
            file_group_body getsize (acc, false) (file_hash, members) (line :: pending)
            = Ret (acc ++ m0 :: mid, false, pending)
            /\ dir_group_body acc members (line :: pending)
               = Ret (acc ++ m0 :: mid, pending)) as Hb.
  { intros acc line pending Hline.
    unfold file_group_body, dir_group_body, bind, lift, input, ret. simpl.
    rewrite Hsize, Hline. simpl. by rewrite Hlast. }
  split; [done|]. split; [|split; [|split; [done|split; [done|]]]].
  - intros before after dirs_before dirs_after.
    rewrite !auto_select_first_copy_eq, !flat_map_app. simpl. by rewrite Hfirst.
  - intros acc pending. unfold file_group_body, bind, lift, ret. simpl.
    by rewrite Hsize.
  - split.
    + rewrite interactive_selection_one_group.
      destruct (Ha [] "a" ["a"] eq_refl) as [-> _]. rewrite for_each_one.
      by destruct (Ha [] "a" [] eq_refl) as [_ ->].
    + rewrite interactive_selection_one_group.
      destruct (Hb [] "b" ["b"] eq_refl) as [-> _]. rewrite for_each_one.
      by destruct (Hb [] "b" [] eq_refl) as [_ ->].
Qed.

(** C1, as amended.  A manual choice that keeps nothing is accepted: when no
    entered number is the position of a member, every member of the group is
    added to the plan and no exception is raised; likewise for a group of
    directories. *)
Theorem empty_keep_set_deletes_every_member (file_hash m0 : string)
    (members : list string) (size : Z) (line line' : string)
    (keep_indices : list Z) :
  first_item members = Ret m0 ->
  getsize m0 = Ret size ->
  py_lower (py_strip line) = "m" ->
  keep_indices_of (py_split line') = Ret keep_indices ->
  (forall i, (i < length members)%nat -> Z.of_nat i ∉ keep_indices) ->
  (forall acc pending,
     file_group_body getsize (acc, false) (file_hash, members)
       (line :: line' :: pending)
     = Ret (acc ++ members, false, pending))
  /\ (forall acc pending,
        dir_group_body acc members (line :: line' :: pending)
        = Ret (acc ++ members, pending))
  /\ interactive_selection getsize [(file_hash, members)] [] tt false [line; line']
     = Ret (members, [], []).
Proof.
  intros Hfirst Hsize Hline Hkeep Hnone.
  assert (not_kept keep_indices members = members) as Hall.
  { apply not_kept_from_none. intros i Hi. by apply Hnone. }
  assert (forall acc pending,
            file_group_body getsize (acc, false) (file_hash, members)
              (line :: line' :: pending)
            = Ret (acc ++ members, false, pending)) as Hfile.
  { intros acc pending. unfold file_group_body, bind, lift, input, ret.
    rewrite Hfirst, Hsize. simpl. rewrite Hline. simpl. rewrite Hkeep.
    by rewrite Hall. }
  split; [done|]. split.
  - intros acc pending. unfold dir_group_body, bind, lift, input, ret.
    simpl. rewrite Hline. simpl. rewrite Hkeep. by rewrite Hall.
  - rewrite interactive_selection_one_group. by rewrite Hfile.
Qed.

End selection_facts.

(** The planner examples of the specification on the group a, b, c. *)
Example planner_examples :
  interactive_selection sample_getsize [("h", ["a"; "b"; "c"])] [] tt false ["a"]
    = Ret (["b"; "c"], [], [])
  /\ interactive_selection sample_getsize [("h", ["a"; "b"; "c"])] [] tt false ["b"]
     = Ret (["a"; "b"], [], [])
  /\ interactive_selection sample_getsize [("h", ["a"; "b"; "c"])] [] tt false ["m"; "2"]
     = Ret (["a"; "c"], [], [])
  /\ auto_select_first_copy [("h", ["a"; "b"; "c"])] [] = (["b"; "c"], []).
Proof. repeat split; vm_compute; reflexivity. Qed.

(** C1, counterexample: the manual choice with no number entered returns
    normally, with every member of the group in the plan. *)
Lemma empty_keep_set_counterexample :
  interactive_selection sample_getsize [("h", ["a"; "b"; "c"])] [] tt false ["m"; EmptyString]
  = Ret (["a"; "b"; "c"], [], [])
  /\ ~ keep_set_rejected ["a"; "b"; "c"]
         (interactive_selection sample_getsize [("h", ["a"; "b"; "c"])] [] tt false
            ["m"; EmptyString]).
Proof.
  assert (interactive_selection sample_getsize [("h", ["a"; "b"; "c"])] [] tt false
            ["m"; EmptyString] = Ret (["a"; "b"; "c"], [], [])) as Heq
    by (vm_compute; reflexivity).
  split; [exact Heq|]. rewrite Heq. simpl. intros Hrej.
  destruct (Hrej "a") as [Hnot _]; [left|]. apply Hnot. left.
Qed.

Lemma keep_first_and_keep_last_witness :
  auto_select_first_copy [("h", ["a"; "b"; "c"])] [["a"; "b"; "c"]]
    = (["b"; "c"], ["b"; "c"])
  /\ interactive_selection sample_getsize [("h", ["a"; "b"; "c"])] [["a"; "b"; "c"]]
       tt false ["b"; "b"]
     = Ret (["a"; "b"], ["a"; "b"], []).
Proof.
  destruct (keep_first_and_keep_last sample_getsize "h" "a" "c" ["b"] 4)
    as (Hauto & _ & _ & _ & _ & _ & Hlast).
  - reflexivity.
  - split; [exact Hauto|exact Hlast].
Defined.

Lemma empty_keep_set_deletes_every_member_witness :
  interactive_selection sample_getsize [("h", ["a"; "b"; "c"])] [] tt false
    [" M "; "0 7 x"]
  = Ret (["a"; "b"; "c"], [], []).
Proof.
  destruct (empty_keep_set_deletes_every_member sample_getsize "h" "a"
              ["a"; "b"; "c"] 4 " M " "0 7 x" [-1; 6]) as (_ & _ & Hrun).
  - reflexivity.
  - reflexivity.
  - vm_compute. reflexivity.
  - vm_compute. reflexivity.
  - intros i Hi. simpl in Hi.
    intros Hin. apply elem_of_cons in Hin as [Hin|Hin]; [lia|].
    apply list_elem_of_singleton in Hin. lia.
  - exact Hrun.
Defined.

(** ** execute_deletion *)

Section execution_facts.
Context {FS : Type} `{FileSystem FS}.
Variable dry_run : bool.
Implicit Types (st : ExecState FS) (d : FS).

(** Two states that differ at most in what was printed before. *)
Lemma delete_file_frame st st' file_path :
  deleted_files st = deleted_files st' -> deleted_dirs st = deleted_dirs st' ->
  freed_space st = freed_space st' -> disk st = disk st' ->
  let r := delete_file dry_run st file_path in
  let r' := delete_file dry_run st' file_path in
  deleted_files r = deleted_files r' /\ deleted_dirs r = deleted_dirs r'
  /\ freed_space r = freed_space r' /\ disk r = disk r'
  /\ exists out, printed r = printed st ++ out /\ printed r' = printed st' ++ out.
Proof.
  intros Hf Hd Hs Hdisk. unfold delete_file. rewrite <- Hdisk, <- Hf, <- Hd, <- Hs.
  destruct (fs_getsize (disk st) file_path) as [size|e]; simpl.
  - destruct dry_run; simpl.
    + repeat split; eauto.
    + destruct (fs_remove (disk st) file_path) as [disk'|e]; simpl;
        repeat split; eauto.
  - repeat split; eauto.
Qed.

Lemma delete_dir_frame st st' dir_path :
  deleted_files st = deleted_files st' -> deleted_dirs st = deleted_dirs st' ->
  freed_space st = freed_space st' -> disk st = disk st' ->
  let r := delete_dir dry_run st dir_path in
  let r' := delete_dir dry_run st' dir_path in
  deleted_files r = deleted_files r' /\ deleted_dirs r = deleted_dirs r'
  /\ freed_space r = freed_space r' /\ disk r = disk r'
  /\ exists out, printed r = printed st ++ out /\ printed r' = printed st' ++ out.
Proof.
  intros Hf Hd Hs Hdisk. unfold delete_dir. rewrite <- Hdisk, <- Hf, <- Hd, <- Hs.
  destruct dry_run; simpl.
  - repeat split; eauto.
  - destruct (fs_rmtree (disk st) dir_path) as [disk' [e|]]; simpl;
      repeat split; eauto.
Qed.

Lemma fold_frame (step : ExecState FS -> string -> ExecState FS) (items : list string) :
  (forall st st' x,
     deleted_files st = deleted_files st' -> deleted_dirs st = deleted_dirs st' ->
     freed_space st = freed_space st' -> disk st = disk st' ->
     deleted_files (step st x) = deleted_files (step st' x)
     /\ deleted_dirs (step st x) = deleted_dirs (step st' x)
     /\ freed_space (step st x) = freed_space (step st' x)
     /\ disk (step st x) = disk (step st' x)
     /\ exists out, printed (step st x) = printed st ++ out
                    /\ printed (step st' x) = printed st' ++ out) ->
  forall st st',
    deleted_files st = deleted_files st' -> deleted_dirs st = deleted_dirs st' ->
    freed_space st = freed_space st' -> disk st = disk st' ->
    let r := fold_left step items st in
    let r' := fold_left step items st' in
    deleted_files r = deleted_files r' /\ deleted_dirs r = deleted_dirs r'
    /\ freed_space r = freed_space r' /\ disk r = disk r'
    /\ exists out, printed r = printed st ++ out /\ printed r' = printed st' ++ out.
Proof.
  intros Hstep. induction items as [|x items IH]; intros st st' Hf Hd Hs Hdisk; simpl.
  - repeat split; try done. exists []. by rewrite !app_nil_r.
  - destruct (Hstep st st' x Hf Hd Hs Hdisk) as (Hf1 & Hd1 & Hs1 & Hdisk1 & out1 & Ho & Ho').
    destruct (IH _ _ Hf1 Hd1 Hs1 Hdisk1) as (Hf2 & Hd2 & Hs2 & Hdisk2 & out2 & Ho2 & Ho2').
    repeat split; try done. exists (out1 ++ out2).
    rewrite Ho2, Ho2', Ho, Ho'. by rewrite !app_assoc.
Qed.

(** C8. A file of the plan that cannot be examined when its turn comes (it
    no longer exists) adds one error line for that file and nothing to the
    counters or to the freed bytes; the remaining files and all directories
    are processed, with the totals, the disk and the other lines they would
    have had without that file in the plan. *)
Theorem missing_file_is_reported_and_skipped d (pre post dirs : list string)
    (file_path : string) (e : exn) :
  let before := fold_left (delete_file dry_run) pre (mkExec 0%nat 0%nat 0 [] d) in
  fs_getsize (disk before) file_path = Raise e ->
  let full := execute_deletion dry_run d (pre ++ file_path :: post) dirs in
  let rest := execute_deletion dry_run d (pre ++ post) dirs in
  delete_file dry_run before file_path
  = mkExec (deleted_files before) (deleted_dirs before) (freed_space before)
           (printed before ++ [FileError file_path e]) (disk before)
  /\ deleted_files full = deleted_files rest
  /\ deleted_dirs full = deleted_dirs rest
  /\ freed_space full = freed_space rest
  /\ disk full = disk rest
  /\ exists out,
       printed rest = printed before ++ out
       /\ printed full = printed before ++ FileError file_path e :: out.
Proof.
  intros before Hmissing full rest.
  assert (delete_file dry_run before file_path
          = mkExec (deleted_files before) (deleted_dirs before) (freed_space before)
                   (printed before ++ [FileError file_path e]) (disk before)) as Hstep.
  { unfold delete_file. by rewrite Hmissing. }
  split; [done|].
  set (run := fun st => fold_left (delete_dir dry_run) dirs
                          (fold_left (delete_file dry_run) post st)).
  assert (full = run (delete_file dry_run before file_path)) as ->.
  { unfold full, execute_deletion, run. by rewrite fold_left_app. }
  assert (rest = run before) as ->.
  { unfold rest, execute_deletion, run. by rewrite fold_left_app. }
  rewrite Hstep. unfold run.
  set (skipped := mkExec _ _ _ _ _).
  destruct (fold_frame (delete_file dry_run) post
              (fun st st' x => delete_file_frame st st' x) skipped before)
    as (Hf1 & Hd1 & Hs1 & Hdisk1 & out1 & Ho1 & Ho1'); try done.
  destruct (fold_frame (delete_dir dry_run) dirs
              (fun st st' x => delete_dir_frame st st' x) _ _ Hf1 Hd1 Hs1 Hdisk1)
    as (Hf2 & Hd2 & Hs2 & Hdisk2 & out2 & Ho2 & Ho2').
  repeat split; try done. exists (out1 ++ out2).
  rewrite Ho2, Ho2', Ho1, Ho1'. unfold skipped. simpl.
  by rewrite <- !app_assoc.
Qed.

End execution_facts.

Example execution_sample :
  let report :=
    execute_deletion false sample_flat_disk ["/x/1.bin"; "/gone.bin"; "/z/9.bin"] [] in
  deleted_files report = 2%nat /\ freed_space report = 11
  /\ printed report
     = [FileDeleted "/x/1.bin" 4; FileError "/gone.bin" OSError;
        FileDeleted "/z/9.bin" 7]
  /\ disk report = ∅.
Proof. repeat split; vm_compute; reflexivity. Qed.

Lemma missing_file_is_reported_and_skipped_witness :
  freed_space
    (execute_deletion false sample_flat_disk ["/x/1.bin"; "/gone.bin"; "/z/9.bin"] [])
  = freed_space (execute_deletion false sample_flat_disk ["/x/1.bin"; "/z/9.bin"] [])
  /\ deleted_files
       (execute_deletion false sample_flat_disk
          ["/x/1.bin"; "/gone.bin"; "/z/9.bin"] [])
     = deleted_files (execute_deletion false sample_flat_disk ["/x/1.bin"; "/z/9.bin"] []).
Proof.
  destruct (missing_file_is_reported_and_skipped false sample_flat_disk
              ["/x/1.bin"] ["/z/9.bin"] [] "/gone.bin" OSError)
    as (_ & Hfiles & _ & Hfreed & _).
  - vm_compute. reflexivity.
  - split; [exact Hfreed|exact Hfiles].
Defined.

(** ** format_size *)

(** Rounding to 53 bits does not take an integer below a power of two it
    started above. *)
Lemma float_of_int_lower_bound (n : Z) (x : Q) :
  2 ^ 50 <= n -> float_of_int n = Some x -> (inject_Z (2 ^ 50) <= x)%Q.
Proof.
  intros Hn. unfold float_of_int.
  assert (0 < n) as Hpos by lia.
  rewrite (Z.abs_eq n) by lia. rewrite (Z.sgn_pos n) by lia.
  destruct (Z.leb_spec (Z.log2 n - 52) 0) as [_|He].
  - intros [= <-]. rewrite <- Zle_Qle. done.
  - set (e := Z.log2 n - 52) in *.
    set (q := n / 2 ^ e).
    assert (0 < 2 ^ e) as Hpow by (apply Z.pow_pos_nonneg; lia).
    assert (2 ^ 52 <= q) as Hq.
    { unfold q. apply Z.div_le_lower_bound; [done|].
      rewrite Z.mul_comm, <- Z.pow_add_r by lia.
      replace (52 + e) with (Z.log2 n) by (unfold e; lia).
      by apply Z.log2_spec. }
    set (q' := if n mod 2 ^ e <? 2 ^ (e - 1) then q
               else if 2 ^ (e - 1) <? n mod 2 ^ e then q + 1
               else if Z.even q then q else q + 1).
    assert (q <= q') as Hq'.
    { unfold q'. destruct (_ <? _); [lia|]. destruct (_ <? _); [lia|].
      destruct (Z.even q); lia. }
    destruct (2 ^ 1024 <=? q' * 2 ^ e); [done|]. intros [= <-].
    rewrite <- Zle_Qle. rewrite Z.mul_1_l.
    assert (2 ^ 52 * 1 <= q' * 2 ^ e) by (apply Z.mul_le_mono_nonneg; lia).
    assert (2 ^ 50 <= 2 ^ 52) by (apply Z.pow_le_mono_r; lia).
    lia.
Qed.

(** Integers below 2^1023 convert without overflow. *)
Lemma float_of_int_defined (n : Z) :
  0 <= n < 2 ^ 1023 -> is_Some (float_of_int n).
Proof.
  intros [Hn0 Hn]. unfold float_of_int.
  rewrite (Z.abs_eq n) by lia.
  destruct (Z.leb_spec (Z.log2 n - 52) 0) as [_|He]; [by eexists|].
  set (e := Z.log2 n - 52) in *.
  assert (0 < n) as Hpos.
  { destruct (Z.eq_dec n 0) as [Hz|]; [|lia]. unfold e in He. rewrite Hz in He.
    simpl in He. lia. }
  set (q := n / 2 ^ e).
  assert (0 < 2 ^ e) as Hpow by (apply Z.pow_pos_nonneg; lia).
  assert (q < 2 ^ 53) as Hq.
  { unfold q. apply Z.div_lt_upper_bound; [done|].
    rewrite <- Z.pow_add_r by lia.
    replace (e + 53) with (Z.succ (Z.log2 n)) by (unfold e; lia).
    by apply Z.log2_spec. }
  set (q' := if n mod 2 ^ e <? 2 ^ (e - 1) then q
             else if 2 ^ (e - 1) <? n mod 2 ^ e then q + 1
             else if Z.even q then q else q + 1).
  assert (q' <= 2 ^ 53) as Hq'.
  { unfold q'. destruct (_ <? _); [lia|]. destruct (_ <? _); [lia|].
    destruct (Z.even q); lia. }
  assert (Z.log2 n < 1023) as Hlog.
  { apply Z.log2_lt_pow2; lia. }
  assert (q' * 2 ^ e < 2 ^ 1024) as Hm.
  { assert (q' * 2 ^ e <= 2 ^ 53 * 2 ^ e) by (apply Z.mul_le_mono_nonneg_r; lia).
    rewrite <- Z.pow_add_r in * by lia.
    assert (2 ^ (53 + e) <= 2 ^ 1023) by (apply Z.pow_le_mono_r; unfold e; lia).
    assert (2 ^ 1023 < 2 ^ 1024) by (apply Z.pow_lt_mono_r; lia).
    lia. }
  destruct (Z.leb_spec (2 ^ 1024) (q' * 2 ^ e)); [lia|by eexists].
Qed.

(** A float at least 1024 to the number of remaining units runs the loop to
    its end. *)
Lemma format_size_loop_exhausts (units : list string) : forall x : Q,
  (inject_Z (1024 ^ Z.of_nat (length units)) <= x)%Q ->
  format_size_loop units (PyFloat x) = Ret None.
Proof.
  induction units as [|unit units IH]; intros x Hx; [done|].
  cbn [format_size_loop length] in *.
  rewrite Nat2Z.inj_succ, Z.pow_succ_r in Hx by lia.
  assert (0 < 1024 ^ Z.of_nat (length units)) as Hpos
    by (apply Z.pow_pos_nonneg; lia).
  rewrite inject_Z_mult in Hx.
  assert (inject_Z 1024 == 1024 # 1)%Q as H1024 by done.
  assert (0 < inject_Z (1024 ^ Z.of_nat (length units)))%Q as HposQ.
  { replace 0%Q with (inject_Z 0) by done. by rewrite <- Zlt_Qlt. }
  assert ((1024 # 1) <= x)%Q as Hge.
  { assert (inject_Z 1 <= inject_Z (1024 ^ Z.of_nat (length units)))%Q as Hone
      by (rewrite <- Zle_Qle; lia).
    rewrite H1024 in Hx. change (inject_Z 1) with 1%Q in Hone. nra. }
  assert (lt_1024 (PyFloat x) = false) as ->.
  { simpl. apply negb_false_iff, Qle_bool_iff. done. }
  simpl. apply IH. apply Qle_shift_div_l; [done|].
  rewrite H1024 in Hx. by rewrite Qmult_comm.
Qed.

Lemma format_size_loop_cons (unit : string) (rest : list string) (v : pynum) :
  format_size_loop (unit :: rest) v
  = if lt_1024 v
    then match format_2f v with
         | Ret digits => Ret (Some (digits +:+ " " +:+ unit))
         | Raise e => Raise e
         end
    else match div_1024 v with
         | Ret v' => format_size_loop rest v'
         | Raise e => Raise e
         end.
Proof. reflexivity. Qed.

(** C10. From 1024 terabytes on, [format_size] returns no string: its loop
    runs through all five units and the function returns [None] (for every
    size a float can hold; a larger integer cannot be divided and raises
    instead). *)
Theorem format_size_beyond_terabytes (size_bytes : Z) :
  1024 ^ 5 <= size_bytes ->
  (forall s, format_size size_bytes <> Ret (Some s))
  /\ (size_bytes < 2 ^ 1023 -> format_size size_bytes = Ret None).
Proof.
  intros Hsize.
  assert (forall x, float_of_int size_bytes = Some x ->
                    format_size size_bytes = Ret None) as Hsome.
  { intros x Hx. unfold format_size. rewrite format_size_loop_cons.
    assert (lt_1024 (PyInt size_bytes) = false) as ->.
    { simpl. apply Z.ltb_ge. lia. }
    simpl div_1024. rewrite Hx. apply format_size_loop_exhausts.
    apply float_of_int_lower_bound in Hx; [|lia].
    apply Qle_shift_div_l; [done|].
    change (inject_Z (1024 ^ Z.of_nat (length ["KB"; "MB"; "GB"; "TB"])) * (1024 # 1))%Q
      with (inject_Z (1024 ^ 4) * inject_Z 1024)%Q.
    rewrite <- inject_Z_mult. done. }
  split.
  - intros s. destruct (float_of_int size_bytes) as [x|] eqn:Hx.
    + by rewrite (Hsome x eq_refl).
    + unfold format_size. rewrite format_size_loop_cons.
      assert (lt_1024 (PyInt size_bytes) = false) as ->.
      { simpl. apply Z.ltb_ge. lia. }
      simpl div_1024. by rewrite Hx.
  - intros Hbound. destruct (float_of_int_defined size_bytes) as [x Hx]; [lia|].
    by apply (Hsome x).
Qed.

Example format_size_samples :
  format_size 0 = Ret (Some "0.00 B")
  /\ format_size 1536 = Ret (Some "1.50 KB")
  /\ format_size 123456789 = Ret (Some "117.74 MB")
  /\ format_size (1024 ^ 5 - 1) = Ret (Some "1024.00 TB")
  /\ format_size (1024 ^ 5) = Ret None
  /\ format_size (2 ^ 1024) = Raise OverflowError.
Proof. repeat split; vm_compute; reflexivity. Qed.

Lemma format_size_beyond_terabytes_witness :
  format_size (1024 ^ 5) = Ret None
  /\ forall s, format_size (3 * 1024 ^ 5 + 17) <> Ret (Some s).
Proof.
  split.
  - apply (format_size_beyond_terabytes (1024 ^ 5)); [reflexivity|reflexivity].
  - apply (format_size_beyond_terabytes (3 * 1024 ^ 5 + 17)). vm_compute. discriminate.
Defined.

(** * Further properties *)

(** ** Ordered dictionaries: the list under a key *)

Section odict_values.
Context {K V : Type} `{EqDecision K}.

Lemma values_of_append (k k' : K) (v : V) (d : list (K * list V)) :
  values_of k' (ODict.append k v d)
  = if decide (k' = k) then values_of k d ++ [v] else values_of k' d.
Proof.
  induction d as [|[k0 vs] d IH]; simpl.
  - destruct (decide (k = k')) as [->|Hne].
    + by rewrite decide_True.
    + rewrite decide_False; [done|congruence].
  - destruct (decide (k0 = k)) as [->|Hne]; simpl.
    + destruct (decide (k = k')) as [->|Hne'].
      * by rewrite decide_True.
      * rewrite decide_False; [done|congruence].
    + destruct (decide (k0 = k')) as [->|Hne'].
      * rewrite decide_False; [done|congruence].
      * apply IH.
Qed.

Lemma values_of_elem (k : K) (vs : list V) (d : list (K * list V)) :
  NoDup d.*1 -> (k, vs) ∈ d -> values_of k d = vs.
Proof.
  induction d as [|[k0 vs0] d IH]; intros Hnd Hin; [by apply elem_of_nil in Hin|].
  change (NoDup (k0 :: d.*1)) in Hnd. apply NoDup_cons in Hnd as [Hk0 Hnd].
  simpl. apply elem_of_cons in Hin as [[= -> ->]|Hin].
  - by rewrite decide_True.
  - rewrite decide_False; [by apply IH|].
    intros ->. apply Hk0. apply list_elem_of_fmap. by exists (k, vs).
Qed.

Lemma values_of_nonempty (k : K) (d : list (K * list V)) :
  values_of k d <> [] -> (k, values_of k d) ∈ d.
Proof.
  induction d as [|[k0 vs0] d IH]; simpl; [done|].
  destruct (decide (k0 = k)) as [->|Hne]; intros Hv; [left|right; by apply IH].
Qed.

End odict_values.

Lemma more_than_one_keys_NoDup {K W : Type} (d : list (K * list W)) :
  NoDup d.*1 -> NoDup (ODict.more_than_one d).*1.
Proof.
  intros Hnd. apply (sublist_NoDup _ d.*1); [done|].
  apply fmap_sublist. unfold ODict.more_than_one. apply sublist_filter.
Qed.

(** ** Detection: which records are read *)

Lemma size_groups_keys_NoDup fl : NoDup (size_groups fl).*1.
Proof.
  unfold size_groups.
  assert (forall (acc : list (Z * list (string * Z))), NoDup acc.*1 ->
            NoDup (fold_left
                     (fun sg '(file_path, file_size, mtime) =>
                        ODict.append file_size (file_path, mtime) sg) fl acc).*1)
    as Hgen.
  { induction fl as [|[[p s] m] fl IH]; intros acc Hacc; simpl; [done|].
    apply IH. by apply append_keys_NoDup. }
  apply Hgen. constructor.
Qed.

Lemma values_of_size_groups fl (s : Z) :
  values_of s (size_groups fl)
  = (fun r => (path_of r, mtime_of r)) <$> filter (fun r => size_of r = s) fl.
Proof.
  unfold size_groups.
  assert (forall (acc : list (Z * list (string * Z))),
            values_of s
              (fold_left
                 (fun sg '(file_path, file_size, mtime) =>
                    ODict.append file_size (file_path, mtime) sg) fl acc)
            = values_of s acc
              ++ ((fun r => (path_of r, mtime_of r))
                    <$> filter (fun r => size_of r = s) fl)) as Hgen.
  { induction fl as [|[[p s'] m] fl IH]; intros acc; simpl.
    - by rewrite app_nil_r.
    - rewrite IH, values_of_append, filter_cons.
      destruct (decide (s = s')) as [->|Hne].
      + rewrite decide_True by done. by rewrite <- app_assoc.
      + rewrite decide_False; [done|]. unfold size_of. simpl. congruence. }
  by rewrite Hgen.
Qed.

Lemma candidate_records_iff fl r :
  r ∈ candidate_records fl
  <-> r ∈ fl /\ (2 <= length (same_size_records fl r))%nat.
Proof.
  unfold candidate_records, candidate_groups, flatten_groups, same_size_records.
  rewrite list_elem_of_In, in_flat_map. split.
  - intros ([s es] & Hg & Hr). apply list_elem_of_In in Hg, Hr.
    apply elem_of_more_than_one in Hg as [Hg Hlen]. simpl in *.
    pose proof (values_of_elem _ _ _ (size_groups_keys_NoDup fl) Hg) as Hes.
    rewrite values_of_size_groups in Hes. subst es.
    apply list_elem_of_fmap in Hr as ([p m] & -> & He). simpl.
    apply list_elem_of_fmap in He as ([[p' s'] m'] & [= -> ->] & Hr').
    apply list_elem_of_filter in Hr' as [Hs Hr']. unfold size_of in Hs. simpl in Hs.
    subst s'. split; [done|]. rewrite length_fmap in Hlen.
    change (size_of (path_of (p', s, m'), s, m')) with s. lia.
  - intros [Hr Hlen]. destruct r as [[p s] m]. change (size_of (p, s, m)) with s in Hlen.
    exists (s, values_of s (size_groups fl)). split.
    + apply list_elem_of_In, elem_of_more_than_one. split.
      * apply values_of_nonempty. rewrite values_of_size_groups.
        intros Hnil. apply (f_equal length) in Hnil. rewrite length_fmap in Hnil.
        simpl in Hnil. lia.
      * simpl. rewrite values_of_size_groups, length_fmap. lia.
    + apply list_elem_of_In. simpl. rewrite values_of_size_groups.
      apply list_elem_of_fmap. exists (p, m). split; [done|].
      apply list_elem_of_fmap. exists (p, s, m). split; [done|].
      apply list_elem_of_filter. done.
Qed.

Section detection_reads.
Context {D : Type} `{Hashlib D}.
Variable read_blocks : string -> read_outcome.
Implicit Types (fl : list (string * Z * Z)) (r : string * Z * Z).
Implicit Types (oc : option (gmap string CacheEntry)).

Lemma processed_process_records l : forall st,
  processed (process_records read_blocks st l) = (processed st + length l)%nat.
Proof.
  unfold process_records. induction l as [|r l IH]; intros st; simpl; [lia|].
  rewrite IH, process_record_classify.
  destruct (classify read_blocks (cache st) r); simpl; lia.
Qed.

(** X1. A record is looked up or digested exactly when at least two records
    of the input have its size, and the loop handles each such record
    once. *)
Theorem only_shared_sizes_are_processed fl oc :
  (forall r, r ∈ candidate_records fl
             <-> r ∈ fl /\ (2 <= length (same_size_records fl r))%nat)
  /\ processed (detect_run read_blocks fl oc) = length (candidate_records fl).
Proof.
  split; [apply candidate_records_iff|].
  unfold detect_run. rewrite process_groups_flatten, processed_process_records.
  done.
Qed.

Lemma filter_none {A : Type} (P : A -> Prop) `{forall x, Decision (P x)} (xs : list A) :
  (forall x, x ∈ xs -> ~ P x) -> filter P xs = [].
Proof.
  induction xs as [|x xs IH]; intros Hno; [done|].
  rewrite filter_cons, decide_False; [|apply Hno; left].
  apply IH. intros y Hy. apply Hno. by right.
Qed.

Lemma same_size_at_most_one fl (s : Z) :
  NoDup (size_of <$> fl) ->
  (length (filter (fun r => size_of r = s) fl) <= 1)%nat.
Proof.
  induction fl as [|r' fl IH]; intros Hnd; [simpl; lia|].
  change (NoDup (size_of r' :: (size_of <$> fl))) in Hnd.
  apply NoDup_cons in Hnd as [Hnotin Hnd].
  rewrite filter_cons. destruct (decide (size_of r' = s)) as [Heq|Hne]; [|by apply IH].
  rewrite filter_none; [simpl; lia|].
  intros x Hx Hs. apply Hnotin. rewrite Heq, <- Hs. by apply list_elem_of_fmap_2.
Qed.

(** X2. When no two records of the input have the same size, detection
    looks nothing up and reads no file: the loop state is the initial one
    (the cache included) and there is no group. *)
Theorem distinct_sizes_read_nothing fl (w : Z) oc :
  NoDup (size_of <$> fl) ->
  detect_run read_blocks fl oc = initial_state oc
  /\ find_duplicates_parallel read_blocks fl w oc = [].
Proof.
  intros Hnd.
  assert (candidate_groups fl = []) as Hnone.
  { unfold candidate_groups, ODict.more_than_one. apply filter_none.
    intros [s es] Hg Hlen. apply bool_decide_unpack in Hlen. simpl in Hlen.
    pose proof (values_of_elem _ _ _ (size_groups_keys_NoDup fl) Hg) as Hes.
    rewrite values_of_size_groups in Hes. subst es. rewrite length_fmap in Hlen.
    pose proof (same_size_at_most_one fl s Hnd). lia. }
  assert (detect_run read_blocks fl oc = initial_state oc) as Hrun.
  { unfold detect_run. by rewrite Hnone. }
  split; [done|]. unfold find_duplicates_parallel. by rewrite Hrun.
Qed.

Lemma counters_process_records l : forall st,
  let st' := process_records read_blocks st l in
  (from_cache st' + digest_calls st'
   <= from_cache st + digest_calls st + length l)%nat
  /\ (digest_failures st' + digest_calls st
      <= digest_failures st + digest_calls st')%nat
  /\ (cache st = None ->
      cache st' = None /\ from_cache st' = from_cache st
      /\ digest_calls st' = (digest_calls st + length l)%nat).
Proof.
  unfold process_records. induction l as [|r l IH]; intros st; simpl.
  - split; [lia|]. split; [lia|]. intros Hc. repeat split; try done; lia.
  - destruct (IH (process_record read_blocks st r)) as (H1 & H2 & H3).
    rewrite process_record_classify in *.
    destruct (cache st) as [c|] eqn:Hc.
    + destruct (classify read_blocks (Some c) r); simpl in *;
        repeat split; try lia; done.
    + assert ((exists h, classify read_blocks None r = Digested h)
              \/ classify read_blocks None r = DigestFailed) as [[h Hcl]|Hcl].
      { unfold classify. destruct (get_file_hash read_blocks (path_of r)); eauto. }
      * rewrite Hcl in *. simpl in *. rewrite Hc in *. simpl in *.
        destruct (H3 eq_refl) as (? & ? & ?). repeat split; try lia; done.
      * rewrite Hcl in *. simpl in *.
        destruct (H3 Hc) as (? & ? & ?). repeat split; try lia; done.
Qed.

(** X3. Every processed record is a cache hit, a digest call or neither,
    never both: hits plus digest calls do not exceed the records processed,
    and failures do not exceed the calls.  Without a cache there is no hit
    and every candidate record is digested. *)
Theorem hits_and_digests_account fl oc :
  let st := detect_run read_blocks fl oc in
  (from_cache st + digest_calls st <= processed st)%nat
  /\ (digest_failures st <= digest_calls st)%nat
  /\ (oc = None ->
      from_cache st = 0%nat /\ digest_calls st = processed st /\ cache st = None).
Proof.
  intros st. unfold st, detect_run. rewrite process_groups_flatten.
  change (flatten_groups (candidate_groups fl)) with (candidate_records fl).
  pose proof (processed_process_records (candidate_records fl) (initial_state oc))
    as Hp.
  destruct (counters_process_records (candidate_records fl) (initial_state oc))
    as (H1 & H2 & H3).
  set (final := process_records read_blocks (initial_state oc) (candidate_records fl))
    in *.
  change (processed (initial_state oc)) with 0%nat in Hp.
  change (from_cache (initial_state oc)) with 0%nat in H1, H3.
  change (digest_calls (initial_state oc)) with 0%nat in H1, H2, H3.
  change (digest_failures (initial_state oc)) with 0%nat in H2.
  change (cache (initial_state oc)) with oc in H3.
  split; [lia|]. split; [lia|].
  intros Hoc. destruct (H3 Hoc) as (? & ? & ?). split; [lia|]. split; [lia|done].
Qed.

Lemma hashes_map_process_record st r :
  hashes_map (process_record read_blocks st r)
  = add_fingerprint (classify read_blocks (cache st) r) (path_of r) (hashes_map st).
Proof.
  rewrite process_record_classify. by destruct (classify read_blocks (cache st) r).
Qed.

Lemma add_fingerprint_keys_NoDup o p (hm : list (string * list string)) :
  NoDup hm.*1 -> NoDup (add_fingerprint o p hm).*1.
Proof.
  intros Hnd. unfold add_fingerprint. destruct (fingerprint_of o); [|done].
  by apply append_keys_NoDup.
Qed.

Lemma hashes_map_keys_NoDup l : forall st,
  NoDup (hashes_map st).*1 ->
  NoDup (hashes_map (process_records read_blocks st l)).*1.
Proof.
  unfold process_records. induction l as [|r l IH]; intros st Hnd; simpl; [done|].
  apply IH. rewrite hashes_map_process_record. by apply add_fingerprint_keys_NoDup.
Qed.

Lemma mem_process_records l : forall st h p,
  ODict.mem h p (hashes_map (process_records read_blocks st l)) ->
  ODict.mem h p (hashes_map st) \/ exists r, r ∈ l /\ path_of r = p.
Proof.
  unfold process_records. induction l as [|r l IH]; intros st h p Hm; simpl in *.
  - by left.
  - apply IH in Hm as [Hm|(r' & Hr' & Hp)].
    + rewrite hashes_map_process_record in Hm. unfold add_fingerprint in Hm.
      destruct (fingerprint_of _) as [h'|]; [|by left].
      apply mem_append in Hm as [Hm|[_ ->]]; [by left|].
      right. exists r. split; [left|done].
    + right. exists r'. split; [by right|done].
Qed.

(** X4. Whatever the input and the cache: the emitted groups have pairwise
    different fingerprints, each has at least two members, and every member
    is the path of an input record whose size another record shares. *)
Theorem groups_are_well_formed fl (w : Z) oc :
  NoDup (find_duplicates_parallel read_blocks fl w oc).*1
  /\ Forall (fun g => (2 <= length g.2)%nat)
       (find_duplicates_parallel read_blocks fl w oc)
  /\ (forall g p,
        g ∈ find_duplicates_parallel read_blocks fl w oc -> p ∈ g.2 ->
        exists r, r ∈ fl /\ path_of r = p
                  /\ (2 <= length (same_size_records fl r))%nat).
Proof.
  unfold find_duplicates_parallel, detect_run. rewrite process_groups_flatten.
  split; [|split].
  - apply more_than_one_keys_NoDup, hashes_map_keys_NoDup. constructor.
  - apply Forall_forall. intros g Hg. apply elem_of_more_than_one in Hg as [_ Hlen]. lia.
  - intros g p Hg Hp. apply elem_of_more_than_one in Hg as [Hg _].
    assert (ODict.mem g.1 p
              (hashes_map (process_records read_blocks (initial_state oc)
                             (candidate_records fl)))) as Hm.
    { exists g.2. split; [by destruct g|done]. }
    apply mem_process_records in Hm as [Hm|(r & Hr & Hpath)].
    + by apply mem_nil in Hm.
    + apply candidate_records_iff in Hr as [Hr Hlen]. by exists r.
Qed.

Lemma values_of_fold_fingerprints (f : string * Z * Z -> outcome) l (h : string) :
  forall hm,
    values_of h (fold_left (fun hm r => add_fingerprint (f r) (path_of r) hm) l hm)
    = values_of h hm
      ++ (path_of <$> filter (fun r => fingerprint_of (f r) = Some h) l).
Proof.
  induction l as [|r l IH]; intros hm; simpl.
  - by rewrite app_nil_r.
  - rewrite IH, filter_cons. unfold add_fingerprint.
    destruct (fingerprint_of (f r)) as [h'|] eqn:Hf.
    + rewrite values_of_append. destruct (decide (h = h')) as [->|Hne].
      * rewrite decide_True by done. by rewrite <- app_assoc.
      * rewrite decide_False; [done|congruence].
    + rewrite decide_False; [done|congruence].
Qed.

(** X5. With distinct input paths, the member list of every group is the
    paths of the candidate records that resolve to its fingerprint, in the
    order the loop visits them; no group lists a path twice and no path is a
    member of two groups. *)
Theorem groups_partition_the_grouped_paths fl (w : Z) oc :
  NoDup (path_of <$> fl) ->
  (forall g, g ∈ find_duplicates_parallel read_blocks fl w oc ->
     g.2 = path_of <$> filter (fun r => resolve read_blocks oc r = Some g.1)
                         (candidate_records fl)
     /\ NoDup g.2)
  /\ (forall g g' p,
        g ∈ find_duplicates_parallel read_blocks fl w oc ->
        g' ∈ find_duplicates_parallel read_blocks fl w oc ->
        p ∈ g.2 -> p ∈ g'.2 -> g = g').
Proof.
  intros Hnd.
  pose proof (candidate_records_NoDup fl Hnd) as Hndc.
  assert (forall g, g ∈ find_duplicates_parallel read_blocks fl w oc ->
            g.2 = path_of <$> filter (fun r => resolve read_blocks oc r = Some g.1)
                                (candidate_records fl)) as Hmembers.
  { intros [h ms] Hg. simpl. unfold find_duplicates_parallel in Hg.
    apply elem_of_more_than_one in Hg as [Hg _].
    assert (NoDup (hashes_map (detect_run read_blocks fl oc)).*1) as Hkeys.
    { unfold detect_run. rewrite process_groups_flatten.
      apply hashes_map_keys_NoDup. constructor. }
    rewrite <- (values_of_elem _ _ _ Hkeys Hg).
    rewrite detect_run_replay, hashes_map_replay by done.
    by rewrite values_of_fold_fingerprints. }
  split.
  - intros g Hg. split; [by apply Hmembers|]. rewrite (Hmembers g Hg).
    apply (sublist_NoDup _ (path_of <$> candidate_records fl)); [done|].
    apply fmap_sublist, sublist_filter.
  - intros [h ms] [h' ms'] p Hg Hg' Hp Hp'.
    destruct (grouped_resolves read_blocks fl w oc _ p Hnd Hg Hp)
      as (r & Hr & Hpath & Hres).
    destruct (grouped_resolves read_blocks fl w oc _ p Hnd Hg' Hp')
      as (r' & Hr' & Hpath' & Hres').
    assert (r' = r) as ->.
    { eapply (NoDup_fmap_eq path_of (candidate_records fl)); eauto. congruence. }
    simpl in *. assert (h' = h) as -> by congruence.
    f_equal. pose proof (Hmembers _ Hg) as H1. pose proof (Hmembers _ Hg') as H2.
    simpl in *. congruence.
Qed.

(** X6. With distinct input paths and a cache in use, the cache written
    after the run keeps every entry it had for a path that is not a candidate,
    never loses a path, and holds a valid entry, with the fingerprint the run
    used, for every record that got one. *)
Theorem saved_cache_answers_for_the_run fl (c : gmap string CacheEntry) :
  NoDup (path_of <$> fl) ->
  exists c1,
    cache (detect_run read_blocks fl (Some c)) = Some c1
    /\ (forall p, p ∉ path_of <$> candidate_records fl -> c1 !! p = c !! p)
    /\ (forall p, is_Some (c !! p) -> is_Some (c1 !! p))
    /\ (forall r h, r ∈ candidate_records fl ->
          resolve read_blocks (Some c) r = Some h ->
          HashCache.get c1 (path_of r) (size_of r) (mtime_of r) = Some h).
Proof.
  intros Hnd. pose proof (candidate_records_NoDup fl Hnd) as Hndc.
  destruct (cache_replay_Some read_blocks (Some c) (candidate_records fl)
              (initial_state (Some c)) c eq_refl) as (c1 & Hc1 & Hout & Hin).
  rewrite <- detect_run_replay in Hc1 by done.
  exists c1. split; [done|]. split; [done|]. split.
  - intros p Hp.
    destruct (decide (p ∈ path_of <$> candidate_records fl)) as [Hel|Hnel].
    + apply list_elem_of_fmap in Hel as (r & -> & Hr). rewrite (Hin Hndc r Hr).
      by destruct (classify read_blocks (Some c) r).
    + by rewrite Hout.
  - intros r h Hr Hres. specialize (Hin Hndc r Hr).
    unfold resolve, classify in *.
    destruct (HashCache.get c (path_of r) (size_of r) (mtime_of r)) as [h0|] eqn:Hget.
    + assert (c1 !! path_of r = c !! path_of r) as Heq by (by destruct (truthy h0)).
      rewrite (get_lookup_eq _ _ _ _ _ Heq), Hget.
      destruct (truthy h0); simpl in Hres; congruence.
    + destruct (get_file_hash read_blocks (path_of r)) as [h0|]; [|done].
      simpl in Hres. injection Hres as ->.
      apply get_Some_iff. eexists. split; [done|]. done.
Qed.

End detection_reads.

(** X7. Storing and looking up: the fingerprint stored for a path is
    returned for the stored size and modification time, and for no other
    pair, since the path has one entry; lookups of other paths are
    unaffected. *)
Theorem cache_set_then_get (c : gmap string CacheEntry) (p : string) (s m : Z)
    (h : string) :
  HashCache.get (HashCache.set c p s m h) p s m = Some h
  /\ (forall s' m', (s', m') <> (s, m) ->
        HashCache.get (HashCache.set c p s m h) p s' m' = None)
  /\ (forall q s' m', q <> p ->
        HashCache.get (HashCache.set c p s m h) q s' m' = HashCache.get c q s' m').
Proof.
  split; [|split].
  - apply get_Some_iff. eexists. unfold HashCache.set.
    rewrite lookup_insert_eq. done.
  - intros s' m' Hne. apply get_None_iff. intros e He [Hs Hm].
    unfold HashCache.set in He. rewrite lookup_insert_eq in He.
    injection He as <-. simpl in *. congruence.
  - intros q s' m' Hq. by apply get_set_ne.
Qed.

Lemma distinct_sizes_read_nothing_witness :
  detect_run sample_disk distinct_size_files (Some ∅) = initial_state (Some ∅)
  /\ find_duplicates_parallel sample_disk distinct_size_files 8 (Some ∅) = [].
Proof.
  apply (distinct_sizes_read_nothing sample_disk distinct_size_files 8 (Some ∅)).
  by apply (bool_decide_unpack _).
Defined.

Lemma groups_partition_the_grouped_paths_witness :
  NoDup (path_of <$> sample_files)
  /\ ["/x/1.bin"; "/y/1.bin"]
     = path_of <$> filter (fun r => resolve sample_disk None r = Some "#AAAA")
                          (candidate_records sample_files)
  /\ NoDup ["/x/1.bin"; "/y/1.bin"].
Proof.
  assert (NoDup (path_of <$> sample_files)) as Hnd by by apply (bool_decide_unpack _).
  split; [exact Hnd|].
  destruct (groups_partition_the_grouped_paths sample_disk sample_files 8 None Hnd)
    as [Hmembers _].
  apply (Hmembers ("#AAAA", ["/x/1.bin"; "/y/1.bin"])).
  vm_compute. apply list_elem_of_here.
Defined.

Lemma saved_cache_answers_for_the_run_witness :
  exists c1, cache (detect_run sample_disk sample_files (Some ∅)) = Some c1
             /\ HashCache.get c1 "/y/1.bin" 4 101 = Some "#AAAA".
Proof.
  destruct (saved_cache_answers_for_the_run sample_disk sample_files ∅)
    as (c1 & Hc1 & _ & _ & Hget).
  - by apply (bool_decide_unpack _).
  - exists c1. split; [exact Hc1|].
    apply (Hget ("/y/1.bin", 4, 101)).
    + apply candidate_records_iff. split; [by apply (bool_decide_unpack _)|].
      vm_compute. lia.
    + vm_compute. reflexivity.
Defined.

(** ** Directory matching: the emitted groups *)

Lemma append_values_Permutation {K V : Type} `{EqDecision K} (k : K) (v : V)
    (d : list (K * list V)) :
  concat (ODict.append k v d).*2 ≡ₚ concat d.*2 ++ [v].
Proof.
  induction d as [|[k' vs] d IH]; simpl; [done|].
  destruct (decide (k' = k)) as [->|Hne]; simpl.
  - rewrite <- !app_assoc. apply Permutation_app_head, Permutation_app_comm.
  - rewrite IH. by rewrite app_assoc.
Qed.

Lemma more_than_one_values_sublist {K W : Type} (d : list (K * list W)) :
  concat (ODict.more_than_one d).*2 `sublist_of` concat d.*2.
Proof.
  unfold ODict.more_than_one. induction d as [|[k vs] d IH]; [done|].
  rewrite filter_cons. destruct (decide _); simpl.
  - by apply sublist_app.
  - by apply sublist_inserts_l.
Qed.

Section directory_groups.
Variable dirname : string -> string.
Implicit Types (duplicates : list (string * list string)).

Lemma signature_groups_values duplicates :
  concat (signature_groups dirname duplicates).*2
  ≡ₚ (dir_hashes dirname duplicates).*1.
Proof.
  unfold signature_groups.
  assert (forall (l : list (string * list string))
                 (acc : list (list string * list string)),
            concat (fold_left (fun sg '(dir_path, signature) =>
                                 ODict.append signature dir_path sg) l acc).*2
            ≡ₚ concat acc.*2 ++ l.*1) as Hgen.
  { induction l as [|[d s] l IH]; intros acc; simpl.
    - by rewrite app_nil_r.
    - rewrite IH, append_values_Permutation, <- app_assoc. done. }
  rewrite Hgen, dir_signatures_eq. simpl.
  rewrite <- list_fmap_compose. done.
Qed.

Lemma mem_dir_hashes duplicates (d h : string) :
  ODict.mem d h (dir_hashes dirname duplicates)
  <-> exists ps p, (h, ps) ∈ duplicates /\ p ∈ ps /\ dirname p = d.
Proof.
  unfold dir_hashes.
  assert (forall dups (acc : list (string * list string)),
            ODict.mem d h
              (fold_left
                 (fun dh '(file_hash, file_paths) =>
                    fold_left
                      (fun dh file_path =>
                         ODict.append (dirname file_path) file_hash dh)
                      file_paths dh) dups acc)
            <-> ODict.mem d h acc
                \/ exists ps p, (h, ps) ∈ dups /\ p ∈ ps /\ dirname p = d) as Hgen.
  { induction dups as [|[h' ps'] dups IH]; intros acc; simpl.
    - split; [by left|]. intros [?|(ps & p & Hin & _)]; [done|].
      by apply elem_of_nil in Hin.
    - rewrite IH.
      assert (forall ps0 (acc0 : list (string * list string)),
                ODict.mem d h
                  (fold_left (fun dh file_path =>
                                ODict.append (dirname file_path) h' dh) ps0 acc0)
                <-> ODict.mem d h acc0
                    \/ (h = h' /\ exists p, p ∈ ps0 /\ dirname p = d)) as Hinner.
      { induction ps0 as [|p0 ps0 IHp]; intros acc0; simpl.
        - split; [by left|]. intros [?|(_ & p & Hp & _)]; [done|].
          by apply elem_of_nil in Hp.
        - rewrite IHp, mem_append. split.
          + intros [[?|[Hd0 ->]]|(-> & p & Hp & Hd)]; [by left|right|right].
            * split; [done|]. exists p0. split; [left|done].
            * split; [done|]. exists p. split; [by right|done].
          + intros [?|(-> & p & Hp & Hd)]; [by left; left|].
            apply elem_of_cons in Hp as [->|Hp].
            * left. right. done.
            * right. split; [done|]. by exists p. }
      rewrite Hinner. split.
      + intros [[?|(-> & p & Hp & Hd)]|(ps & p & Hin & Hp & Hd)].
        * by left.
        * right. exists ps', p. split; [left|done].
        * right. exists ps, p. split; [by right|done].
      + intros [?|(ps & p & Hin & Hp & Hd)]; [by left; left|].
        apply elem_of_cons in Hin as [[= -> ->]|Hin].
        * left. right. split; [done|]. by exists p.
        * right. by exists ps, p. }
  rewrite Hgen. split; [|by right].
  intros [Hnil|?]; [|done]. by apply mem_nil in Hnil.
Qed.

(** X8. The emitted groups of directories are disjoint and without
    repetition: a directory occurs at most once in all of them together.
    Every emitted directory is the directory of a member of some duplicate
    group. *)
Theorem directory_groups_are_disjoint {Stats : Type} (statistics : Stats) duplicates :
  NoDup (concat (find_identical_directories dirname statistics duplicates))
  /\ (forall g d,
        g ∈ find_identical_directories dirname statistics duplicates -> d ∈ g ->
        exists h ps p, (h, ps) ∈ duplicates /\ p ∈ ps /\ dirname p = d).
Proof.
  assert (NoDup (concat (find_identical_directories dirname statistics duplicates)))
    as Hnd.
  { unfold find_identical_directories.
    apply (sublist_NoDup _ (concat (signature_groups dirname duplicates).*2)).
    - rewrite signature_groups_values. apply dir_hashes_keys_NoDup.
    - apply more_than_one_values_sublist. }
  split; [done|].
  intros g d Hg Hd.
  assert (d ∈ (dir_hashes dirname duplicates).*1) as Hkey.
  { rewrite <- signature_groups_values.
    eapply elem_of_sublist; [|apply more_than_one_values_sublist].
    apply list_elem_of_In, in_concat. exists g.
    split; apply list_elem_of_In; [|done].
    unfold find_identical_directories in Hg. done. }
  apply list_elem_of_fmap in Hkey as ([d' hs] & -> & Hin). simpl.
  assert (hs <> []) as Hne.
  { intros ->. clear Hg Hd Hnd.
    assert (forall d0, (d0, @nil string) ∉ dir_hashes dirname duplicates) as Hno.
    { intros d0 Hin0.
      assert (forall dups (acc : list (string * list string)),
                (forall k, (k, []) ∉ acc) ->
                forall k, (k, []) ∉
                  fold_left
                    (fun dh '(file_hash, file_paths) =>
                       fold_left
                         (fun dh file_path =>
                            ODict.append (dirname file_path) file_hash dh)
                         file_paths dh) dups acc) as Hgen.
      { assert (forall (k0 : string) (v : string) (acc : list (string * list string)),
                  (forall k, (k, []) ∉ acc) ->
                  forall k, (k, []) ∉ ODict.append k0 v acc) as Hstep.
        { intros k0 v acc. induction acc as [|[k1 vs1] acc IHa]; intros Hacc k; simpl.
          - intros Hk. apply list_elem_of_singleton in Hk. congruence.
          - destruct (decide (k1 = k0)) as [->|Hk1].
            + intros Hk. apply elem_of_cons in Hk as [Hk|Hk].
              * injection Hk as _ Hk. by destruct vs1.
              * apply (Hacc k). by right.
            + intros Hk. apply elem_of_cons in Hk as [Hk|Hk].
              * apply (Hacc k). rewrite Hk. left.
              * revert Hk. apply IHa. intros k' Hk'. apply (Hacc k'). by right. }
        induction dups as [|[h ps] dups IH]; intros acc Hacc k; simpl; [apply Hacc|].
        apply IH. clear IH. revert acc Hacc.
        induction ps as [|p ps IHp]; intros acc Hacc; simpl; [done|].
        apply IHp. by apply Hstep. }
      apply (Hgen duplicates [] (fun k => not_elem_of_nil _) d0 Hin0). }
    by apply (Hno d'). }
  destruct hs as [|h hs]; [done|].
  destruct (proj1 (mem_dir_hashes duplicates d' h)) as (ps & p & Hin' & Hp & Hdir).
  { exists (h :: hs). split; [done|left]. }
  by exists h, ps, p.
Qed.

End directory_groups.

(** ** Selection: what the prompt can and cannot plan *)

Lemma all_but_first_sublist {A : Type} (l : list A) : all_but_first l `sublist_of` l.
Proof. unfold all_but_first. apply sublist_drop. Qed.

Lemma all_but_last_sublist {A : Type} (l : list A) : all_but_last l `sublist_of` l.
Proof. unfold all_but_last. apply sublist_take. Qed.

Lemma not_kept_from_sublist {A : Type} (ks : list Z) (items : list A) : forall idx,
  not_kept_from idx ks items `sublist_of` items.
Proof.
  induction items as [|x items IH]; intros idx; simpl; [done|].
  destruct (decide _); [by apply sublist_cons|by apply sublist_skip].
Qed.

Lemma elem_of_not_kept_from {A : Type} (ks : list Z) (items : list A) (x : A) :
  forall idx,
    x ∈ not_kept_from idx ks items
    <-> exists i, items !! i = Some x /\ Z.of_nat (idx + i) ∉ ks.
Proof.
  induction items as [|y items IH]; intros idx; simpl.
  - split; [intros Hx; by apply elem_of_nil in Hx|]. by intros (i & Hi & _).
  - destruct (decide (Z.of_nat idx ∈ ks)) as [Hin|Hnin].
    + rewrite IH. split.
      * intros (i & Hi & Hk). exists (S i). split; [done|].
        by replace (idx + S i)%nat with (S idx + i)%nat by lia.
      * intros ([|i] & Hi & Hk).
        -- exfalso. apply Hk. by replace (idx + 0)%nat with idx by lia.
        -- exists i. split; [done|].
           by replace (S idx + i)%nat with (idx + S i)%nat by lia.
    + rewrite elem_of_cons, IH. split.
      * intros [->|(i & Hi & Hk)].
        -- exists 0%nat. split; [done|]. by replace (idx + 0)%nat with idx by lia.
        -- exists (S i). split; [done|].
           by replace (idx + S i)%nat with (S idx + i)%nat by lia.
      * intros ([|i] & Hi & Hk).
        -- left. simpl in Hi. congruence.
        -- right. exists i. split; [done|].
           by replace (S idx + i)%nat with (idx + S i)%nat by lia.
Qed.

Section selection_more.
Variable getsize : string -> result Z.

(** What one round over a group of files can do: raise, or extend the plan
    by a sublist of the members of the group, leaving the flag as it was and
    reading at most two lines. *)
Lemma file_group_body_spec (acc : list string) (flag : bool)
    (group : string * list string) (pending : list string) :
  match file_group_body getsize (acc, flag) group pending with
  | Raise _ => True
  | Ret (acc', flag', pending') =>
      flag' = flag
      /\ (exists part, acc' = acc ++ part /\ part `sublist_of` group.2)
      /\ (exists used, pending = used ++ pending'
                       /\ (if flag then used = [] else (1 <= length used <= 2)%nat))
  end.
Proof.
  destruct group as [h members]. unfold file_group_body, bind, lift, input, ret, raise.
  destruct (first_item members) as [m0|e]; [|done].
  destruct (getsize m0) as [size|e]; [|done].
  destruct flag.
  - split; [done|]. split.
    + eexists. split; [done|]. apply all_but_first_sublist.
    + by exists [].
  - destruct pending as [|line pending]; [done|].
    destruct (bool_decide (py_lower (py_strip line) = "s")).
    { split; [done|]. split.
      - exists []. split; [by rewrite app_nil_r|apply sublist_nil_l].
      - exists [line]. simpl. split; [done|lia]. }
    destruct (bool_decide (py_lower (py_strip line) = "a")) eqn:Ha.
    { split; [done|]. split.
      - eexists. split; [done|]. apply all_but_first_sublist.
      - exists [line]. simpl. split; [done|lia]. }
    destruct (bool_decide (py_lower (py_strip line) = "b")).
    { split; [done|]. split.
      - eexists. split; [done|]. apply all_but_last_sublist.
      - exists [line]. simpl. split; [done|lia]. }
    destruct (bool_decide (py_lower (py_strip line) = "m")).
    { destruct pending as [|line' pending]; [done|].
      destruct (keep_indices_of (py_split line')) as [ks|e]; [|done].
      split; [done|]. split.
      - eexists. split; [done|]. apply not_kept_from_sublist.
      - exists [line; line']. simpl. split; [done|lia]. }
    split; [done|]. split.
    + exists []. split; [by rewrite app_nil_r|apply sublist_nil_l].
    + exists [line]. simpl. split; [done|lia].
Qed.

Lemma dir_group_body_spec (acc : list string) (group : list string)
    (pending : list string) :
  match dir_group_body acc group pending with
  | Raise _ => True
  | Ret (acc', pending') =>
      (exists part, acc' = acc ++ part /\ part `sublist_of` group)
      /\ (exists used, pending = used ++ pending' /\ (1 <= length used <= 2)%nat)
  end.
Proof.
  unfold dir_group_body, bind, lift, input, ret, raise.
  destruct pending as [|line pending]; [done|].
  destruct (bool_decide (py_lower (py_strip line) = "s")).
  { split.
    - exists []. split; [by rewrite app_nil_r|apply sublist_nil_l].
    - exists [line]. simpl. split; [done|lia]. }
  destruct (bool_decide (py_lower (py_strip line) = "a")).
  { split.
    - eexists. split; [done|]. apply all_but_first_sublist.
    - exists [line]. simpl. split; [done|lia]. }
  destruct (bool_decide (py_lower (py_strip line) = "b")).
  { split.
    - eexists. split; [done|]. apply all_but_last_sublist.
    - exists [line]. simpl. split; [done|lia]. }
  destruct (bool_decide (py_lower (py_strip line) = "m")).
  { destruct pending as [|line' pending]; [done|].
    destruct (keep_indices_of (py_split line')) as [ks|e]; [|done].
    split.
    - eexists. split; [done|]. apply not_kept_from_sublist.
    - exists [line; line']. simpl. split; [done|lia]. }
  split.
  - exists []. split; [by rewrite app_nil_r|apply sublist_nil_l].
  - exists [line]. simpl. split; [done|lia].
Qed.

Lemma for_each_files_spec (duplicates : list (string * list string)) :
  forall (acc : list string) (flag : bool) (pending : list string),
    match for_each (file_group_body getsize) duplicates (acc, flag) pending with
    | Raise _ => True
    | Ret (acc', flag', pending') =>
        flag' = flag
        /\ (exists parts, acc' = acc ++ concat parts
                          /\ Forall2 (fun part g => part `sublist_of` g.2)
                               parts duplicates)
        /\ (exists used, pending = used ++ pending'
                         /\ (if flag then used = []
                             else (length duplicates <= length used)%nat))
    end.
Proof.
  induction duplicates as [|g dups IH]; intros acc flag pending.
  - simpl. unfold ret. split; [done|]. split.
    + exists []. split; [by rewrite app_nil_r|constructor].
    + exists []. split; [done|]. by destruct flag.
  - cbn [for_each]. unfold bind.
    pose proof (file_group_body_spec acc flag g pending) as Hbody.
    destruct (file_group_body getsize (acc, flag) g pending)
      as [[[acc1 flag1] pending1]|e]; [|done].
    destruct Hbody as (-> & (part & -> & Hpart) & (used1 & -> & Hused1)).
    specialize (IH (acc ++ part) flag pending1).
    destruct (for_each (file_group_body getsize) dups (acc ++ part, flag) pending1)
      as [[[acc2 flag2] pending2]|e]; [|done].
    destruct IH as (-> & (parts & -> & Hparts) & (used2 & -> & Hused2)).
    split; [done|]. split.
    + exists (part :: parts). split; [simpl; by rewrite app_assoc|by constructor].
    + exists (used1 ++ used2). split; [by rewrite app_assoc|].
      destruct flag.
      * by subst.
      * rewrite length_app. simpl. lia.
Qed.

Lemma for_each_dirs_spec (identical_dirs : list (list string)) :
  forall (acc : list string) (pending : list string),
    match for_each dir_group_body identical_dirs acc pending with
    | Raise _ => True
    | Ret (acc', pending') =>
        (exists parts, acc' = acc ++ concat parts
                       /\ Forall2 (fun part g => part `sublist_of` g)
                            parts identical_dirs)
        /\ (exists used, pending = used ++ pending'
                         /\ (length identical_dirs <= length used)%nat)
    end.
Proof.
  induction identical_dirs as [|g dirs IH]; intros acc pending.
  - simpl. unfold ret. split.
    + exists []. split; [by rewrite app_nil_r|constructor].
    + exists []. split; [done|simpl; lia].
  - cbn [for_each]. unfold bind.
    pose proof (dir_group_body_spec acc g pending) as Hbody.
    destruct (dir_group_body acc g pending) as [[acc1 pending1]|e]; [|done].
    destruct Hbody as ((part & -> & Hpart) & (used1 & -> & Hused1)).
    specialize (IH (acc ++ part) pending1).
    destruct (for_each dir_group_body dirs (acc ++ part) pending1)
      as [[acc2 pending2]|e]; [|done].
    destruct IH as ((parts & -> & Hparts) & (used2 & -> & Hused2)).
    split.
    + exists (part :: parts). split; [simpl; by rewrite app_assoc|by constructor].
    + exists (used1 ++ used2). split; [by rewrite app_assoc|].
      rewrite length_app. simpl. lia.
Qed.

(** X9. Whatever is typed, a plan returned by [interactive_selection] is
    made of one part per group, each part a sublist of the members of its
    group in their order: only members of the given groups are planned, files
    from file groups and directories from directory groups. *)
Theorem plan_is_made_of_group_members {Stats : Type} (statistics : Stats)
    (duplicates : list (string * list string)) (identical_dirs : list (list string))
    (auto_select_first : bool) (pending rest : list string)
    (files_to_delete dirs_to_delete : list string) :
  interactive_selection getsize duplicates identical_dirs statistics
    auto_select_first pending
  = Ret (files_to_delete, dirs_to_delete, rest) ->
  (exists parts, files_to_delete = concat parts
                 /\ Forall2 (fun part g => part `sublist_of` g.2) parts duplicates)
  /\ (exists parts, dirs_to_delete = concat parts
                    /\ Forall2 (fun part g => part `sublist_of` g) parts identical_dirs)
  /\ (forall p, p ∈ files_to_delete -> exists g, g ∈ duplicates /\ p ∈ g.2)
  /\ (forall d, d ∈ dirs_to_delete -> exists g, g ∈ identical_dirs /\ d ∈ g).
Proof.
  unfold interactive_selection, bind. intros Hrun.
  pose proof (for_each_files_spec duplicates [] auto_select_first pending) as Hfiles.
  destruct (for_each (file_group_body getsize) duplicates ([], auto_select_first)
              pending) as [[[files flag] pending1]|e]; [|done].
  destruct Hfiles as (_ & (fparts & -> & Hfparts) & _).
  pose proof (for_each_dirs_spec identical_dirs [] pending1) as Hdirs.
  destruct (for_each dir_group_body identical_dirs [] pending1)
    as [[ds pending2]|e]; [|done].
  destruct Hdirs as ((dparts & -> & Hdparts) & _).
  unfold ret in Hrun. simpl in Hrun. injection Hrun as <- <- <-.
  split; [by exists fparts|]. split; [by exists dparts|]. split.
  - intros p Hp. apply list_elem_of_In, in_concat in Hp as (part & Hpart & Hp).
    apply list_elem_of_In in Hpart, Hp.
    apply list_elem_of_lookup in Hpart as [i Hi].
    destruct (Forall2_lookup_l _ _ _ _ _ Hfparts Hi) as (g & Hg & Hsub).
    exists g. split; [by eapply list_elem_of_lookup_2|].
    by eapply elem_of_sublist.
  - intros d Hd. apply list_elem_of_In, in_concat in Hd as (part & Hpart & Hd).
    apply list_elem_of_In in Hpart, Hd.
    apply list_elem_of_lookup in Hpart as [i Hi].
    destruct (Forall2_lookup_l _ _ _ _ _ Hdparts Hi) as (g & Hg & Hsub).
    exists g. split; [by eapply list_elem_of_lookup_2|].
    by eapply elem_of_sublist.
Qed.

(** X10. The prompt never switches to applying the first-copy rule to all
    remaining groups: the answer is lower-cased before it is compared, so the
    branch that sets the flag is never taken.  A run that starts without the
    flag reads at least one line for every group of files and for every group
    of directories. *)
Theorem apply_to_all_is_never_taken {Stats : Type} (statistics : Stats)
    (duplicates : list (string * list string)) (identical_dirs : list (list string)) :
  (forall acc group pending acc' flag' pending',
     file_group_body getsize (acc, false) group pending
     = Ret (acc', flag', pending') -> flag' = false)
  /\ (forall pending plan rest,
        interactive_selection getsize duplicates identical_dirs statistics false
          pending = Ret (plan, rest) ->
        (length duplicates + length identical_dirs + length rest
         <= length pending)%nat).
Proof.
  split.
  - intros acc group pending0 acc' flag' pending' Hbody.
    pose proof (file_group_body_spec acc false group pending0) as Hspec.
    rewrite Hbody in Hspec. by destruct Hspec as [-> _].
  - intros pending plan rest Hrun. unfold interactive_selection, bind in Hrun.
    pose proof (for_each_files_spec duplicates [] false pending) as Hfiles.
    destruct (for_each (file_group_body getsize) duplicates ([], false) pending)
      as [[[files flag] pending1]|e]; [|done].
    destruct Hfiles as (_ & _ & (used1 & -> & Hused1)).
    pose proof (for_each_dirs_spec identical_dirs [] pending1) as Hdirs.
    destruct (for_each dir_group_body identical_dirs [] pending1)
      as [[ds pending2]|e]; [|done].
    destruct Hdirs as (_ & (used2 & -> & Hused2)).
    unfold ret in Hrun. simpl in Hrun. injection Hrun as <- <-.
    rewrite !length_app. lia.
Qed.

(** X11. The answer s, and any answer other than a, b and m, plans nothing
    for the group and reads that one line only. *)
Theorem other_answers_plan_nothing (file_hash m0 : string) (members : list string)
    (size : Z) (line : string) (acc pending : list string) :
  first_item members = Ret m0 ->
  getsize m0 = Ret size ->
  py_lower (py_strip line) <> "a" ->
  py_lower (py_strip line) <> "b" ->
  py_lower (py_strip line) <> "m" ->
  file_group_body getsize (acc, false) (file_hash, members) (line :: pending)
  = Ret (acc, false, pending)
  /\ dir_group_body acc members (line :: pending) = Ret (acc, pending).
Proof.
  intros Hfirst Hsize Ha Hb Hm.
  unfold file_group_body, dir_group_body, bind, lift, input, ret.
  rewrite Hfirst, Hsize. simpl.
  rewrite (bool_decide_eq_false_2 _ Ha), (bool_decide_eq_false_2 _ Hb),
    (bool_decide_eq_false_2 _ Hm).
  by destruct (bool_decide (py_lower (py_strip line) = "s")).
Qed.

(** X12. The manual choice plans exactly the members whose position is not
    among the entered numbers less one, in their order. *)
Theorem manual_choice_plans_the_complement (file_hash m0 : string)
    (members : list string) (size : Z) (line line' : string) (keep_indices : list Z)
    (acc pending : list string) :
  first_item members = Ret m0 ->
  getsize m0 = Ret size ->
  py_lower (py_strip line) = "m" ->
  keep_indices_of (py_split line') = Ret keep_indices ->
  file_group_body getsize (acc, false) (file_hash, members) (line :: line' :: pending)
  = Ret (acc ++ not_kept keep_indices members, false, pending)
  /\ dir_group_body acc members (line :: line' :: pending)
     = Ret (acc ++ not_kept keep_indices members, pending)
  /\ not_kept keep_indices members `sublist_of` members
  /\ (forall x, x ∈ not_kept keep_indices members
                <-> exists i, members !! i = Some x /\ Z.of_nat i ∉ keep_indices).
Proof.
  intros Hfirst Hsize Hline Hkeep. split; [|split; [|split]].
  - unfold file_group_body, bind, lift, input, ret.
    rewrite Hfirst, Hsize. simpl. rewrite Hline. simpl. by rewrite Hkeep.
  - unfold dir_group_body, bind, lift, input, ret.
    simpl. rewrite Hline. simpl. by rewrite Hkeep.
  - apply not_kept_from_sublist.
  - intros x. unfold not_kept. by rewrite elem_of_not_kept_from.
Qed.

Lemma for_each_files_auto (duplicates : list (string * list string)) :
  forall acc pending,
    (forall g, g ∈ duplicates ->
       exists m0 rest size, g.2 = m0 :: rest /\ getsize m0 = Ret size) ->
    for_each (file_group_body getsize) duplicates (acc, true) pending
    = Ret (acc ++ flat_map (fun g => all_but_first g.2) duplicates, true, pending).
Proof.
  induction duplicates as [|[h ms] dups IH]; intros acc pending Hok.
  - simpl. by rewrite app_nil_r.
  - cbn [for_each]. unfold bind.
    destruct (Hok (h, ms)) as (m0 & rest & size & Hms & Hsize); [left|].
    simpl in Hms. subst ms.
    assert (file_group_body getsize (acc, true) (h, m0 :: rest) pending
            = Ret (acc ++ all_but_first (m0 :: rest), true, pending)) as ->.
    { unfold file_group_body, bind, lift, ret. simpl. by rewrite Hsize. }
    rewrite IH.
    + simpl. by rewrite <- app_assoc.
    + intros g Hg. apply Hok. by right.
Qed.

(** X13. Called with the flag set and no directory group, the prompt reads
    nothing and returns the plan of [auto_select_first_copy], provided the
    size of the first member of every group can be read. *)
Theorem flagged_prompt_is_auto_select_first_copy {Stats : Type} (statistics : Stats)
    (duplicates : list (string * list string)) (pending : list string) :
  (forall g, g ∈ duplicates ->
     exists m0 rest size, g.2 = m0 :: rest /\ getsize m0 = Ret size) ->
  interactive_selection getsize duplicates [] statistics true pending
  = Ret (auto_select_first_copy duplicates [], pending).
Proof.
  intros Hok. unfold interactive_selection, bind.
  rewrite for_each_files_auto by done. simpl.
  by rewrite auto_select_first_copy_eq.
Qed.

Lemma for_each_app {A S : Type} (body : S -> A -> Console S) (l1 l2 : list A) :
  forall (s : S) (pending : list string),
    for_each body (l1 ++ l2) s pending
    = match for_each body l1 s pending with
      | Ret (s', pending') => for_each body l2 s' pending'
      | Raise e => Raise e
      end.
Proof.
  induction l1 as [|x l1 IH]; intros s pending; [done|].
  cbn [app for_each]. unfold bind.
  destruct (body s x pending) as [[s1 pending1]|e]; [apply IH|done].
Qed.

(** X14. The prompt examines the first member of a group of files before
    anything else, whatever the flag: once the groups before it are handled,
    a size that cannot be read ends the whole selection with that exception
    and no plan.  A group of files reached without the flag, and a group of
    directories reached with or without it, when no input is left ends the
    selection with EOFError. *)
Theorem selection_errors {Stats : Type} (statistics : Stats)
    (before after duplicates : list (string * list string)) (file_hash m0 : string)
    (rest : list string) (dirs_before dirs_after identical_dirs : list (list string))
    (dir_group : list string) (flag : bool) (pending : list string) :
  (forall plan left,
     interactive_selection getsize before [] statistics flag pending
     = Ret (plan, left) ->
     (forall e, getsize m0 = Raise e ->
        interactive_selection getsize (before ++ (file_hash, m0 :: rest) :: after)
          identical_dirs statistics flag pending = Raise e)
     /\ (forall size, getsize m0 = Ret size -> flag = false -> left = [] ->
           interactive_selection getsize (before ++ (file_hash, m0 :: rest) :: after)
             identical_dirs statistics flag pending = Raise EOFError))
  /\ (forall plan,
        interactive_selection getsize duplicates dirs_before statistics flag pending
        = Ret (plan, []) ->
        interactive_selection getsize duplicates (dirs_before ++ dir_group :: dirs_after)
          statistics flag pending = Raise EOFError).
Proof.
  split.
  - intros plan left Hbefore.
    unfold interactive_selection, bind in Hbefore.
    pose proof (for_each_files_spec before [] flag pending) as Hspec.
    destruct (for_each (file_group_body getsize) before ([], flag) pending)
      as [[[files flag'] pending1]|e0] eqn:Hloop; [|done].
    destruct Hspec as (-> & _ & _).
    cbn [for_each] in Hbefore. unfold ret in Hbefore. injection Hbefore as _ <-.
    split.
    + intros e Hfail. unfold interactive_selection, bind.
      rewrite for_each_app, Hloop. cbn [for_each]. unfold bind.
      unfold file_group_body at 1, bind, lift, raise. simpl. by rewrite Hfail.
    + intros size Hsize -> ->. unfold interactive_selection, bind.
      rewrite for_each_app, Hloop. cbn [for_each]. unfold bind.
      unfold file_group_body at 1, bind, lift, input, ret. simpl. by rewrite Hsize.
  - intros plan Hbefore. unfold interactive_selection, bind in *.
    destruct (for_each (file_group_body getsize) duplicates ([], flag) pending)
      as [[files pending1]|e0]; [|done].
    rewrite for_each_app.
    destruct (for_each dir_group_body dirs_before [] pending1)
      as [[ds pending2]|e0]; [|done].
    unfold ret in Hbefore. injection Hbefore as _ ->.
    cbn [for_each]. unfold bind. by unfold dir_group_body at 1, bind, input.
Qed.

End selection_more.

Lemma plan_is_made_of_group_members_witness :
  interactive_selection sample_getsize [("h", ["a"; "b"; "c"])] [] tt false ["m"; "2"]
  = Ret (["a"; "c"], [], [])
  /\ exists g, g ∈ [("h", ["a"; "b"; "c"])] /\ "c" ∈ g.2.
Proof.
  assert (interactive_selection sample_getsize [("h", ["a"; "b"; "c"])] [] tt false
            ["m"; "2"] = Ret (["a"; "c"], [], [])) as Hrun
    by (vm_compute; reflexivity).
  split; [exact Hrun|].
  destruct (plan_is_made_of_group_members sample_getsize tt [("h", ["a"; "b"; "c"])]
              [] false ["m"; "2"] [] ["a"; "c"] [] Hrun) as (_ & _ & Hfiles & _).
  apply Hfiles. by apply (bool_decide_unpack _).
Defined.

Lemma apply_to_all_is_never_taken_witness :
  interactive_selection sample_getsize [("h", ["a"; "b"]); ("g", ["c"; "d"])] [] tt
    false ["A"; "s"] = Ret (["b"], [], [])
  /\ (2 + 0 + 0 <= 2)%nat.
Proof.
  destruct (apply_to_all_is_never_taken sample_getsize tt
              [("h", ["a"; "b"]); ("g", ["c"; "d"])] []) as [_ Hlines].
  assert (interactive_selection sample_getsize [("h", ["a"; "b"]); ("g", ["c"; "d"])]
            [] tt false ["A"; "s"] = Ret (["b"], [], [])) as Hrun
    by (vm_compute; reflexivity).
  split; [exact Hrun|]. exact (Hlines ["A"; "s"] (["b"], []) [] Hrun).
Defined.

Lemma other_answers_plan_nothing_witness :
  file_group_body sample_getsize (["z"], false) ("h", ["a"; "b"]) ["x"; "s"]
  = Ret (["z"], false, ["s"]).
Proof.
  apply (other_answers_plan_nothing sample_getsize "h" "a" ["a"; "b"] 4 "x" ["z"] ["s"]);
    (reflexivity || (vm_compute; discriminate)).
Defined.

Lemma manual_choice_plans_the_complement_witness :
  file_group_body sample_getsize ([], false) ("h", ["a"; "b"; "c"]) ["m"; "2 9"]
  = Ret (["a"; "c"], false, []).
Proof.
  apply (manual_choice_plans_the_complement sample_getsize "h" "a" ["a"; "b"; "c"] 4
           "m" "2 9" [1; 8] [] []); vm_compute; reflexivity.
Defined.

Lemma flagged_prompt_is_auto_select_first_copy_witness :
  interactive_selection sample_getsize [("h", ["a"; "b"; "c"]); ("g", ["d"; "e"])] []
    tt true ["unread"]
  = Ret (["b"; "c"; "e"], [], ["unread"]).
Proof.
  apply (flagged_prompt_is_auto_select_first_copy sample_getsize tt
           [("h", ["a"; "b"; "c"]); ("g", ["d"; "e"])] ["unread"]).
  intros g Hg. apply elem_of_cons in Hg as [->|Hg].
  - by exists "a", ["b"; "c"], 4.
  - apply list_elem_of_singleton in Hg as ->. by exists "d", ["e"], 4.
Defined.

Lemma selection_errors_witness :
  interactive_selection getsize_but_gone
    [("h", ["/a"; "/b"]); ("g", ["/gone"; "/c"])] [["/p"; "/q"]] tt true []
  = Raise OSError
  /\ interactive_selection getsize_but_gone
       [("h", ["/a"; "/b"]); ("g", ["/c"; "/d"])] [] tt false ["a"]
     = Raise EOFError
  /\ interactive_selection getsize_but_gone
       [("h", ["/a"; "/b"])] [["/p"; "/q"]; ["/r"; "/s"]] tt true ["b"]
     = Raise EOFError.
Proof.
  split; [|split].
  - destruct (selection_errors getsize_but_gone tt [("h", ["/a"; "/b"])] [] [] "g"
                "/gone" ["/c"] [] [] [["/p"; "/q"]] [] true []) as [Hfiles _].
    destruct (Hfiles (["/b"], []) []) as [Hgone _]; [vm_compute; reflexivity|].
    by apply Hgone.
  - destruct (selection_errors getsize_but_gone tt [("h", ["/a"; "/b"])] [] [] "g"
                "/c" ["/d"] [] [] [] [] false ["a"]) as [Hfiles _].
    destruct (Hfiles (["/b"], []) []) as [_ Heof]; [vm_compute; reflexivity|].
    by apply (Heof 4).
  - destruct (selection_errors getsize_but_gone tt [] [] [("h", ["/a"; "/b"])] "g"
                "/c" [] [["/p"; "/q"]] [] [] ["/r"; "/s"] true ["b"]) as [_ Hdirs].
    apply (Hdirs (["/b"], ["/p"])). vm_compute. reflexivity.
Defined.

(** ** execute_deletion: the report *)

Lemma sum_Z_app (l k : list Z) : sum_Z (l ++ k) = sum_Z l + sum_Z k.
Proof. unfold sum_Z. induction l as [|x l IH]; simpl; lia. Qed.

Lemma count_app {A : Type} (f : A -> bool) (xs ys : list A) :
  count f (xs ++ ys) = (count f xs + count f ys)%nat.
Proof. unfold count. by rewrite filter_app, length_app. Qed.

Section execution_report.
Context {FS : Type} `{FileSystem FS}.
Variable dry_run : bool.
Implicit Types (st : ExecState FS) (d : FS).

Lemma report_invariant_snoc st items (l : report_line) st' :
  report_invariant st items ->
  printed st' = printed st ++ [l] ->
  freed_space st' = freed_space st + line_freed l ->
  deleted_files st' = (deleted_files st + if file_success l then 1 else 0)%nat ->
  deleted_dirs st' = (deleted_dirs st + if dir_success l then 1 else 0)%nat ->
  report_invariant st' (items ++ [line_item l]).
Proof.
  intros (Hi & Hf & Hdf & Hdd) Hp Hfs Hfiles Hdirs. unfold report_invariant.
  rewrite Hp, !fmap_app, !count_app, sum_Z_app, Hi, Hfs, Hfiles, Hdirs, Hf, Hdf, Hdd.
  repeat split.
  - simpl. lia.
  - rewrite count_cons. unfold count. simpl. lia.
  - rewrite count_cons. unfold count. simpl. lia.
Qed.

Lemma delete_file_invariant st items file_path :
  report_invariant st items ->
  report_invariant (delete_file dry_run st file_path) (items ++ [file_path]).
Proof.
  intros Hinv. unfold delete_file.
  destruct (fs_getsize (disk st) file_path) as [size|e].
  - destruct dry_run.
    + apply (report_invariant_snoc st items (FileWouldBeDeleted file_path size));
        simpl; try done; lia.
    + destruct (fs_remove (disk st) file_path) as [disk'|e].
      * apply (report_invariant_snoc st items (FileDeleted file_path size));
          simpl; try done; lia.
      * apply (report_invariant_snoc st items (FileError file_path e));
          simpl; try done; lia.
  - apply (report_invariant_snoc st items (FileError file_path e));
      simpl; try done; lia.
Qed.

Lemma delete_dir_invariant st items dir_path :
  report_invariant st items ->
  report_invariant (delete_dir dry_run st dir_path) (items ++ [dir_path]).
Proof.
  intros Hinv. unfold delete_dir. destruct dry_run.
  - apply (report_invariant_snoc st items
             (DirWouldBeDeleted dir_path (walk_size (disk st) dir_path)));
      simpl; try done; lia.
  - destruct (fs_rmtree (disk st) dir_path) as [disk' [e|]].
    + apply (report_invariant_snoc st items (DirError dir_path e));
        simpl; try done; lia.
    + apply (report_invariant_snoc st items
               (DirDeleted dir_path (walk_size (disk st) dir_path)));
        simpl; try done; lia.
Qed.

Lemma fold_invariant (step : ExecState FS -> string -> ExecState FS)
    (todo : list string) :
  (forall st items x, report_invariant st items ->
                      report_invariant (step st x) (items ++ [x])) ->
  forall st items,
    report_invariant st items ->
    report_invariant (fold_left step todo st) (items ++ todo).
Proof.
  intros Hstep. induction todo as [|x todo IH]; intros st items Hinv; simpl.
  - by rewrite app_nil_r.
  - replace (items ++ x :: todo) with ((items ++ [x]) ++ todo)
      by (by rewrite <- app_assoc).
    apply IH, Hstep, Hinv.
Qed.

(** X15. In either mode every item of the plan gets exactly one printed
    line, files first and in the order of the plan; the freed bytes are the
    sum of the sizes on the lines that report success, and the two counters
    are the numbers of such lines for files and for directories. *)
Theorem report_accounts_for_every_item d (files_to_delete dirs_to_delete : list string) :
  let report := execute_deletion dry_run d files_to_delete dirs_to_delete in
  line_item <$> printed report = files_to_delete ++ dirs_to_delete
  /\ freed_space report = sum_Z (line_freed <$> printed report)
  /\ deleted_files report = count file_success (printed report)
  /\ deleted_dirs report = count dir_success (printed report)
  /\ (deleted_files report <= length files_to_delete)%nat
  /\ (deleted_dirs report <= length dirs_to_delete)%nat.
Proof.
  intros report.
  assert (report_invariant report (files_to_delete ++ dirs_to_delete)) as Hinv.
  { unfold report, execute_deletion.
    apply (fold_invariant (delete_dir dry_run)); [apply delete_dir_invariant|].
    apply (fold_invariant (delete_file dry_run) files_to_delete
             delete_file_invariant (mkExec 0%nat 0%nat 0 [] d) []).
    by repeat split. }
  destruct Hinv as (Hitems & Hfreed & Hfiles & Hdirs).
  split; [done|]. split; [done|]. split; [done|]. split; [done|].
  assert (exists fl dl, printed report = fl ++ dl
            /\ line_item <$> fl = files_to_delete
            /\ line_item <$> dl = dirs_to_delete
            /\ count dir_success fl = 0%nat /\ count file_success dl = 0%nat)
    as (fl & dl & Hsplit & Hfl & Hdl & Hnd & Hnf).
  { unfold report, execute_deletion.
    set (mid := fold_left (delete_file dry_run) files_to_delete
                  (mkExec 0%nat 0%nat 0 [] d)).
    assert (line_item <$> printed mid = files_to_delete
            /\ count dir_success (printed mid) = 0%nat) as [Hm1 Hm2].
    { assert (forall todo st,
                count dir_success (printed (fold_left (delete_file dry_run) todo st))
                = count dir_success (printed st)) as Hno.
      { induction todo as [|x todo IH]; intros st; simpl; [done|].
        rewrite IH. unfold delete_file.
        destruct (fs_getsize (disk st) x) as [size|e]; simpl.
        - destruct dry_run; simpl.
          + rewrite count_app. unfold count. simpl. lia.
          + destruct (fs_remove (disk st) x); simpl;
              rewrite count_app; unfold count; simpl; lia.
        - rewrite count_app. unfold count. simpl. lia. }
      split; [|unfold mid; by rewrite Hno].
      pose proof (fold_invariant (delete_file dry_run) files_to_delete
                    delete_file_invariant (mkExec 0%nat 0%nat 0 [] d) []) as Hi.
      destruct Hi as [Hi _]; [by repeat split|]. done. }
    assert (forall todo st,
              exists dl, printed (fold_left (delete_dir dry_run) todo st)
                         = printed st ++ dl
                         /\ line_item <$> dl = todo
                         /\ count file_success dl = 0%nat) as Hdirsonly.
    { induction todo as [|x todo IH]; intros st; simpl.
      - exists []. by rewrite app_nil_r.
      - destruct (IH (delete_dir dry_run st x)) as (dl & Hp & Hit & Hc).
        assert (exists l, printed (delete_dir dry_run st x) = printed st ++ [l]
                          /\ line_item l = x /\ file_success l = false)
          as (l & Hl & Hli & Hlf).
        { unfold delete_dir. destruct dry_run; simpl; [by eexists|].
          destruct (fs_rmtree (disk st) x) as [disk' [e|]]; simpl; by eexists. }
        exists (l :: dl). rewrite Hp, Hl, <- app_assoc. split; [done|].
        split; [by rewrite fmap_cons, Hli, Hit|]. rewrite count_cons, Hlf, Hc. done. }
    destruct (Hdirsonly dirs_to_delete mid) as (dl & Hp & Hit & Hc).
    exists (printed mid), dl. done. }
  rewrite Hfiles, Hdirs, Hsplit, !count_app, Hnd, Hnf.
  rewrite <- Hfl, <- Hdl, !length_fmap. unfold count.
  pose proof (length_filter (fun x => Is_true (file_success x)) fl).
  pose proof (length_filter (fun x => Is_true (dir_success x)) dl).
  split; lia.
Qed.

Lemma dry_run_files (d : FS) (files : list string) : forall st,
  disk st = d ->
  let st' := fold_left (delete_file true) files st in
  disk st' = d
  /\ deleted_files st' = (deleted_files st + length (omap (readable_size d) files))%nat
  /\ deleted_dirs st' = deleted_dirs st
  /\ freed_space st' = freed_space st + sum_Z (omap (readable_size d) files).
Proof.
  induction files as [|p files IH]; intros st Hd; simpl.
  - repeat split; try done; lia.
  - destruct (IH (delete_file true st p)) as (H1 & H2 & H3 & H4).
    { unfold delete_file. rewrite Hd. by destruct (fs_getsize d p). }
    rewrite H1, H2, H3, H4. unfold delete_file, readable_size. rewrite Hd.
    destruct (fs_getsize d p) as [size|e]; simpl; repeat split; try done; try lia;
      try (rewrite <- Z.add_assoc; reflexivity);
      try (rewrite <- Nat.add_succ_r; reflexivity).
Qed.

Lemma dry_run_dirs (d : FS) (dirs : list string) : forall st,
  disk st = d ->
  let st' := fold_left (delete_dir true) dirs st in
  disk st' = d
  /\ deleted_files st' = deleted_files st
  /\ deleted_dirs st' = (deleted_dirs st + length dirs)%nat
  /\ freed_space st' = freed_space st + sum_Z (walk_size d <$> dirs).
Proof.
  induction dirs as [|p dirs IH]; intros st Hd.
  - simpl. repeat split; try done; lia.
  - cbn [fold_left].
    destruct (IH (delete_dir true st p)) as (H1 & H2 & H3 & H4); [done|].
    cbv zeta. rewrite H1, H2, H3, H4.
    change (delete_dir true st p)
      with (mkExec (deleted_files st) (S (deleted_dirs st))
              (freed_space st + walk_size (disk st) p)
              (printed st ++ [DirWouldBeDeleted p (walk_size (disk st) p)])
              (disk st)).
    cbn [deleted_files deleted_dirs freed_space]. rewrite Hd.
    rewrite fmap_cons. cbn [length]. unfold sum_Z. cbn [foldr]. fold sum_Z.
    repeat split; try done; lia.
Qed.

End execution_report.

Section dry_run_report.
Context {FS : Type} `{FileSystem FS}.

(** X16. A dry run never changes the disk.  It counts the files whose size
    can be read and every directory of the plan, a missing one included, and
    reports as freed the sizes of those files plus what walking each
    directory finds. *)
Theorem dry_run_changes_nothing (d : FS) (files_to_delete dirs_to_delete : list string) :
  let report := execute_deletion true d files_to_delete dirs_to_delete in
  disk report = d
  /\ deleted_files report = length (omap (readable_size d) files_to_delete)
  /\ deleted_dirs report = length dirs_to_delete
  /\ freed_space report
     = sum_Z (omap (readable_size d) files_to_delete)
       + sum_Z (walk_size d <$> dirs_to_delete).
Proof.
  intros report. unfold report, execute_deletion.
  destruct (dry_run_files d files_to_delete (mkExec 0%nat 0%nat 0 [] d) eq_refl)
    as (H1 & H2 & H3 & H4).
  destruct (dry_run_dirs d dirs_to_delete _ H1) as (H5 & H6 & H7 & H8).
  rewrite H5, H6, H7, H8, H2, H3, H4. simpl. repeat split; lia.
Qed.

End dry_run_report.

(** ** format_size: below 1024 terabytes *)

Lemma format_size_loop_float (units : list string) : forall (j : nat) (y : Q) (unit : string),
  units !! j = Some unit ->
  (inject_Z (1024 ^ Z.of_nat j) <= y)%Q \/ j = 0%nat ->
  (y < inject_Z (1024 ^ Z.of_nat (S j)))%Q ->
  exists x : Q,
    (x == y / inject_Z (1024 ^ Z.of_nat j))%Q
    /\ format_size_loop units (PyFloat y)
       = Ret (Some (format_2f_Q x +:+ " " +:+ unit)).
Proof.
  induction units as [|u units IH]; intros j y unit Hunit Hlow Hhigh; [done|].
  rewrite format_size_loop_cons.
  assert (inject_Z 1024 == 1024 # 1)%Q as H1024 by done.
  destruct j as [|j].
  - simpl in Hunit. injection Hunit as ->.
    assert (lt_1024 (PyFloat y) = true) as ->.
    { simpl. apply negb_true_iff. apply not_true_iff_false.
      rewrite Qle_bool_iff. change (inject_Z (1024 ^ Z.of_nat 1)) with (1024 # 1)%Q in Hhigh.
      lra. }
    exists y. split; [|done]. change (inject_Z (1024 ^ Z.of_nat 0)) with 1%Q. field.
  - simpl in Hunit. destruct Hlow as [Hlow|?]; [|done].
    rewrite Nat2Z.inj_succ, Z.pow_succ_r, inject_Z_mult, H1024 in Hlow by lia.
    rewrite (Nat2Z.inj_succ (S j)), Z.pow_succ_r, inject_Z_mult, H1024 in Hhigh by lia.
    assert (0 < 1024 ^ Z.of_nat j) as Hpos by (apply Z.pow_pos_nonneg; lia).
    assert (0 < inject_Z (1024 ^ Z.of_nat j))%Q as HposQ.
    { replace 0%Q with (inject_Z 0) by done. by rewrite <- Zlt_Qlt. }
    assert (1 <= inject_Z (1024 ^ Z.of_nat j))%Q as Hone.
    { change 1%Q with (inject_Z 1). rewrite <- Zle_Qle. lia. }
    assert (lt_1024 (PyFloat y) = false) as ->.
    { simpl. apply negb_false_iff, Qle_bool_iff. nra. }
    simpl div_1024.
    destruct (IH j (y / (1024 # 1))%Q unit Hunit) as (x & Hx & Hrun).
    + left. apply Qle_shift_div_l; [done|].
      revert Hlow. generalize (inject_Z (1024 ^ Z.of_nat j)). intros a Ha. clear -Ha. lra.
    + apply Qlt_shift_div_r; [done|].
      revert Hhigh. generalize (inject_Z (1024 ^ Z.of_nat (S j))). intros a Ha. clear -Ha. lra.
    + exists x. split; [|done]. rewrite Hx.
      rewrite (Nat2Z.inj_succ j), Z.pow_succ_r, inject_Z_mult, H1024 by lia.
      field. intros Hz. rewrite Hz in HposQ. by apply Qlt_irrefl in HposQ.
Qed.

(** Integers of at most 53 bits convert exactly. *)
Lemma float_of_int_exact (n : Z) :
  - 2 ^ 53 <= n <= 2 ^ 53 -> float_of_int n = Some (inject_Z n).
Proof.
  intros [Hlow Hhigh].
  destruct (Z.eq_dec n (2 ^ 53)) as [->|Hne1]; [vm_compute; reflexivity|].
  destruct (Z.eq_dec n (- 2 ^ 53)) as [->|Hne2]; [vm_compute; reflexivity|].
  unfold float_of_int.
  destruct (Z.leb_spec (Z.log2 (Z.abs n) - 52) 0) as [_|He]; [done|].
  assert (0 < Z.abs n) as Hpos.
  { destruct (Z.eq_dec (Z.abs n) 0) as [Hz|]; [|lia]. rewrite Hz in He. simpl in He. lia. }
  assert (Z.log2 (Z.abs n) < 53) by (apply Z.log2_lt_pow2; lia). lia.
Qed.

(** Integers of 1025 bits or more do not convert. *)
Lemma float_of_int_overflow (n : Z) :
  2 ^ 1024 <= Z.abs n -> float_of_int n = None.
Proof.
  intros Hn. unfold float_of_int.
  set (a := Z.abs n) in *.
  assert (0 < a) as Hpos by lia.
  assert (1024 <= Z.log2 a) as Hlog by (apply Z.log2_le_pow2; lia).
  destruct (Z.leb_spec (Z.log2 a - 52) 0) as [He|He]; [lia|].
  set (e := Z.log2 a - 52) in *.
  set (q := a / 2 ^ e).
  assert (0 < 2 ^ e) as Hpow by (apply Z.pow_pos_nonneg; lia).
  assert (2 ^ 52 <= q) as Hq.
  { unfold q. apply Z.div_le_lower_bound; [done|].
    rewrite Z.mul_comm, <- Z.pow_add_r by lia.
    replace (52 + e) with (Z.log2 a) by (unfold e; lia).
    by apply Z.log2_spec. }
  set (q' := if a mod 2 ^ e <? 2 ^ (e - 1) then q
             else if 2 ^ (e - 1) <? a mod 2 ^ e then q + 1
             else if Z.even q then q else q + 1).
  assert (q <= q') as Hq'.
  { unfold q'. destruct (_ <? _); [lia|]. destruct (_ <? _); [lia|].
    destruct (Z.even q); lia. }
  assert (2 ^ 1024 <= q' * 2 ^ e) as Hm.
  { assert (2 ^ 52 * 2 ^ e <= q' * 2 ^ e) by (apply Z.mul_le_mono_nonneg_r; lia).
    rewrite <- Z.pow_add_r in * by lia.
    assert (2 ^ 1024 <= 2 ^ (52 + e)) by (apply Z.pow_le_mono_r; unfold e; lia).
    lia. }
  by rewrite (proj2 (Z.leb_le _ _) Hm).
Qed.

(** X17. Below 1024 terabytes [format_size] picks the unit by the magnitude.
    A size below 1024, negative sizes included, is converted to a float and
    printed with two decimals and the unit B: exactly down to -2^53, rounded
    to the nearest float below that, and with OverflowError from -2^1024
    down.  A size from 1024 on is divided by the largest power of 1024 not
    above it and printed with two decimals and the unit of that power. *)
Theorem format_size_picks_the_unit (size_bytes : Z) :
  size_bytes < 1024 ^ 5 ->
  (- 2 ^ 53 <= size_bytes ->
   exists (k : nat) (unit : string) (x : Q),
     ["B"; "KB"; "MB"; "GB"; "TB"] !! k = Some unit
     /\ (k = 0%nat \/ 1024 ^ Z.of_nat k <= size_bytes)
     /\ size_bytes < 1024 ^ Z.of_nat (S k)
     /\ (x == inject_Z size_bytes / inject_Z (1024 ^ Z.of_nat k))%Q
     /\ format_size size_bytes = Ret (Some (format_2f_Q x +:+ " " +:+ unit)))
  /\ (size_bytes < 1024 ->
      format_size size_bytes
      = match float_of_int size_bytes with
        | Some x => Ret (Some (format_2f_Q x +:+ " B"))
        | None => Raise OverflowError
        end)
  /\ (size_bytes <= - 2 ^ 1024 -> format_size size_bytes = Raise OverflowError).
Proof.
  intros Hbound.
  assert (size_bytes < 1024 ->
          format_size size_bytes
          = match float_of_int size_bytes with
            | Some x => Ret (Some (format_2f_Q x +:+ " B"))
            | None => Raise OverflowError
            end) as Hsmall.
  { intros Hlt. unfold format_size. rewrite format_size_loop_cons.
    simpl lt_1024. rewrite (proj2 (Z.ltb_lt _ _) Hlt). simpl format_2f.
    by destruct (float_of_int size_bytes). }
  assert (1024 ^ 5 < 2 ^ 53) as H53 by (vm_compute; reflexivity).
  split; [|split; [done|]].
  - intros Hlow. destruct (Z.ltb_spec size_bytes 1024) as [Hlt|Hbig].
    + exists 0%nat, "B", (inject_Z size_bytes).
      split; [done|]. split; [by left|]. split; [simpl; lia|]. split.
      * change (inject_Z (1024 ^ Z.of_nat 0)) with 1%Q. field.
      * rewrite (Hsmall Hlt), float_of_int_exact; [done|lia].
    + unfold format_size. rewrite format_size_loop_cons.
      simpl lt_1024. rewrite (proj2 (Z.ltb_ge _ _) Hbig). simpl div_1024.
      rewrite float_of_int_exact by lia.
      assert (exists j : nat, (j < 4)%nat
                /\ 1024 ^ Z.of_nat (S j) <= size_bytes < 1024 ^ Z.of_nat (S (S j)))
        as (j & Hj & Hlow' & Hhigh).
      { destruct (Z.ltb_spec size_bytes (1024 ^ 2)); [exists 0%nat; simpl; lia|].
        destruct (Z.ltb_spec size_bytes (1024 ^ 3)); [exists 1%nat; simpl; lia|].
        destruct (Z.ltb_spec size_bytes (1024 ^ 4)); [exists 2%nat; simpl; lia|].
        exists 3%nat. simpl. lia. }
      assert (exists unit, ["KB"; "MB"; "GB"; "TB"] !! j = Some unit) as [unit Hunit].
      { apply lookup_lt_is_Some. simpl. lia. }
      assert (inject_Z 1024 == 1024 # 1)%Q as H1024 by done.
      assert (0 < 1024 ^ Z.of_nat j) as Hpos by (apply Z.pow_pos_nonneg; lia).
      assert (0 < inject_Z (1024 ^ Z.of_nat j))%Q as HposQ.
      { replace 0%Q with (inject_Z 0) by done. by rewrite <- Zlt_Qlt. }
      destruct (format_size_loop_float ["KB"; "MB"; "GB"; "TB"] j
                  (inject_Z size_bytes / (1024 # 1))%Q unit Hunit)
        as (x & Hx & Hrun).
      * left. apply Qle_shift_div_l; [done|]. rewrite <- H1024, <- inject_Z_mult.
        rewrite <- Zle_Qle. rewrite Z.mul_comm, <- Z.pow_succ_r, <- Nat2Z.inj_succ by lia.
        done.
      * apply Qlt_shift_div_r; [done|]. rewrite <- H1024, <- inject_Z_mult.
        rewrite <- Zlt_Qlt. rewrite Z.mul_comm, <- Z.pow_succ_r, <- Nat2Z.inj_succ by lia.
        done.
      * exists (S j), unit, x. split; [done|]. split; [by right|]. split; [done|].
        split; [|done]. rewrite Hx.
        rewrite (Nat2Z.inj_succ j), Z.pow_succ_r, inject_Z_mult, H1024 by lia.
        field. intros Hz. rewrite Hz in HposQ. by apply Qlt_irrefl in HposQ.
  - intros Hneg. rewrite Hsmall by lia.
    rewrite float_of_int_overflow; [done|]. lia.
Qed.

(** Negative sizes beyond 53 bits: the float nearest to the integer is
    printed; beyond the floats the conversion raises. *)
Example format_size_negative_samples :
  format_size (-5) = Ret (Some "-5.00 B")
  /\ format_size (- (2 ^ 53 + 1)) = Ret (Some "-9007199254740992.00 B")
  /\ format_size (- 2 ^ 1024) = Raise OverflowError.
Proof. repeat split; vm_compute; reflexivity. Qed.

Lemma format_size_picks_the_unit_witness :
  (exists (k : nat) (unit : string) (x : Q),
     ["B"; "KB"; "MB"; "GB"; "TB"] !! k = Some unit
     /\ (k = 0%nat \/ 1024 ^ Z.of_nat k <= 1536)
     /\ 1536 < 1024 ^ Z.of_nat (S k)
     /\ (x == inject_Z 1536 / inject_Z (1024 ^ Z.of_nat k))%Q
     /\ format_size 1536 = Ret (Some (format_2f_Q x +:+ " " +:+ unit)))
  /\ format_size (- (2 ^ 53 + 1)) = Ret (Some "-9007199254740992.00 B")
  /\ format_size (- 2 ^ 1024) = Raise OverflowError.
Proof.
  split; [|split].
  - apply (format_size_picks_the_unit 1536); [reflexivity|]. vm_compute. discriminate.
  - destruct (format_size_picks_the_unit (- (2 ^ 53 + 1))) as (_ & Hsmall & _);
      [reflexivity|].
    rewrite Hsmall by reflexivity. vm_compute. reflexivity.
  - apply (format_size_picks_the_unit (- 2 ^ 1024)); [reflexivity|]. vm_compute. discriminate.
Defined.

(** ** get_file_category *)

Lemma py_lower_char_idempotent (c : ascii) :
  py_lower_char (py_lower_char c) = py_lower_char c.
Proof. destruct c as [[] [] [] [] [] [] [] []]; vm_compute; reflexivity. Qed.

Lemma py_lower_idempotent (s : string) : py_lower (py_lower s) = py_lower s.
Proof.
  unfold py_lower. rewrite list_ascii_of_string_of_list_ascii.
  f_equal. rewrite <- list_fmap_compose. apply list_fmap_ext.
  intros i c _. apply py_lower_char_idempotent.
Qed.

Lemma first_category_spec (table : list (string * list string)) (lowered : string) :
  (exists before extensions after,
     table = before ++ (first_category table lowered, extensions) :: after
     /\ lowered ∈ extensions
     /\ forall entry, entry ∈ before -> lowered ∉ entry.2)
  \/ (first_category table lowered = "other"
      /\ forall entry, entry ∈ table -> lowered ∉ entry.2).
Proof.
  induction table as [|[category extensions] table IH]; simpl.
  - right. split; [done|]. intros entry Hin. by apply elem_of_nil in Hin.
  - destruct (bool_decide (lowered ∈ extensions)) eqn:Hmem.
    + left. exists [], extensions, table. split; [done|].
      split; [by apply bool_decide_eq_true in Hmem|].
      intros entry Hin. by apply elem_of_nil in Hin.
    + apply bool_decide_eq_false in Hmem.
      destruct IH as [(before & exts & after & Htable & Hin & Hbefore)|[Hother Hnone]].
      * left. exists ((category, extensions) :: before), exts, after.
        split; [simpl; by rewrite <- Htable|]. split; [done|].
        intros entry Hentry. apply elem_of_cons in Hentry as [->|Hentry]; [done|].
        by apply Hbefore.
      * right. split; [done|]. intros entry Hentry.
        apply elem_of_cons in Hentry as [->|Hentry]; [done|]. by apply Hnone.
Qed.

(** X18. The category of an extension does not depend on its letter case.
    It is the first category of [FILE_CATEGORIES] whose set holds the
    lower-cased extension, and [other] when no set holds it; it is always
    one of the twelve names of the table. *)
Theorem category_is_the_first_match (extension : string) :
  get_file_category (py_lower extension) = get_file_category extension
  /\ ((exists before extensions after,
         FILE_CATEGORIES
         = before ++ (get_file_category extension, extensions) :: after
         /\ py_lower extension ∈ extensions
         /\ forall entry, entry ∈ before -> py_lower extension ∉ entry.2)
      \/ (get_file_category extension = "other"
          /\ forall entry, entry ∈ FILE_CATEGORIES -> py_lower extension ∉ entry.2))
  /\ get_file_category extension ∈ FILE_CATEGORIES.*1.
Proof.
  split; [unfold get_file_category; by rewrite py_lower_idempotent|].
  pose proof (first_category_spec FILE_CATEGORIES (py_lower extension)) as Hspec.
  split; [exact Hspec|].
  destruct Hspec as [(before & exts & after & Htable & _)|[Hother _]].
  - unfold get_file_category. rewrite Htable at 2. rewrite fmap_app, fmap_cons.
    apply elem_of_app. right. left.
  - unfold get_file_category. rewrite Hother. by apply (bool_decide_unpack _).
Qed.

(** [.sh] is listed under executables and under scripts; the first wins. *)
Example category_samples :
  get_file_category ".JPG" = "images"
  /\ get_file_category ".sh" = "executables"
  /\ get_file_category ".xyz" = "other"
  /\ get_file_category EmptyString = "other".
Proof. repeat split; vm_compute; reflexivity. Qed.

(** ** scan_directory *)

Section bump_facts.
Context {K : Type} `{EqDecision K}.

Lemma bump_keys_NoDup (k : K) (s : Z) (d : list (K * Tally)) :
  NoDup d.*1 -> NoDup (bump k s d).*1.
Proof.
  induction d as [|[k' t] d IH]; intros Hnd; simpl.
  - apply NoDup_singleton.
  - change (NoDup (k' :: d.*1)) in Hnd. apply NoDup_cons in Hnd as [Hk' Hnd].
    destruct (decide (k' = k)) as [->|Hne].
    + change (NoDup (k :: d.*1)). by apply NoDup_cons.
    + change (NoDup (k' :: (bump k s d).*1)). apply NoDup_cons. split; [|by apply IH].
      intros Hin. apply Hk'. clear -Hin Hne.
      induction d as [|[k0 t0] d IH]; simpl in *.
      * apply list_elem_of_singleton in Hin. congruence.
      * destruct (decide (k0 = k)) as [->|Hne0]; simpl in *; [done|].
        apply elem_of_cons in Hin as [->|Hin]; [left|right; by apply IH].
Qed.

Lemma tally_of_bump (k k' : K) (s : Z) (d : list (K * Tally)) :
  tally_of k' (bump k s d)
  = if decide (k' = k)
    then mkTally (S (tally_count (tally_of k d))) (tally_size (tally_of k d) + s)
    else tally_of k' d.
Proof.
  induction d as [|[k0 t] d IH]; simpl.
  - destruct (decide (k = k')) as [->|Hne].
    + by rewrite decide_True.
    + rewrite decide_False; [done|congruence].
  - destruct (decide (k0 = k)) as [->|Hne]; simpl.
    + destruct (decide (k = k')) as [->|Hne'].
      * by rewrite decide_True.
      * rewrite decide_False; [done|congruence].
    + destruct (decide (k0 = k')) as [->|Hne'].
      * rewrite decide_False; [done|congruence].
      * apply IH.
Qed.

Lemma totals_bump (k : K) (s : Z) (d : list (K * Tally)) :
  files_counted (bump k s d) = S (files_counted d)
  /\ bytes_counted (bump k s d) = bytes_counted d + s.
Proof.
  unfold files_counted, bytes_counted.
  induction d as [|[k' t] d [IH1 IH2]]; simpl.
  - split; lia.
  - destruct (decide (k' = k)) as [->|Hne]; simpl.
    + split; lia.
    + rewrite IH1, IH2. split; lia.
Qed.

End bump_facts.

Lemma tally_sizes_snoc (sizes : list Z) (s : Z) :
  tally_sizes (sizes ++ [s])
  = mkTally (S (tally_count (tally_sizes sizes))) (tally_size (tally_sizes sizes) + s).
Proof.
  unfold tally_sizes. simpl. rewrite length_app, sum_Z_app. simpl.
  f_equal; [lia|]. unfold sum_Z. simpl. lia.
Qed.


Section scan_facts.
Variable path_join : string -> string -> string.
Variable splitext_ext : string -> string.
Variable getsize_opt : string -> option Z.
Variable getmtime_opt : string -> option Z.

Lemma scan_file_stat (root file : string) (acc : list (string * Z * Z) * Statistics) :
  scan_file path_join splitext_ext getsize_opt getmtime_opt root acc file
  = match stat_entry path_join getsize_opt getmtime_opt (root, file) with
    | None => acc
    | Some e =>
        (acc.1 ++ [entry_record path_join e],
         mkStatistics (S (total_files acc.2)) (total_size acc.2 + entry_size e)
           (bump (entry_extension splitext_ext e) (entry_size e) (by_extension acc.2))
           (bump (entry_root e) (entry_size e) (by_directory acc.2))
           (bump (entry_category splitext_ext e) (entry_size e) (by_category acc.2)))
    end.
Proof.
  destruct acc as [all_files stats]. unfold scan_file, stat_entry. simpl.
  destruct (getsize_opt (path_join root file)) as [size|]; [|done].
  by destruct (getmtime_opt (path_join root file)).
Qed.

Lemma tally_step {K : Type} `{EqDecision K} (key : string * string * Z * Z -> K)
    (es : list (string * string * Z * Z)) (e : string * string * Z * Z)
    (d : list (K * Tally)) :
  (forall k, tally_of k d = tally_sizes (entry_size <$> filter (fun e => key e = k) es)) ->
  forall k, tally_of k (bump (key e) (entry_size e) d)
            = tally_sizes (entry_size <$> filter (fun e => key e = k) (es ++ [e])).
Proof.
  intros Hd k. rewrite tally_of_bump, filter_app, filter_cons, filter_nil.
  destruct (decide (k = key e)) as [->|Hne].
  - rewrite decide_True by done. rewrite fmap_app.
    change (entry_size <$> [e]) with [entry_size e].
    by rewrite tally_sizes_snoc, Hd.
  - rewrite decide_False by congruence. by rewrite app_nil_r, Hd.
Qed.

Lemma scan_invariant_step es acc (e : string * string * Z * Z) :
  scan_invariant path_join splitext_ext es acc ->
  scan_invariant path_join splitext_ext (es ++ [e])
    (acc.1 ++ [entry_record path_join e],
     mkStatistics (S (total_files acc.2)) (total_size acc.2 + entry_size e)
       (bump (entry_extension splitext_ext e) (entry_size e) (by_extension acc.2))
       (bump (entry_root e) (entry_size e) (by_directory acc.2))
       (bump (entry_category splitext_ext e) (entry_size e) (by_category acc.2))).
Proof.
  intros (Hfiles & Hn & Hs & Hext & Hdir & Hcat & (Nx & Nd & Nc)
          & (Cx & Cd & Cc) & (Bx & Bd & Bc)).
  unfold scan_invariant. simpl.
  destruct (totals_bump (entry_extension splitext_ext e) (entry_size e)
              (by_extension acc.2)) as [Tx1 Tx2].
  destruct (totals_bump (entry_root e) (entry_size e) (by_directory acc.2))
    as [Td1 Td2].
  destruct (totals_bump (entry_category splitext_ext e) (entry_size e)
              (by_category acc.2)) as [Tc1 Tc2].
  assert (sum_Z (entry_size <$> es ++ [e]) = sum_Z (entry_size <$> es) + entry_size e)
    as Hsum.
  { rewrite fmap_app, sum_Z_app. unfold sum_Z. simpl. lia. }
  rewrite Hfiles, Hn, Hs, fmap_app, length_app, Hsum.
  rewrite Tx1, Tx2, Td1, Td2, Tc1, Tc2, Cx, Cd, Cc, Bx, Bd, Bc. simpl.
  split; [done|]. split; [lia|]. split; [done|].
  split; [by apply tally_step|]. split; [by apply tally_step|].
  split; [by apply tally_step|].
  split; [repeat split; by apply bump_keys_NoDup|].
  split; repeat split; lia.
Qed.

Lemma scan_directory_invariant (walk : list (string * list string)) :
  scan_invariant path_join splitext_ext
    (scanned path_join getsize_opt getmtime_opt walk)
    (scan_directory path_join splitext_ext getsize_opt getmtime_opt walk).
Proof.
  unfold scan_directory, scanned.
  assert (forall entries es acc,
            scan_invariant path_join splitext_ext es acc ->
            scan_invariant path_join splitext_ext
              (es ++ omap (stat_entry path_join getsize_opt getmtime_opt) entries)
              (fold_left
                 (fun acc (rf : string * string) =>
                    scan_file path_join splitext_ext getsize_opt getmtime_opt
                      rf.1 acc rf.2) entries acc)) as Hflat.
  { induction entries as [|[root file] entries IH]; intros es acc Hinv.
    - simpl. by rewrite app_nil_r.
    - cbn [fold_left fst snd]. rewrite scan_file_stat.
      assert (omap (stat_entry path_join getsize_opt getmtime_opt)
                ((root, file) :: entries)
              = match stat_entry path_join getsize_opt getmtime_opt (root, file) with
                | Some e => e :: omap (stat_entry path_join getsize_opt getmtime_opt)
                                   entries
                | None => omap (stat_entry path_join getsize_opt getmtime_opt) entries
                end) as -> by reflexivity.
      destruct (stat_entry path_join getsize_opt getmtime_opt (root, file)) as [e|].
      + replace (es ++ e :: omap (stat_entry path_join getsize_opt getmtime_opt) entries)
          with ((es ++ [e])
                  ++ omap (stat_entry path_join getsize_opt getmtime_opt) entries)
          by (by rewrite <- app_assoc).
        apply IH. by apply scan_invariant_step.
      + by apply IH. }
  assert (forall walk0 acc,
            fold_left
              (fun acc '(root, files) =>
                 fold_left
                   (scan_file path_join splitext_ext getsize_opt getmtime_opt root)
                   files acc) walk0 acc
            = fold_left
                (fun acc (rf : string * string) =>
                   scan_file path_join splitext_ext getsize_opt getmtime_opt
                     rf.1 acc rf.2)
                (flat_map (fun rf => (fun file => (rf.1, file)) <$> rf.2) walk0) acc)
    as Hnest.
  { induction walk0 as [|[root files] walk0 IH]; intros acc; simpl; [done|].
    rewrite fold_left_app, IH. f_equal.
    clear. revert acc. induction files as [|f files IH]; intros acc; simpl; [done|].
    by rewrite IH. }
  rewrite Hnest.
  apply (Hflat _ [] ([], mkStatistics 0%nat 0 [] [] [])).
  unfold scan_invariant. simpl. repeat split; try done; constructor.
Qed.

(** X19. The scan lists exactly the walked files whose size and
    modification time can both be read, in the order of the walk, and skips
    the others; [total_files] is the number of listed files and
    [total_size] the sum of their sizes. *)
Theorem scan_lists_the_readable_files (walk : list (string * list string)) :
  let result := scan_directory path_join splitext_ext getsize_opt getmtime_opt walk in
  result.1 = entry_record path_join
               <$> scanned path_join getsize_opt getmtime_opt walk
  /\ total_files result.2 = length result.1
  /\ total_size result.2 = sum_Z (size_of <$> result.1).
Proof.
  intros result. destruct (scan_directory_invariant walk) as (Hfiles & Hn & Hs & _).
  fold result in Hfiles, Hn, Hs. split; [done|].
  rewrite Hfiles, length_fmap. split; [done|]. rewrite Hs.
  rewrite <- list_fmap_compose. f_equal. apply list_fmap_ext.
  by intros i [[[root file] size] mtime] _.
Qed.

(** X20. Each of the three break-downs (by extension, by directory, by
    category) has one entry per key, and its counts and sizes add up to
    [total_files] and [total_size]. *)
Theorem scan_breakdowns_add_up (walk : list (string * list string)) :
  let stats := (scan_directory path_join splitext_ext getsize_opt getmtime_opt walk).2 in
  (NoDup (by_extension stats).*1 /\ NoDup (by_directory stats).*1
   /\ NoDup (by_category stats).*1)
  /\ (files_counted (by_extension stats) = total_files stats
      /\ files_counted (by_directory stats) = total_files stats
      /\ files_counted (by_category stats) = total_files stats)
  /\ (bytes_counted (by_extension stats) = total_size stats
      /\ bytes_counted (by_directory stats) = total_size stats
      /\ bytes_counted (by_category stats) = total_size stats).
Proof.
  intros stats.
  destruct (scan_directory_invariant walk)
    as (_ & Hn & Hs & _ & _ & _ & Hkeys & (Cx & Cd & Cc) & (Bx & Bd & Bc)).
  fold stats in Hn, Hs, Hkeys, Cx, Cd, Cc, Bx, Bd, Bc.
  split; [done|]. rewrite Hn, Hs. done.
Qed.

(** X21. Every break-down holds, under each key, the number and the total
    size of the listed files with that key: the lower-cased extension of the
    name, the walked directory, and the category of the extension. *)
Theorem scan_tallies_by_key (walk : list (string * list string)) (k : string) :
  let stats := (scan_directory path_join splitext_ext getsize_opt getmtime_opt walk).2 in
  let listed := scanned path_join getsize_opt getmtime_opt walk in
  tally_of k (by_extension stats)
  = tally_sizes (entry_size <$>
                   filter (fun e => entry_extension splitext_ext e = k) listed)
  /\ tally_of k (by_directory stats)
     = tally_sizes (entry_size <$> filter (fun e => entry_root e = k) listed)
  /\ tally_of k (by_category stats)
     = tally_sizes (entry_size <$>
                      filter (fun e => entry_category splitext_ext e = k) listed).
Proof.
  intros stats listed.
  destruct (scan_directory_invariant walk) as (_ & _ & _ & Hx & Hd & Hc & _).
  by split; [|split].
Qed.

End scan_facts.

(** ** preview_deletion *)

Section preview_facts.
Context {FS : Type} `{FileSystem FS}.

Lemma sum_sizes_Ret (d : FS) (files : list string) :
  (forall f, f ∈ files -> exists n, fs_getsize d f = Ret n) ->
  sum_sizes d files = Ret (sum_Z (omap (readable_size d) files))
  /\ omap (readable_size d) files
     = (fun f => default 0 (readable_size d f)) <$> files.
Proof.
  induction files as [|f files IH]; intros Hok; [done|].
  destruct (Hok f) as [n Hn]; [left|].
  destruct IH as [IH1 IH2]; [intros g Hg; apply Hok; by right|].
  cbn [sum_sizes]. rewrite Hn, IH1.
  assert (readable_size d f = Some n) as Hr by (unfold readable_size; by rewrite Hn).
  assert (omap (readable_size d) (f :: files)
          = n :: omap (readable_size d) files) as ->.
  { change (omap (readable_size d) (f :: files))
      with (match readable_size d f with
            | Some y => y :: omap (readable_size d) files
            | None => omap (readable_size d) files
            end). by rewrite Hr. }
  split; [done|]. rewrite fmap_cons, Hr, IH2. done.
Qed.

Lemma sum_sizes_Raise (d : FS) (before after : list string) (f : string) (e : exn) :
  (forall g, g ∈ before -> exists n, fs_getsize d g = Ret n) ->
  fs_getsize d f = Raise e ->
  sum_sizes d (before ++ f :: after) = Raise e.
Proof.
  induction before as [|g before IH]; intros Hok Hf; simpl.
  - by rewrite Hf.
  - destruct (Hok g) as [n Hn]; [left|]. rewrite Hn, IH; [done| |done].
    intros g' Hg'. apply Hok. by right.
Qed.

(** X22. The preview answers False exactly for the empty plan, which it
    never examines.  For any other plan it adds up the sizes of all planned
    files first: when every size can be read it answers True, and the first
    size that cannot be read ends it with that exception. *)
Theorem preview_answers (d : FS) (statistics : Statistics)
    (files_to_delete dirs_to_delete : list string) :
  preview_deletion d [] [] statistics = Ret false
  /\ ((forall f, f ∈ files_to_delete -> exists n, fs_getsize d f = Ret n) ->
      preview_deletion d files_to_delete dirs_to_delete statistics
      = Ret (nonempty files_to_delete || nonempty dirs_to_delete)
      /\ preview_total d files_to_delete dirs_to_delete statistics
         = Ret (sum_Z (omap (readable_size d) files_to_delete)
                + recorded_dir_sizes statistics dirs_to_delete))
  /\ (forall before f after e,
        files_to_delete = before ++ f :: after ->
        (forall g, g ∈ before -> exists n, fs_getsize d g = Ret n) ->
        fs_getsize d f = Raise e ->
        preview_deletion d files_to_delete dirs_to_delete statistics = Raise e).
Proof.
  split; [done|]. split.
  - intros Hok. destruct (sum_sizes_Ret d files_to_delete Hok) as [Hsum _].
    assert (preview_total d files_to_delete dirs_to_delete statistics
            = Ret (sum_Z (omap (readable_size d) files_to_delete)
                   + recorded_dir_sizes statistics dirs_to_delete)) as Htotal.
    { unfold preview_total. destruct files_to_delete as [|f files].
      - simpl. by destruct dirs_to_delete.
      - rewrite bool_decide_eq_false_2 by done. rewrite Hsum.
        by destruct dirs_to_delete. }
    split; [|done]. unfold preview_deletion. rewrite Htotal.
    destruct files_to_delete, dirs_to_delete; done.
  - intros before f after e -> Hok Hf. unfold preview_deletion, preview_total.
    rewrite bool_decide_eq_false_2 by (by destruct before).
    by rewrite (sum_sizes_Raise d before after f e Hok Hf).
Qed.

End preview_facts.

(** ** main *)

Section main_facts.
Context {D : Type} `{Hashlib D} {FS : Type} `{FileSystem FS}.
Variable path_join : string -> string -> string.
Variable splitext_ext : string -> string.
Variable dirname : string -> string.
Variable getmtime_opt : string -> option Z.
Variable read_blocks : string -> read_outcome.
Variable save_cache : gmap string CacheEntry -> FS -> result FS.

Lemma bind_Ret {A B : Type} (m : Console A) (k : A -> Console B)
    (pending rest : list string) (b : B) :
  bind m k pending = Ret (b, rest) ->
  exists a mid, m pending = Ret (a, mid) /\ k a mid = Ret (b, rest).
Proof.
  unfold bind. destruct (m pending) as [[a mid]|e]; [|done]. intros Hk. by exists a, mid.
Qed.

Lemma lift_Ret {A : Type} (r : result A) (pending rest : list string) (a : A) :
  lift r pending = Ret (a, rest) -> r = Ret a /\ rest = pending.
Proof. destruct r as [a'|e]; simpl; [|done]. unfold ret. by intros [= -> ->]. Qed.

Lemma dry_run_disk (d : FS) (files dirs : list string) :
  disk (execute_deletion true d files dirs) = d.
Proof.
  unfold execute_deletion.
  destruct (dry_run_files d files (mkExec 0%nat 0%nat 0 [] d) eq_refl) as (H1 & _).
  by destruct (dry_run_dirs d dirs _ H1) as (H2 & _).
Qed.

(** The loop neither creates nor drops the cache. *)
Lemma detect_run_cache_shape (fl : list (string * Z * Z))
    (cache0 : option (gmap string CacheEntry)) :
  is_Some (cache (detect_run read_blocks fl cache0)) <-> is_Some cache0.
Proof.
  unfold detect_run. rewrite process_groups_flatten. unfold process_records.
  change cache0 with (cache (initial_state cache0)) at 2.
  generalize (initial_state cache0).
  induction (flatten_groups (candidate_groups fl)) as [|r l IH]; intros st; [done|].
  cbn [fold_left]. rewrite IH. unfold process_record, process_file.
  destruct (cache st) as [c|] eqn:Hc; simpl.
  - destruct (HashCache.get c (path_of r) (size_of r) (mtime_of r)) as [h|].
    + destruct (truthy h); simpl; rewrite ?Hc; split; by eauto.
    + destruct (get_file_hash read_blocks (path_of r)); simpl; rewrite ?Hc;
        split; by eauto.
  - destruct (get_file_hash read_blocks (path_of r)); simpl; by rewrite ?Hc.
Qed.

(** X23. Whatever the command line and the answers, when [main] returns:
    before the deletion step the only write is the cache file, which
    [find_duplicates_parallel] saves on every run that has one, dry runs
    included; without [--interactive] and [--auto-first], and likewise with
    [--dry-run], nothing else changes; without [--dry-run] the disk changes
    further only through [execute_deletion], after a line that is y once
    stripped and lower-cased. *)
Theorem main_deletes_only_on_request (args : Args) (source_is_dir : bool)
    (walk : list (string * list string)) (cache0 : option (gmap string CacheEntry))
    (d after_detection : FS) (pending rest : list string)
    (outcome : option (ExecState FS)) :
  main path_join splitext_ext dirname getmtime_opt read_blocks save_cache args
    source_is_dir walk cache0 d pending = Ret (after_detection, outcome, rest) ->
  (source_is_dir = false \/ cache0 = None -> after_detection = d)
  /\ (source_is_dir = true -> is_Some cache0 ->
      exists c,
        cache (detect_run read_blocks
                 (scan_directory path_join splitext_ext (readable_size d)
                    getmtime_opt walk).1 cache0) = Some c
        /\ save_cache c d = Ret after_detection)
  /\ (arg_interactive args = false -> arg_auto_first args = false ->
      outcome = None /\ rest = pending)
  /\ (arg_dry_run args = true -> disk_after (after_detection, outcome) = after_detection)
  /\ (arg_auto_first args = true -> arg_dry_run args = true -> rest = pending)
  /\ (forall report, outcome = Some report ->
        exists files_to_delete dirs_to_delete,
          report = execute_deletion (arg_dry_run args) after_detection
                     files_to_delete dirs_to_delete)
  /\ (arg_dry_run args = false -> outcome <> None ->
      exists used confirm,
        pending = used ++ confirm :: rest
        /\ py_lower (py_strip confirm) = "y"
        /\ (arg_auto_first args = true -> used = [])).
Proof.
  unfold main. intros Hrun.
  destruct source_is_dir; simpl in Hrun;
    [|unfold ret in Hrun; injection Hrun as <- <- <-;
      repeat split; try done; by intros ? [=]].
  destruct (scan_directory path_join splitext_ext (readable_size d) getmtime_opt walk)
    as [all_files statistics].
  apply bind_Ret in Hrun as ([] & mid0 & Hsummary & Hrun).
  apply lift_Ret in Hsummary as [_ ->].
  apply bind_Ret in Hrun as (d1 & mid & Hsave & Hrun).
  apply lift_Ret in Hsave as [Hsave ->].
  set (duplicates := find_duplicates_parallel read_blocks all_files
                       (arg_workers args) cache0) in *.
  set (identical_dirs := if arg_find_identical_dirs args && nonempty duplicates
                         then find_identical_directories dirname statistics duplicates
                         else []) in *.
  apply bind_Ret in Hrun as ([] & mid' & Hsizes & Hrun).
  apply lift_Ret in Hsizes as [_ ->].
  assert (after_detection = d1) as ->.
  { destruct ((arg_interactive args || arg_auto_first args)
              && (nonempty duplicates || nonempty identical_dirs));
      [|unfold ret in Hrun; by injection Hrun].
    apply bind_Ret in Hrun as (plan & mid1 & _ & Hrun).
    apply bind_Ret in Hrun as (go & mid2 & _ & Hrun).
    destruct go; [|unfold ret in Hrun; by injection Hrun].
    destruct (arg_dry_run args); [unfold ret in Hrun; by injection Hrun|].
    apply bind_Ret in Hrun as (confirm & mid3 & _ & Hrun).
    destruct (bool_decide _); unfold ret in Hrun; by injection Hrun. }
  split.
  { intros [Hf| ->]; [done|].
    pose proof (detect_run_cache_shape all_files None) as Hshape.
    destruct (cache (detect_run read_blocks all_files None)) as [c|].
    - destruct (proj1 Hshape) as [? ?]; by eauto.
    - by injection Hsave. }
  split.
  { intros _ Hsome. simpl.
    apply (proj2 (detect_run_cache_shape all_files cache0)) in Hsome as [c Hc].
    rewrite Hc in Hsave. by exists c. }
  destruct ((arg_interactive args || arg_auto_first args)
            && (nonempty duplicates || nonempty identical_dirs)) eqn:Hgo;
    [|unfold ret in Hrun; injection Hrun as <- <-; repeat split; try done;
      by intros ? [=]].
  apply bind_Ret in Hrun as (plan & mid1 & Hplan & Hrun).
  apply bind_Ret in Hrun as (go & mid2 & Hpreview & Hrun).
  apply lift_Ret in Hpreview as [_ ->].
  assert (arg_auto_first args = true -> mid1 = pending) as Hauto.
  { intros Ha. rewrite Ha in Hplan. unfold ret in Hplan. by injection Hplan. }
  assert (exists used, pending = used ++ mid1
                       /\ (arg_auto_first args = true -> used = [])) as (used & Hused & Hu).
  { destruct (arg_auto_first args) eqn:Ha.
    - exists []. unfold ret in Hplan. by injection Hplan as _ <-.
    - unfold interactive_selection in Hplan.
      apply bind_Ret in Hplan as ([files flag] & m1 & Hf & Hplan).
      apply bind_Ret in Hplan as (ds & m2 & Hd & Hplan).
      unfold ret in Hplan. injection Hplan as _ <-.
      pose proof (for_each_files_spec (fs_getsize d1) duplicates [] false pending) as Hfs.
      rewrite Hf in Hfs. destruct Hfs as (_ & _ & (u1 & -> & _)).
      pose proof (for_each_dirs_spec identical_dirs [] m1) as Hds.
      rewrite Hd in Hds. destruct Hds as (_ & (u2 & -> & _)).
      exists (u1 ++ u2). by rewrite app_assoc. }
  assert (arg_interactive args = false -> arg_auto_first args = false ->
          outcome = None /\ rest = pending) as Hidle.
  { intros Hi Ha. rewrite Hi, Ha in Hgo. done. }
  split; [exact Hidle|].
  destruct go.
  - destruct (arg_dry_run args) eqn:Hdry.
    + unfold ret in Hrun. injection Hrun as <- <-. split; [|split; [|split]].
      * intros _. unfold disk_after. simpl. apply dry_run_disk.
      * intros Ha _. by apply Hauto.
      * intros report [= <-]. by exists plan.1, plan.2.
      * done.
    + apply bind_Ret in Hrun as (confirm & mid3 & Hin & Hrun).
      unfold input in Hin. destruct mid1 as [|line mid1']; [done|].
      injection Hin as -> ->.
      destruct (bool_decide (py_lower (py_strip confirm) = "y")) eqn:Hy;
        unfold ret in Hrun; injection Hrun as <- <-.
      * apply bool_decide_eq_true in Hy. split; [done|]. split; [done|]. split.
        -- intros report [= <-]. by exists plan.1, plan.2.
        -- intros _ _. by exists used, confirm.
      * split; [done|]. split; [done|]. split; [by intros ? [=]|done].
  - unfold ret in Hrun. injection Hrun as <- <-. split; [done|]. split.
    + intros Ha _. by apply Hauto.
    + split; [by intros ? [=]|done].
Qed.

(** X24. The options [--workers] and [--group-by-category] have no effect on
    what [main] deletes or reads, and neither has [--interactive] when
    [--auto-first] is given. *)
Theorem main_ignores_some_options (args args' : Args) (source_is_dir : bool)
    (walk : list (string * list string)) (cache0 : option (gmap string CacheEntry))
    (d : FS) (pending : list string) :
  arg_find_identical_dirs args' = arg_find_identical_dirs args ->
  arg_dry_run args' = arg_dry_run args ->
  arg_auto_first args' = arg_auto_first args ->
  (arg_interactive args' = arg_interactive args \/ arg_auto_first args = true) ->
  main path_join splitext_ext dirname getmtime_opt read_blocks save_cache args'
    source_is_dir walk cache0 d pending
  = main path_join splitext_ext dirname getmtime_opt read_blocks save_cache args
      source_is_dir walk cache0 d pending.
Proof.
  intros Hdirs Hdry Hauto Hinter. unfold main. rewrite Hdirs, Hdry, Hauto.
  assert (arg_interactive args' || arg_auto_first args
          = arg_interactive args || arg_auto_first args) as ->.
  { destruct Hinter as [->| ->]; [done|]. by rewrite !orb_true_r. }
  done.
Qed.

End main_facts.

Example scan_sample :
  scan_directory sample_join sample_ext (readable_size sample_tree) sample_mtime
    sample_walk
  = ([("/x/1.bin", 4, 100); ("/x/notes.TXT", 9, 100); ("/y/1.bin", 4, 100);
      ("/z/1.bin", 4, 100)],
     mkStatistics 4 21
       [(".bin", mkTally 3 12); (".txt", mkTally 1 9)]
       [("/x", mkTally 2 13); ("/y", mkTally 1 4); ("/z", mkTally 1 4)]
       [("executables", mkTally 3 12); ("documents", mkTally 1 9)]).
Proof. vm_compute. reflexivity. Qed.

(** The summary orders the categories by name and the extensions and
    directories by decreasing size; a category of 1024 terabytes ends it
    with TypeError. *)
Example summary_samples :
  sorted_items [("executables", mkTally 3 12); ("documents", mkTally 1 9)]
  = [("documents", mkTally 1 9); ("executables", mkTally 3 12)]
  /\ sorted_by_size [("/x", mkTally 2 13); ("/y", mkTally 1 4); ("/z", mkTally 1 4);
                     ("/w", mkTally 5 20)]
     = [("/w", mkTally 5 20); ("/x", mkTally 2 13); ("/y", mkTally 1 4);
        ("/z", mkTally 1 4)]
  /\ print_summary (mkStatistics 4 21 [(".bin", mkTally 3 12); (".txt", mkTally 1 9)]
                      [("/x", mkTally 2 13)] [("executables", mkTally 3 12)])
     = Ret tt
  /\ print_summary huge_statistics = Raise TypeError.
Proof. repeat split; vm_compute; reflexivity. Qed.

(** The sample tree: [/x/1.bin] and [/y/1.bin] hold the same bytes, so
    [/y/1.bin] and the directory [/y] are planned; the sample disk refuses
    to remove directories.  The cache file is written before anything is
    asked. *)
Example main_sample :
  (exists report,
     main sample_join sample_ext posix_dirname sample_mtime sample_disk sample_save
       (sample_args false true) true sample_walk (Some ∅) sample_tree [" Y "; "more"]
     = Ret (<["hash_cache.pkl" := 304]> sample_tree, Some report, ["more"])
     /\ printed report = [FileDeleted "/y/1.bin" 4; DirError "/y" OSError]
     /\ disk report = delete "/y/1.bin" (<["hash_cache.pkl" := 304]> sample_tree))
  /\ main sample_join sample_ext posix_dirname sample_mtime sample_disk sample_save
       (sample_args false true) true sample_walk (Some ∅) sample_tree ["n"]
     = Ret (<["hash_cache.pkl" := 304]> sample_tree, None, []).
Proof.
  split.
  - eexists. split; [vm_compute; reflexivity|]. split; [reflexivity|].
    vm_compute. reflexivity.
  - vm_compute. reflexivity.
Qed.

Lemma preview_answers_witness :
  preview_deletion sample_tree ["/x/1.bin"; "/y/1.bin"] ["/z"]
    (mkStatistics 0 0 [] [("/z", mkTally 1 4)] [])
  = Ret true
  /\ preview_deletion sample_tree ["/x/1.bin"; "/gone"; "/y/1.bin"] []
       (mkStatistics 0 0 [] [] [])
     = Raise OSError.
Proof.
  split.
  - destruct (preview_answers sample_tree (mkStatistics 0 0 [] [("/z", mkTally 1 4)] [])
                ["/x/1.bin"; "/y/1.bin"] ["/z"]) as (_ & Hok & _).
    destruct Hok as [Hanswer _]; [|exact Hanswer].
    intros f Hf. apply elem_of_cons in Hf as [->|Hf]; [by exists 4|].
    apply list_elem_of_singleton in Hf as ->. by exists 4.
  - destruct (preview_answers sample_tree (mkStatistics 0 0 [] [] [])
                ["/x/1.bin"; "/gone"; "/y/1.bin"] []) as (_ & _ & Hraise).
    apply (Hraise ["/x/1.bin"] "/gone" ["/y/1.bin"] OSError); [done| |done].
    intros g Hg. apply list_elem_of_singleton in Hg as ->. by exists 4.
Defined.

Lemma main_deletes_only_on_request_witness :
  exists outcome,
    main sample_join sample_ext posix_dirname sample_mtime sample_disk sample_save
      (sample_args true true) true sample_walk (Some ∅) sample_tree ["unread"]
    = Ret (<["hash_cache.pkl" := 304]> sample_tree, outcome, ["unread"])
    /\ disk_after (<["hash_cache.pkl" := 304]> sample_tree, outcome)
       = <["hash_cache.pkl" := 304]> sample_tree.
Proof.
  eexists. split; [vm_compute; reflexivity|].
  eapply (main_deletes_only_on_request sample_join sample_ext posix_dirname sample_mtime
            sample_disk sample_save (sample_args true true) true sample_walk (Some ∅)
            sample_tree _ ["unread"] ["unread"]).
  - vm_compute. reflexivity.
  - reflexivity.
Defined.

Lemma main_ignores_some_options_witness :
  main sample_join sample_ext posix_dirname sample_mtime sample_disk sample_save
    (mkArgs 1 true true true false true) true sample_walk (Some ∅) sample_tree ["y"]
  = main sample_join sample_ext posix_dirname sample_mtime sample_disk sample_save
      (sample_args false true) true sample_walk (Some ∅) sample_tree ["y"].
Proof.
  apply (main_ignores_some_options sample_join sample_ext posix_dirname sample_mtime
           sample_disk sample_save); try reflexivity. by right.
Defined.
